(** * Netflix catalogue analysis: a shallow embedding of [netflix_analysis.py]

    The script is a linear batch pipeline over one table: load and clean,
    seven aggregations (each handed to the plotting library), four derived
    sentences, one text file.  This development embeds the data-carrying part
    of the script: the cleaning of the columns, the string operations pandas
    delegates to Python ([strip], [split], the search for [\d+]), the counting
    and ordering of the frequency tables, the binary64 arithmetic of the
    percentages and their fixed-point formatting, and the text that is written
    to [insights.txt].

    Conventions.
    - A string is a [string] of bytes, the UTF-8 text of the cell.  The
      character classes of Python ([\d], white space) are taken on ASCII:
      on text with other characters Python also finds decimal digits and
      white space that the model does not.  The statements that depend on
      them are made for cells of ASCII text ([is_ascii], [cell_ascii]).
    - The names of the header are distinct, so that [df[name]] is a column.
    - A missing cell (NaN, NaT) is [None].
    - A pandas Series of counts is an association list, in Series order.
    - Numbers stored in a float64 column are primitive binary64 floats, so
      that [/], [*] and the rounding of [format] are those of the script.
    - What pandas leaves to a library is a class: the date parser behind
      [to_datetime] ([DateParser]), the sort behind [sort_values]
      ([ValueSort]), which fixes the order of the counts and not the order of
      equal counts, and the drawing of the charts ([Plotting]).  The
      statements hold for every instance.
    - An exception is a value [Raise e] of the type [result].
    - [main] is the script without its charts: it computes the tables and the
      sentences and records the names of the files.  [script] is the script
      with its charts, each of which returns or raises; it completes when
      [main] does and every chart is drawn.
    - The release years are integers; their decade is computed in 64-bit
      integers, as on a column without a missing year.
    - The frame is taken after [read_csv] and the renaming of the columns
      (lines 15 and 16). *)

From Stdlib Require Import ZArith List Bool Ascii String Lia Floats
  Permutation Sorted Numbers.DecimalString.
Import ListNotations.

Local Open Scope string_scope.
Local Open Scope list_scope.

(** ** Exceptions *)

Inductive exn : Type :=
| KeyError (column : string)
| ValueError (msg : string)
| IndexError (msg : string)
| OtherError (name msg : string).

Inductive result (A : Type) : Type :=
| Ok (a : A)
| Raise (e : exn).

Arguments Ok {A} a.
Arguments Raise {A} e.

Definition bind {A B : Type} (m : result A) (k : A -> result B) : result B :=
  match m with
  | Ok a => k a
  | Raise e => Raise e
  end.

Notation "x <- m ;; k" := (bind m (fun x => k))
  (at level 61, m at next level, right associativity).

Fixpoint mapM {A B : Type} (f : A -> result B) (l : list A) : result (list B) :=
  match l with
  | [] => Ok []
  | a :: l' => b <- f a ;; bs <- mapM f l' ;; Ok (b :: bs)
  end.

(** ** Characters and strings *)

Definition is_digit (c : ascii) : bool :=
  let n := nat_of_ascii c in (48 <=? n)%nat && (n <=? 57)%nat.

(** White space as [str.strip] sees it, among the ASCII characters:
    TAB, LF, VT, FF, CR, the four separators FS, GS, RS, US, and SPACE. *)
Definition is_space (c : ascii) : bool :=
  let n := nat_of_ascii c in
  ((9 <=? n)%nat && (n <=? 13)%nat) || ((28 <=? n)%nat && (n <=? 32)%nat).

Fixpoint lstrip (s : string) : string :=
  match s with
  | EmptyString => EmptyString
  | String c s' => if is_space c then lstrip s' else s
  end.

Fixpoint rstrip (s : string) : string :=
  match s with
  | EmptyString => EmptyString
  | String c s' =>
      match rstrip s' with
      | EmptyString => if is_space c then EmptyString else String c EmptyString
      | t => String c t
      end
  end.

Definition strip (s : string) : string := rstrip (lstrip s).

(** [s.split(sep)] for a one-character separator: every occurrence cuts, empty
    pieces are kept, and the result is never empty. *)
Fixpoint split (sep : ascii) (s : string) : list string :=
  match s with
  | EmptyString => [EmptyString]
  | String c s' =>
      if Ascii.eqb c sep then EmptyString :: split sep s'
      else match split sep s' with
           | piece :: pieces => String c piece :: pieces
           | [] => [String c EmptyString]
           end
  end.

Definition comma : ascii := ",".

(** [str.lower] on the ASCII letters; the other characters are left as they
    are. *)
Definition lower_char (c : ascii) : ascii :=
  let n := nat_of_ascii c in
  if (65 <=? n)%nat && (n <=? 90)%nat then ascii_of_nat (n + 32) else c.

Fixpoint lower (s : string) : string :=
  match s with
  | EmptyString => EmptyString
  | String c s' => String (lower_char c) (lower s')
  end.

(** [s.replace(old, new)] for two one-character strings. *)
Fixpoint replace (old new : ascii) (s : string) : string :=
  match s with
  | EmptyString => EmptyString
  | String c s' => String (if Ascii.eqb c old then new else c) (replace old new s')
  end.

(** Line 16: [c.strip().lower().replace(" ", "_")], and the header it gives. *)
Definition normalize_column (c : string) : string :=
  replace " " "_" (lower (strip c)).

Definition normalize_columns (header : list string) : list string :=
  map normalize_column header.

Fixpoint all_digits (s : string) : bool :=
  match s with
  | EmptyString => true
  | String c s' => is_digit c && all_digits s'
  end.

Fixpoint no_digit (s : string) : bool :=
  match s with
  | EmptyString => true
  | String c s' => negb (is_digit c) && no_digit s'
  end.

(** The greedy [\d+] at the head of a string: the digits and the rest. *)
Fixpoint take_digits (s : string) : string :=
  match s with
  | EmptyString => EmptyString
  | String c s' => if is_digit c then String c (take_digits s') else EmptyString
  end.

Fixpoint drop_digits (s : string) : string :=
  match s with
  | EmptyString => EmptyString
  | String c s' => if is_digit c then drop_digits s' else s
  end.

(** [re.search(r"(\d+)", s)]: the leftmost match, as long as it can be.
    [None] when nothing matches. *)
Fixpoint search_digits (s : string) : option string :=
  match s with
  | EmptyString => None
  | String c s' => if is_digit c then Some (take_digits s) else search_digits s'
  end.

(** ** Numbers *)

Definition digit_value (c : ascii) : Z := Z.of_nat (nat_of_ascii c - 48).

(** The integer a decimal numeral denotes, read from the left. *)
Fixpoint decimal_from (acc : Z) (s : string) : Z :=
  match s with
  | EmptyString => acc
  | String c s' => decimal_from (10 * acc + digit_value c)%Z s'
  end.

Definition decimal_value (s : string) : Z := decimal_from 0 s.

(** The binary64 number nearest to an integer (ties to even, overflow to
    infinity): what int-to-float conversion and Python's [float] of a decimal
    numeral both return. *)
Definition Z2float (z : Z) : float :=
  SF2Prim (binary_normalize prec emax z 0 false).

(** [float(s)] on the strings this pipeline hands to it.  An unsigned decimal
    numeral is converted; any other string is rejected here, which only
    over-approximates the failures of Python's [float]. *)
Definition float_of_str (s : string) : result float :=
  match s with
  | EmptyString => Raise (ValueError s)
  | _ => if all_digits s then Ok (Z2float (decimal_value s))
         else Raise (ValueError s)
  end.

(** [series.str.extract(r"(\d+)").astype(float)], one cell. *)
Definition extract_number (s : string) : result (option float) :=
  match search_digits s with
  | None => Ok None
  | Some run => x <- float_of_str run ;; Ok (Some x)
  end.

Definition str_of_Z (z : Z) : string := NilZero.string_of_int (Z.to_int z).

Definition digit_char (d : Z) : ascii := ascii_of_nat (48 + Z.to_nat d).

(** The last [k] decimal digits of [n], most significant first. *)
Fixpoint frac_digits (k : nat) (n : Z) : string :=
  match k with
  | O => EmptyString
  | S k' => frac_digits k' (n / 10) ++ String (digit_char (n mod 10)) EmptyString
  end.

(** The numeral of [n / 10^prec] with [prec] digits after the point, [0 <= n]. *)
Definition fixed (prec : nat) (n : Z) : string :=
  let scale := (10 ^ Z.of_nat prec)%Z in
  str_of_Z (n / scale) ++
  match prec with
  | O => EmptyString
  | _ => "." ++ frac_digits prec (n mod scale)
  end.

(** [num * 2^e] rounded to the nearest integer, ties to the even one. *)
Definition round_half_even (num e : Z) : Z :=
  match e with
  | Zneg p =>
      let d := (2 ^ Zpos p)%Z in
      let q := (num / d)%Z in
      let r := (num mod d)%Z in
      if (2 * r <? d)%Z then q
      else if (d <? 2 * r)%Z then (q + 1)%Z
      else if Z.even q then q else (q + 1)%Z
  | _ => (num * 2 ^ e)%Z
  end.

Definition sign_str (s : bool) : string := if s then "-" else "".

(** [format(x, ".<prec>f")]: the exact binary value of [x], correctly rounded
    to [prec] decimals. *)
Definition format_float (prec : nat) (x : float) : string :=
  match Prim2SF x with
  | S754_nan => "nan"
  | S754_infinity s => sign_str s ++ "inf"
  | S754_zero s => sign_str s ++ fixed prec 0
  | S754_finite s m e =>
      sign_str s ++ fixed prec (round_half_even (Zpos m * 10 ^ Z.of_nat prec) e)
  end.

(** ** The table *)

Definition cell : Type := option string.

Definition notna {A : Type} (c : option A) : bool :=
  match c with Some _ => true | None => false end.

Record Timestamp : Type := mkTimestamp {
  ts_year : Z;
  ts_month : Z;
  ts_day : Z
}.

(** One line of the CSV file.  A field is read only when its column is listed
    in the header of the frame.  The release year is a number in the file. *)
Record RawRow : Type := mkRawRow {
  raw_type : cell;
  raw_title : cell;
  raw_country : cell;
  raw_rating : cell;
  raw_duration : cell;
  raw_listed_in : cell;
  raw_date_added : cell;
  raw_release_year : option Z
}.

(** The frame after [read_csv] and the renaming of its columns. *)
Record RawFrame : Type := mkRawFrame {
  raw_columns : list string;
  raw_rows : list RawRow
}.

(** One record after the cleaning section. *)
Record Row : Type := mkRow {
  type : cell;
  title : cell;
  country : string;
  rating : string;
  duration : string;
  listed_in : string;
  date_added : option Timestamp;
  year_added : option Z;
  release_year : option Z
}.

(** [year_added_float] is the dtype of the column [year_added]: float64 as
    soon as one value is missing, an integer type otherwise. *)
Record DataFrame : Type := mkDataFrame {
  columns : list string;
  rows : list Row;
  year_added_float : bool
}.

Definition has_column (cols : list string) (c : string) : bool :=
  existsb (String.eqb c) cols.

(** [df[name]], or [df[name]] on a selection of the rows of [df]. *)
Definition getitem {A : Type} (cols : list string) (name : string)
    (field : Row -> A) (rs : list Row) : result (list A) :=
  if has_column cols name then Ok (map field rs) else Raise (KeyError name).

(** [grouped[name]] on the result of [groupby]: the key of the error is a
    sentence, not the name alone. *)
Definition groupby_getitem (cols : list string) (name : string) : result unit :=
  if has_column cols name then Ok tt
  else Raise (KeyError ("Column not found: " ++ name)).

(** [pd.to_datetime]: the parser of the library, on a column of text.  It may
    look at the whole column (to guess a format) before it reads one value.
    A value it does not read is an error, or a missing date under
    [errors="coerce"]: that the call then returns is what pandas documents,
    and is taken from it here, not proved. *)
Class DateParser : Type := {
  parse_datetime : list cell -> string -> option Timestamp
}.

Inductive errors_mode : Type := errors_raise | errors_coerce.

Definition to_datetime `{DateParser} (errors : errors_mode) (col : list cell)
  : result (list (option Timestamp)) :=
  mapM (fun c =>
          match c with
          | None => Ok None
          | Some s =>
              match parse_datetime col s with
              | Some t => Ok (Some t)
              | None =>
                  match errors with
                  | errors_coerce => Ok None
                  | errors_raise => Raise (ValueError s)
                  end
              end
          end) col.

(** ** Data cleaning *)

(** [.fillna("Unknown").astype(str).str.strip()] *)
Definition fill_clean (c : cell) : string :=
  strip (match c with Some s => s | None => "Unknown" end).

(** The guard [if col in df.columns]: a column that is absent is not cleaned.
    Its cells are never read, since every later access to it raises. *)
Definition text_of (c : cell) : string :=
  match c with Some s => s | None => EmptyString end.

Definition clean_if_present (cols : list string) (name : string) (c : cell)
  : string :=
  if has_column cols name then fill_clean c else text_of c.

Definition load_row (cols : list string) (r : RawRow) (d : option Timestamp)
  : Row :=
  {| type := raw_type r;
     title := raw_title r;
     country := clean_if_present cols "country" (raw_country r);
     rating := clean_if_present cols "rating" (raw_rating r);
     duration := clean_if_present cols "duration" (raw_duration r);
     listed_in := clean_if_present cols "listed_in" (raw_listed_in r);
     date_added := d;
     year_added := option_map ts_year d;
     release_year :=
       if has_column cols "release_year" then raw_release_year r else None |}.

(** Lines 18 to 30: the frame every aggregation reads. *)
Definition load `{DateParser} (raw : RawFrame) : result DataFrame :=
  let cols := raw_columns raw in
  dates <- (if has_column cols "date_added"
            then to_datetime errors_coerce (map raw_date_added (raw_rows raw))
            else Ok (map (fun _ => None) (raw_rows raw))) ;;
  Ok {| columns := cols ++ ["year_added"] ++
                   (if has_column cols "release_year" then [] else ["release_year"]);
        rows := map (fun rd => load_row cols (fst rd) (snd rd))
                    (combine (raw_rows raw) dates);
        year_added_float := existsb (fun d => negb (notna d)) dates
                            || negb (has_column cols "date_added") |}.

(** ** Series of counts *)

Definition Series (K : Type) : Type := list (K * nat).

Definition by_count {K : Type} (a b : K * nat) : Prop := snd a <= snd b.

(** The sort behind [sort_values]: pandas sorts with numpy's default kind,
    which orders by value and leaves the order of equal values open. *)
Class ValueSort : Type := {
  argsort : forall {K : Type}, Series K -> Series K;
  argsort_perm : forall (K : Type) (s : Series K), Permutation s (argsort s);
  argsort_sorted : forall (K : Type) (s : Series K),
      StronglySorted by_count (argsort s)
}.

(** [s.sort_values(ascending=...)]; a descending sort reverses, sorts and
    reverses back. *)
Definition sort_values `{ValueSort} {K : Type} (ascending : bool) (s : Series K)
  : Series K :=
  if ascending then argsort s else rev (argsort (rev s)).

(** One more observation of [k]: hash-table counting keeps the keys in the
    order in which they were first seen. *)
Fixpoint bump (k : string) (s : Series string) : Series string :=
  match s with
  | [] => [(k, 1)]
  | (k', n) :: s' =>
      if String.eqb k k' then (k', S n) :: s' else (k', n) :: bump k s'
  end.

Definition tally (l : list string) : Series string :=
  fold_left (fun acc k => bump k acc) l [].

Fixpoint dropna {A : Type} (l : list (option A)) : list A :=
  match l with
  | [] => []
  | Some a :: l' => a :: dropna l'
  | None :: l' => dropna l'
  end.

(** [series.value_counts()]: missing values dropped beforehand, counts in
    descending order. *)
Definition value_counts `{ValueSort} (l : list string) : Series string :=
  sort_values false (tally l).

Definition head {A : Type} (n : nat) (l : list A) : list A := firstn n l.

Definition series_sum {K : Type} (s : Series K) : nat :=
  fold_right Nat.add 0 (map snd s).

(** [s.max()]: the greatest count, NaN on an empty Series. *)
Definition series_max {K : Type} (s : Series K) : float :=
  match s with
  | [] => nan
  | _ => Z2float (Z.of_nat (fold_right Nat.max 0 (map snd s)))
  end.

(** [s.idxmax()]: the label of the first row holding the maximum. *)
Fixpoint first_max {K : Type} (best : K * nat) (s : Series K) : K * nat :=
  match s with
  | [] => best
  | x :: s' =>
      if (snd best <? snd x)%nat then first_max x s' else first_max best s'
  end.

Definition idxmax {K : Type} (s : Series K) : result K :=
  match s with
  | [] => Raise (ValueError "attempt to get argmax of an empty sequence")
  | x :: s' => Ok (fst (first_max x s'))
  end.

(** [s.iloc[-1]] *)
Definition iloc_last {K : Type} (s : Series K) : result nat :=
  match rev s with
  | [] => Raise (IndexError "single positional indexer is out-of-bounds")
  | x :: _ => Ok (snd x)
  end.

Definition float_of_nat (n : nat) : float := Z2float (Z.of_nat n).

(** ** The aggregations *)

(** 1) Movies vs TV Shows (line 39):
    [df["type"].value_counts().sort_values(ascending=False)] *)
Definition type_counts_of `{ValueSort} (types : list cell) : Series string :=
  sort_values false (value_counts (dropna types)).

(** 2) and 4), lines 49 to 53 and 79 to 83: [.str.split(",")], [.explode],
    [.str.strip()] *)
Definition explode_tokens (col : list string) : list string :=
  map strip (flat_map (split comma) col).

Definition ne_Unknown (t : string) : bool := negb (String.eqb t "Unknown").

(** Lines 54 to 59 and 84 to 87: the sentinel filtered out, the counts, the
    first [n] of them, in increasing order. *)
Definition top_tokens `{ValueSort} (n : nat) (col : list string) : Series string :=
  sort_values true (head n (value_counts (filter ne_Unknown (explode_tokens col)))).

Definition top_countries_of `{ValueSort} (col : list string) : Series string :=
  top_tokens 10 col.

Definition top_genres_of `{ValueSort} (col : list string) : Series string :=
  top_tokens 15 col.

(** 3) Growth by year (lines 67 to 71).  [groupby] lists each key once, in
    increasing order; [count] counts the titles that are present. *)
Fixpoint insert_key (y : Z) (keys : list Z) : list Z :=
  match keys with
  | [] => [y]
  | k :: keys' =>
      if (y <? k)%Z then y :: keys
      else if (y =? k)%Z then keys
      else k :: insert_key y keys'
  end.

Definition group_keys (ys : list Z) : list Z := fold_right insert_key [] ys.

Definition in_group (y : Z) (p : Z * cell) : bool :=
  (fst p =? y)%Z && notna (snd p).

Definition groupby_count (obs : list (Z * cell)) : Series Z :=
  map (fun y => (y, List.length (filter (in_group y) obs))) (group_keys (map fst obs)).

Fixpoint insert_by_index (x : Z * nat) (s : Series Z) : Series Z :=
  match s with
  | [] => [x]
  | y :: s' => if (fst x <? fst y)%Z then x :: s else y :: insert_by_index x s'
  end.

Definition sort_index (s : Series Z) : Series Z :=
  fold_right insert_by_index [] (rev s).

(** [df.dropna(subset=["year_added"])], keeping the two columns in use. *)
Fixpoint dated (rs : list Row) : list (Z * cell) :=
  match rs with
  | [] => []
  | r :: rs' =>
      match year_added r with
      | Some y => (y, title r) :: dated rs'
      | None => dated rs'
      end
  end.

Definition year_counts_of (rs : list Row) : Series Z :=
  sort_index (groupby_count (dated rs)).

(** 5) and 6), lines 95 to 107: the movies, with their two derived columns. *)
Record Movie : Type := mkMovie {
  movie_row : Row;
  duration_minutes : option float;
  decade : option Z
}.

Definition eq_str (c : cell) (v : string) : bool :=
  match c with Some s => String.eqb s v | None => false end.

Definition is_movie (r : Row) : bool := eq_str (type r) "Movie".
Definition is_tv_show (r : Row) : bool := eq_str (type r) "TV Show".

(** A 64-bit integer after an operation of numpy: the result modulo 2^64,
    taken between -2^63 and 2^63 - 1. *)
Definition wrap64 (z : Z) : Z := ((z + 2 ^ 63) mod 2 ^ 64 - 2 ^ 63)%Z.

(** [(release_year // 10 * 10).astype("Int64")] on a column of 64-bit
    integers, which is what [read_csv] makes of a column where every record
    has a year: the quotient is rounded down and the product wraps around.  A
    column with a missing year is a column of floats; it holds the same
    numbers, computed without wrap-around, for years of absolute value at
    most 2^53. *)
Definition decade_of (y : option Z) : option Z :=
  option_map (fun y => wrap64 (y / 10 * 10)) y.

Definition movies_of (rs : list Row) : result (list Movie) :=
  mapM (fun r => m <- extract_number (duration r) ;;
                 Ok {| movie_row := r;
                       duration_minutes := m;
                       decade := decade_of (release_year r) |})
       (filter is_movie rs).

Definition in_recent_decade (m : Movie) : bool :=
  match decade m with
  | Some d => (1980 <=? d)%Z
  | None => false
  end.

Definition recent_decades_of (movies : list Movie) : list Movie :=
  filter in_recent_decade movies.

(** 7) TV shows (lines 119 and 120) *)
Record TvShow : Type := mkTvShow {
  tv_row : Row;
  seasons : option float
}.

Definition tv_of (rs : list Row) : result (list TvShow) :=
  mapM (fun r => s <- extract_number (duration r) ;;
                 Ok {| tv_row := r; seasons := s |})
       (filter is_tv_show rs).

(** ** The insights *)

Definition nl : string := String (ascii_of_nat 10) EmptyString.

(** [str] of an index label of [year_counts]: an integer, or a float holding
    one (years stay far below 1e16, where the float prints in full). *)
Definition str_of_year (is_float : bool) (y : Z) : string :=
  if is_float then (str_of_Z y ++ ".0")%string else str_of_Z y.

(** Lines 129 to 132 *)
Definition insight_type (type_counts : Series string) : result (list string) :=
  match type_counts with
  | [] => Ok []
  | _ =>
      dominant <- idxmax type_counts ;;
      let pct :=
        (series_max type_counts / float_of_nat (series_sum type_counts) * 100)%float in
      Ok [(dominant ++ " lead with ~" ++ format_float 1 pct ++
           "% of total titles.")%string]
  end.

(** Lines 134 to 136 *)
Definition insight_countries `{ValueSort} (top_countries : Series string)
  : list string :=
  match top_countries with
  | [] => []
  | _ =>
      let tcountry := firstn 3 (map fst (sort_values false top_countries)) in
      [("Top content countries: " ++ String.concat ", " tcountry ++ ".")%string]
  end.

(** Lines 138 to 140 *)
Definition insight_growth (is_float : bool) (year_counts : Series Z)
  : result (list string) :=
  if (1 <? List.length year_counts)%nat then
    latest <- iloc_last year_counts ;;
    let recent_growth :=
      (float_of_nat latest / series_max year_counts * 100)%float in
    peak <- idxmax year_counts ;;
    Ok [("Catalog peak additions around " ++ str_of_year is_float peak ++
         "; latest year is ~" ++ format_float 0 recent_growth ++
         "% of peak.")%string]
  else Ok [].

(** [series.mean()]: the values that are present, summed and divided by their
    number.  The sum is taken from the left; durations are integers far below
    2^53, for which every order of summation gives the same float. *)
Definition mean (l : list (option float)) : float :=
  let present := dropna l in
  (fold_left PrimFloat.add present 0 / float_of_nat (List.length present))%float.

(** Lines 142 to 144 *)
Definition insight_duration (movies : list Movie) : list string :=
  let minutes := map duration_minutes movies in
  if existsb notna minutes then
    [("Avg movie duration ≈ " ++ format_float 0 (mean minutes) ++
      " minutes.")%string]
  else [].

(** Lines 146 to 149: the text of [insights.txt] *)
Definition insights_text (ins : list string) : string :=
  ("Key Insights:" ++ nl ++ "- " ++ String.concat (nl ++ "- ") ins)%string.

(** ** The script *)

Record Output : Type := mkOutput {
  df : DataFrame;
  type_counts : Series string;
  top_countries : Series string;
  year_counts : Series Z;
  top_genres : Series string;
  movies : list Movie;
  recent_decades : list Movie;
  tv : list TvShow;
  figures : list string;
  ins : list string;
  insights_txt : string
}.

(** Lines 33 to 36: the file is written; the model keeps its name. *)
Definition saveplot (path : string) (figs : list string) : list string :=
  figs ++ [path].

(** The script from line 18 on, in the order of its statements, without its
    charts: every plotting call is left out and every file name is recorded.
    [script] below is the same sequence with the charts drawn. *)
Definition main `{DateParser} `{ValueSort} (raw : RawFrame) : result Output :=
  frame <- load raw ;;
  let cols := columns frame in
  (* 1 *)
  types <- getitem cols "type" type (rows frame) ;;
  let type_counts := type_counts_of types in
  let figs := saveplot "01_movies_vs_tv.png" [] in
  (* 2 *)
  countries <- getitem cols "country" country (rows frame) ;;
  let top_countries := top_countries_of countries in
  let figs := saveplot "02_top_countries.png" figs in
  (* 3 *)
  _ <- groupby_getitem cols "title" ;;
  let year_counts := year_counts_of (rows frame) in
  let figs := saveplot "03_growth_by_year_added.png" figs in
  (* 4 *)
  genres <- getitem cols "listed_in" listed_in (rows frame) ;;
  let top_genres := top_genres_of genres in
  let figs := saveplot "04_top_genres.png" figs in
  (* 5 *)
  _ <- getitem cols "duration" duration (filter is_movie (rows frame)) ;;
  movies <- movies_of (rows frame) ;;
  let figs := saveplot "05_movie_duration_hist.png" figs in
  (* 6 *)
  let recent_decades := recent_decades_of movies in
  let figs := saveplot "06_movie_duration_by_decade.png" figs in
  (* 7 *)
  tv <- tv_of (rows frame) ;;
  let figs :=
    if (0 <? List.length (filter notna (map seasons tv)))%nat
    then saveplot "07_tv_seasons_hist.png" figs else figs in
  (* insights *)
  ins1 <- insight_type type_counts ;;
  let ins2 := insight_countries top_countries in
  ins3 <- insight_growth (year_added_float frame) year_counts ;;
  let ins4 := insight_duration movies in
  let ins := ins1 ++ ins2 ++ ins3 ++ ins4 in
  Ok {| df := frame;
        type_counts := type_counts;
        top_countries := top_countries;
        year_counts := year_counts;
        top_genres := top_genres;
        movies := movies;
        recent_decades := recent_decades;
        tv := tv;
        figures := figs;
        ins := ins;
        insights_txt := insights_text ins |}.

(** ** The charts *)

(** What the script asks of seaborn, of the plotting of pandas and of
    matplotlib, one operation per chart.  A call returns or raises; nothing is
    assumed of it but what pandas does on an empty Series, whose horizontal bar
    chart reads the position of a first bar that is not there. *)
Class Plotting : Type := {
  (** lines 40 to 46: [sns.barplot] and the count written over each bar *)
  barplot : Series string -> result unit;
  (** lines 60 to 63 and 88 to 91: [series.plot(kind="barh")] *)
  barh : Series string -> result unit;
  (** lines 72 to 75: [series.plot(kind="line", marker="o")] *)
  line : Series Z -> result unit;
  (** lines 99 to 101 and 122 to 124: [series.dropna().plot(kind="hist")] *)
  hist : list float -> nat -> result unit;
  (** lines 108 to 115: [sns.boxplot] of the minutes by decade *)
  boxplot : list (option Z * option float) -> result unit;
  (** lines 33 to 36: [tight_layout], [savefig] and [close] *)
  savefig : string -> result unit;
  barh_empty :
    barh [] = Raise (IndexError "index 0 is out of bounds for axis 0 with size 0")
}.

(** [saveplot(path)], with the file written. *)
Definition saved `{Plotting} (path : string) (figs : list string)
  : result (list string) :=
  _ <- savefig path ;; Ok (saveplot path figs).

(** The script from line 18 on, charts included. *)
Definition script `{DateParser} `{ValueSort} `{Plotting} (raw : RawFrame)
  : result Output :=
  frame <- load raw ;;
  let cols := columns frame in
  (* 1 *)
  types <- getitem cols "type" type (rows frame) ;;
  let type_counts := type_counts_of types in
  _ <- barplot type_counts ;;
  figs <- saved "01_movies_vs_tv.png" [] ;;
  (* 2 *)
  countries <- getitem cols "country" country (rows frame) ;;
  let top_countries := top_countries_of countries in
  _ <- barh top_countries ;;
  figs <- saved "02_top_countries.png" figs ;;
  (* 3 *)
  _ <- groupby_getitem cols "title" ;;
  let year_counts := year_counts_of (rows frame) in
  _ <- line year_counts ;;
  figs <- saved "03_growth_by_year_added.png" figs ;;
  (* 4 *)
  genres <- getitem cols "listed_in" listed_in (rows frame) ;;
  let top_genres := top_genres_of genres in
  _ <- barh top_genres ;;
  figs <- saved "04_top_genres.png" figs ;;
  (* 5 *)
  _ <- getitem cols "duration" duration (filter is_movie (rows frame)) ;;
  movies <- movies_of (rows frame) ;;
  _ <- hist (dropna (map duration_minutes movies)) 30 ;;
  figs <- saved "05_movie_duration_hist.png" figs ;;
  (* 6 *)
  let recent_decades := recent_decades_of movies in
  _ <- boxplot (map (fun m => (decade m, duration_minutes m)) recent_decades) ;;
  figs <- saved "06_movie_duration_by_decade.png" figs ;;
  (* 7 *)
  tv <- tv_of (rows frame) ;;
  figs <- (if (0 <? List.length (filter notna (map seasons tv)))%nat
           then _ <- hist (dropna (map seasons tv)) 15 ;;
                saved "07_tv_seasons_hist.png" figs
           else Ok figs) ;;
  (* insights *)
  ins1 <- insight_type type_counts ;;
  let ins2 := insight_countries top_countries in
  ins3 <- insight_growth (year_added_float frame) year_counts ;;
  let ins4 := insight_duration movies in
  let ins := ins1 ++ ins2 ++ ins3 ++ ins4 in
  Ok {| df := frame;
        type_counts := type_counts;
        top_countries := top_countries;
        year_counts := year_counts;
        top_genres := top_genres;
        movies := movies;
        recent_decades := recent_decades;
        tv := tv;
        figures := figs;
        ins := ins;
        insights_txt := insights_text ins |}.

(** ** Instances to run the script with *)

(** Charts that are drawn whenever there is a first bar to draw. *)
#[export] Instance drawn_charts : Plotting :=
  {| barplot := fun _ => Ok tt;
     barh := fun s =>
       match s with
       | [] => Raise (IndexError "index 0 is out of bounds for axis 0 with size 0")
       | _ => Ok tt
       end;
     line := fun _ => Ok tt;
     hist := fun _ _ => Ok tt;
     boxplot := fun _ => Ok tt;
     savefig := fun _ => Ok tt;
     barh_empty := eq_refl |}.

Fixpoint insert_by_count {K : Type} (x : K * nat) (s : Series K) : Series K :=
  match s with
  | [] => [x]
  | y :: s' => if (snd x <=? snd y)%nat then x :: s else y :: insert_by_count x s'
  end.

(** Insertion sort, which is what numpy runs on short arrays; it is stable. *)
Definition insertion_sort {K : Type} (s : Series K) : Series K :=
  fold_right insert_by_count [] s.

Definition is_leap (y : Z) : bool :=
  ((y mod 4 =? 0) && negb (y mod 100 =? 0) || (y mod 400 =? 0))%Z.

Definition days_in_month (y m : Z) : Z :=
  if (m =? 2)%Z then (if is_leap y then 29 else 28)%Z
  else if ((m =? 4) || (m =? 6) || (m =? 9) || (m =? 11))%Z then 30%Z
  else 31%Z.

(** A parser that reads the dates written [YYYY-MM-DD] and nothing else, in
    the years a nanosecond timestamp covers in full. *)
Definition parse_iso (s : string) : option Timestamp :=
  let y := substring 0 4 s in
  let m := substring 5 2 s in
  let d := substring 8 2 s in
  if (String.length s =? 10)%nat && all_digits y && all_digits m && all_digits d
     && String.eqb (substring 4 1 s) "-" && String.eqb (substring 7 1 s) "-"
     && (1678 <=? decimal_value y)%Z && (decimal_value y <=? 2261)%Z
     && (1 <=? decimal_value m)%Z && (decimal_value m <=? 12)%Z
     && (1 <=? decimal_value d)%Z
     && (decimal_value d <=? days_in_month (decimal_value y) (decimal_value m))%Z
  then Some {| ts_year := decimal_value y;
               ts_month := decimal_value m;
               ts_day := decimal_value d |}
  else None.

#[export] Instance iso_parser : DateParser :=
  {| parse_datetime := fun _ s => parse_iso s |}.

(** ** Sample tables *)

Definition all_columns : list string :=
  ["type"; "title"; "country"; "rating"; "duration"; "listed_in"; "date_added";
   "release_year"].

Definition raw_row (ty ti co du li da : string) (y : Z) : RawRow :=
  {| raw_type := Some ty; raw_title := Some ti; raw_country := Some co;
     raw_rating := None; raw_duration := Some du; raw_listed_in := Some li;
     raw_date_added := Some da; raw_release_year := Some y |}.

(** Two movies and a TV show; the date of the third line is malformed. *)
Definition sample_frame : RawFrame :=
  {| raw_columns := all_columns;
     raw_rows :=
       [raw_row "Movie" "Heat" "United States, India" "90 min"
                "Dramas, Thrillers" "2019-11-01" 1994;
        raw_row "Movie" "Jaws" "United States" "120 min"
                "Thrillers" "2020-01-15" 1975;
        raw_row "TV Show" "Dark" "Germany" "3 Seasons"
                "Dramas" "not a date" 2017] |}.

(** A record without a title, a record that lists the sentinel beside a
    country, and a record with eleven countries. *)
Definition totals_frame : RawFrame :=
  {| raw_columns := all_columns;
     raw_rows :=
       [{| raw_type := Some "Movie"; raw_title := None;
           raw_country := Some "United States, India"; raw_rating := None;
           raw_duration := Some "90 min"; raw_listed_in := Some "Dramas";
           raw_date_added := Some "2020-01-01"; raw_release_year := Some 1994%Z |};
        raw_row "Movie" "Lagaan" "India, Unknown" "120 min" "Dramas"
                "2021-05-05" 2001;
        raw_row "Movie" "Babel"
                "Argentina, Brazil, Canada, Denmark, Egypt, France, Germany, Hungary, Iceland, Japan, Kenya"
                "100 min" "Dramas" "2021-06-06" 2006] |}.

(** Two movies added in two years, neither with a title. *)
Definition untitled_frame : RawFrame :=
  {| raw_columns := all_columns;
     raw_rows :=
       [{| raw_type := Some "Movie"; raw_title := None;
           raw_country := Some "India"; raw_rating := None;
           raw_duration := Some "90 min"; raw_listed_in := Some "Dramas";
           raw_date_added := Some "2019-03-01"; raw_release_year := Some 2001%Z |};
        {| raw_type := Some "Movie"; raw_title := None;
           raw_country := Some "India"; raw_rating := None;
           raw_duration := Some "120 min"; raw_listed_in := Some "Dramas";
           raw_date_added := Some "2020-04-02"; raw_release_year := Some 2003%Z |}] |}.


(** One record whose country and genre fields end with a comma. *)
Definition trailing_comma_frame : RawFrame :=
  {| raw_columns := all_columns;
     raw_rows :=
       [raw_row "Movie" "Lagaan" "India," "224 min" "Dramas," "2021-05-05" 2001] |}.

(** A header and no line. *)
Definition empty_frame : RawFrame :=
  {| raw_columns := all_columns; raw_rows := [] |}.

(** The columns the script reads without asking whether they exist. *)
Definition required (cols : list string) : bool :=
  has_column cols "type" && has_column cols "country" && has_column cols "title"
  && has_column cols "listed_in" && has_column cols "duration".

(** ** Vocabulary of the statements *)

(** [run] is the first maximal run of decimal digits of [s]: nothing before it
    is a digit, it is a non-empty block of digits, and it stops at the end of
    [s] or before a character that is not a digit. *)
Definition ends_run (post : string) : Prop :=
  match post with
  | EmptyString => True
  | String c _ => is_digit c = false
  end.

Definition first_digit_run (s run : string) : Prop :=
  exists pre post : string,
    s = (pre ++ run ++ post)%string /\
    no_digit pre = true /\
    run <> EmptyString /\
    all_digits run = true /\
    ends_run post.

(** The count a Series holds under the label [k]. *)
Definition count_in (s : Series string) (k : string) : nat :=
  fold_right (fun p acc => if String.eqb k (fst p) then snd p + acc else acc) 0 s.

(** What the cleaning and the search make of one cell of [duration]. *)
Definition number_of (s : string) : option float :=
  option_map (fun run => Z2float (decimal_value run)) (search_digits s).

Definition movie_of (r : Row) : Movie :=
  {| movie_row := r;
     duration_minutes := number_of (duration r);
     decade := decade_of (release_year r) |}.

Definition tv_show_of (r : Row) : TvShow :=
  {| tv_row := r; seasons := number_of (duration r) |}.

(** The date a cell of [date_added] is read as under [errors="coerce"]. *)
Definition coerce `{DateParser} (col : list cell) (c : cell) : option Timestamp :=
  match c with
  | Some s => parse_datetime col s
  | None => None
  end.

(** The record the cleaning section makes of one line of the file. *)
Definition cleaned_row `{DateParser} (raw : RawFrame) (r : RawRow) : Row :=
  load_row (raw_columns raw) r
    (if has_column (raw_columns raw) "date_added"
     then coerce (map raw_date_added (raw_rows raw)) (raw_date_added r)
     else None).

Definition six_figures : list string :=
  ["01_movies_vs_tv.png"; "02_top_countries.png"; "03_growth_by_year_added.png";
   "04_top_genres.png"; "05_movie_duration_hist.png";
   "06_movie_duration_by_decade.png"].

(** The observations one field contributes: its trimmed pieces, the sentinel
    left out. *)
Definition tokens_of (field : string) : list string :=
  filter ne_Unknown (map strip (split comma field)).

(** Every record's country field, cleaned, cut at the commas, each piece
    trimmed: one observation per piece. *)
Definition country_tokens (raw : RawFrame) : list string :=
  flat_map (fun r => map strip (split comma (fill_clean (raw_country r))))
           (raw_rows raw).

Definition genre_tokens (raw : RawFrame) : list string :=
  flat_map (fun r => map strip (split comma (fill_clean (raw_listed_in r))))
           (raw_rows raw).

(** [part] as a percentage of [whole], computed the way the script does. *)
Definition percent (part whole : nat) : float :=
  (float_of_nat part / float_of_nat whole * 100)%float.

(** [n] is an integer nearest to [num * 2^e]. *)
Definition nearest (n num e : Z) : Prop :=
  match e with
  | Zneg p => (Z.abs (2 * (n * 2 ^ Zpos p - num)) <= 2 ^ Zpos p)%Z
  | _ => n = (num * 2 ^ e)%Z
  end.

(** The index of a Series increases strictly. *)
Definition by_index (a b : Z * nat) : Prop := (fst a < fst b)%Z.

(** The rows of a year that carry a title. *)
Definition titled_in (y : Z) (rs : list Row) : list Row :=
  filter (fun r => match year_added r with
                   | Some y' => (y' =? y)%Z && notna (title r)
                   | None => false
                   end) rs.

(** What a successful run has computed, field by field. *)
Record run_of {DP : DateParser} {VS : ValueSort} (raw : RawFrame) (out : Output)
  : Prop := mkRun {
  run_load : load raw = Ok (df out);
  run_rows : rows (df out) = map (cleaned_row raw) (raw_rows raw);
  run_type_counts : type_counts out = type_counts_of (map type (rows (df out)));
  run_top_countries :
    top_countries out = top_countries_of (map country (rows (df out)));
  run_year_counts : year_counts out = year_counts_of (rows (df out));
  run_top_genres : top_genres out = top_genres_of (map listed_in (rows (df out)));
  run_movies : movies out = map movie_of (filter is_movie (rows (df out)));
  run_recent_decades : recent_decades out = recent_decades_of (movies out);
  run_tv : tv out = map tv_show_of (filter is_tv_show (rows (df out)));
  run_figures :
    figures out =
    six_figures ++
    (if existsb notna (map seasons (tv out)) then ["07_tv_seasons_hist.png"] else []);
  run_ins :
    exists i1 i3 : list string,
      insight_type (type_counts out) = Ok i1 /\
      insight_growth (year_added_float (df out)) (year_counts out) = Ok i3 /\
      ins out = i1 ++ insight_countries (top_countries out) ++ i3 ++
                insight_duration (movies out);
  run_text : insights_txt out = insights_text (ins out)
}.

(** The columns read without a guard, in the order in which the script
    reaches them (lines 39, 50, 69, 80 and 97). *)
Definition read_order : list string :=
  ["type"; "country"; "title"; "listed_in"; "duration"].

(** The first of them that the header lacks. *)
Definition first_missing (cols : list string) : option string :=
  find (fun c => negb (has_column cols c)) read_order.

(** The key of the [KeyError] raised for a column that is not there. *)
Definition key_of (c : string) : string :=
  if String.eqb c "title" then "Column not found: title" else c.

(** Calls made one after the other: the first that raises stops the rest. *)
Definition in_turn (calls : list (result unit)) : result unit :=
  fold_right (fun call rest => _ <- call ;; rest) (Ok tt) calls.

(** The plotting calls of a run, in the order of the script, on the data the
    run computes. *)
Definition charts `{Plotting} (out : Output) : list (result unit) :=
  [barplot (type_counts out); savefig "01_movies_vs_tv.png";
   barh (top_countries out); savefig "02_top_countries.png";
   line (year_counts out); savefig "03_growth_by_year_added.png";
   barh (top_genres out); savefig "04_top_genres.png";
   hist (dropna (map duration_minutes (movies out))) 30;
   savefig "05_movie_duration_hist.png";
   boxplot (map (fun m => (decade m, duration_minutes m)) (recent_decades out));
   savefig "06_movie_duration_by_decade.png"] ++
  (if (0 <? List.length (filter notna (map seasons (tv out))))%nat
   then [hist (dropna (map seasons (tv out))) 15;
         savefig "07_tv_seasons_hist.png"]
   else []).

(** The plotting calls made before the column [c] is read. *)
Definition charts_before `{DateParser} `{ValueSort} `{Plotting}
    (raw : RawFrame) (c : string) : list (result unit) :=
  let rs := map (cleaned_row raw) (raw_rows raw) in
  let chart1 := [barplot (type_counts_of (map type rs));
                 savefig "01_movies_vs_tv.png"] in
  let chart2 := [barh (top_countries_of (map country rs));
                 savefig "02_top_countries.png"] in
  let chart3 := [line (year_counts_of rs);
                 savefig "03_growth_by_year_added.png"] in
  let chart4 := [barh (top_genres_of (map listed_in rs));
                 savefig "04_top_genres.png"] in
  if String.eqb c "type" then []
  else if String.eqb c "country" then chart1
  else if String.eqb c "title" then chart1 ++ chart2
  else if String.eqb c "listed_in" then chart1 ++ chart2 ++ chart3
  else chart1 ++ chart2 ++ chart3 ++ chart4.

Fixpoint all_space (s : string) : bool :=
  match s with
  | EmptyString => true
  | String c s' => is_space c && all_space s'
  end.

(** A string that does not begin, or does not end, with white space. *)
Definition starts_clean (s : string) : Prop :=
  match s with
  | EmptyString => True
  | String c _ => is_space c = false
  end.

Fixpoint ends_clean (s : string) : Prop :=
  match s with
  | EmptyString => True
  | String c EmptyString => is_space c = false
  | String _ s' => ends_clean s'
  end.

(** [v] is what the cleaning makes of the cell [c]: the sentinel for a missing
    cell, and otherwise the text without the white space around it. *)
Definition cleaned_from (c : cell) (v : string) : Prop :=
  (c = None -> v = "Unknown") /\
  (forall text : string, c = Some text ->
     exists pre post : string,
       text = (pre ++ v ++ post)%string /\
       all_space pre = true /\ all_space post = true) /\
  starts_clean v /\ ends_clean v.

(** The record [r] with another cell in the column [rating]. *)
Definition with_rating (c : cell) (r : RawRow) : RawRow :=
  {| raw_type := raw_type r;
     raw_title := raw_title r;
     raw_country := raw_country r;
     raw_rating := c;
     raw_duration := raw_duration r;
     raw_listed_in := raw_listed_in r;
     raw_date_added := raw_date_added r;
     raw_release_year := raw_release_year r |}.

(** A cleaned record without its rating. *)
Definition sans_rating (row : Row) : Row :=
  {| type := type row;
     title := title row;
     country := country row;
     rating := "";
     duration := duration row;
     listed_in := listed_in row;
     date_added := date_added row;
     year_added := year_added row;
     release_year := release_year row |}.

(** What a run computes and writes, the cleaned table apart: the five tables,
    the derived columns, the names of the files and the sentences. *)
Definition findings (out : Output) :=
  (type_counts out, top_countries out, year_counts out, top_genres out,
   map duration_minutes (movies out), map decade (movies out),
   map duration_minutes (recent_decades out), map decade (recent_decades out),
   map seasons (tv out), figures out, ins out, insights_txt out).

(** The strings of ASCII characters, on which [lower] is [str.lower]. *)
Fixpoint is_ascii (s : string) : bool :=
  match s with
  | EmptyString => true
  | String c s' => (nat_of_ascii c <? 128)%nat && is_ascii s'
  end.

Definition is_upper (c : ascii) : bool :=
  let n := nat_of_ascii c in (65 <=? n)%nat && (n <=? 90)%nat.

Fixpoint count_char (c : ascii) (s : string) : nat :=
  match s with
  | EmptyString => 0
  | String d s' => (if Ascii.eqb d c then 1 else 0) + count_char c s'
  end.

(** The third sentence as the specification words it: the peak year and an
    integer percentage, both written as integers. *)
Definition claimed_growth (peak : Z) (sentence : string) : Prop :=
  exists pct : Z,
    sentence =
    ("Catalog peak additions around " ++ str_of_Z peak ++
     "; latest year is ~" ++ str_of_Z pct ++ "% of peak.")%string.

(** The integer a float holds, when it holds one. *)
Definition exact_integer (x : float) : option Z :=
  match Prim2SF x with
  | S754_zero _ => Some 0%Z
  | S754_finite s m e =>
      let n := if s then Zneg m else Zpos m in
      match e with
      | Zneg p =>
          if (Zpos m mod 2 ^ Zpos p =? 0)%Z then Some (n / 2 ^ Zpos p)%Z
          else None
      | _ => Some (n * 2 ^ e)%Z
      end
  | _ => None
  end.





(** The records whose type is exactly [t]. *)
Definition typed (t : string) (r : Row) : bool :=
  match type r with
  | Some v => if string_dec v t then true else false
  | None => false
  end.

(** A cell that is missing or holds ASCII text: the cells on which the
    digits and the white space of the model are those of Python. *)
Definition cell_ascii (c : cell) : bool :=
  match c with
  | Some text => is_ascii text
  | None => true
  end.

(** [t] is [piece] without the white space around it. *)
Definition trimmed (piece t : string) : Prop :=
  exists pre post : string,
    piece = (pre ++ t ++ post)%string /\
    all_space pre = true /\ all_space post = true /\
    starts_clean t /\ ends_clean t.

(** [pieces] are the parts of [field] between its commas: they hold no comma
    and, joined by commas, they give the field back. *)
Definition cut_at_commas (field : string) (pieces : list string) : Prop :=
  pieces <> [] /\
  Forall (fun piece => count_char comma piece = 0) pieces /\
  String.concat "," pieces = field.

(** [tokens] are the observations a column of comma-separated cells gives:
    each cell cleaned, cut at its commas, each part trimmed, in the order of
    the records and of the parts. *)
Definition tokens_of_column (cells : list cell) (tokens : list string) : Prop :=
  exists (fields : list string) (pieces : list (list string)),
    Forall2 cleaned_from cells fields /\
    Forall2 cut_at_commas fields pieces /\
    Forall2 trimmed (List.concat pieces) tokens.

(** * Properties *)

(** ** The search for the first number *)

Lemma take_drop_digits (s : string) :
  s = (take_digits s ++ drop_digits s)%string.
Proof.
  induction s as [|c s IH]; simpl; [reflexivity|].
  destruct (is_digit c); simpl; [now rewrite <- IH | reflexivity].
Qed.

Lemma take_digits_all (s : string) : all_digits (take_digits s) = true.
Proof.
  induction s as [|c s IH]; simpl; [reflexivity|].
  destruct (is_digit c) eqn:E; simpl; [now rewrite E | reflexivity].
Qed.

Lemma drop_digits_ends (s : string) : ends_run (drop_digits s).
Proof.
  induction s as [|c s IH]; simpl; [exact I|].
  destruct (is_digit c) eqn:E; simpl; assumption.
Qed.

Lemma search_digits_none (s : string) :
  search_digits s = None <-> no_digit s = true.
Proof.
  induction s as [|c s IH]; simpl; [tauto|].
  destruct (is_digit c); simpl; [split; discriminate | exact IH].
Qed.

Lemma search_digits_some (s run : string) :
  search_digits s = Some run -> first_digit_run s run.
Proof.
  induction s as [|c s IH]; simpl; [discriminate|].
  destruct (is_digit c) eqn:E.
  - intros [= <-]. exists EmptyString, (drop_digits s). simpl.
    repeat split.
    + f_equal. apply take_drop_digits.
    + discriminate.
    + rewrite E. apply take_digits_all.
    + apply drop_digits_ends.
  - intros H. destruct (IH H) as (pre & post & -> & Hpre & Hne & Hall & Hend).
    exists (String c pre), post. simpl. rewrite E. auto.
Qed.

(** The description determines the run: two first runs are the same. *)
Lemma first_digit_run_search (s run : string) :
  first_digit_run s run -> search_digits s = Some run.
Proof.
  intros (pre & post & -> & Hpre & Hne & Hall & Hend).
  induction pre as [|c pre IH]; simpl in *.
  - destruct run as [|d run]; [congruence|]. simpl in *.
    apply andb_true_iff in Hall as [Hd Hall]. rewrite Hd. do 2 f_equal.
    clear Hne Hd. induction run as [|e run IHr]; simpl in *.
    + destruct post as [|p post]; simpl in *; [reflexivity | now rewrite Hend].
    + apply andb_true_iff in Hall as [He Hall]. rewrite He. f_equal. auto.
  - apply andb_true_iff in Hpre as [Hc Hpre].
    apply negb_true_iff in Hc. rewrite Hc. auto.
Qed.

Lemma digit_value_nonneg (c : ascii) : (0 <= digit_value c)%Z.
Proof. unfold digit_value. lia. Qed.

Lemma decimal_from_nonneg (s : string) (acc : Z) :
  (0 <= acc)%Z -> (0 <= decimal_from acc s)%Z.
Proof.
  revert acc. induction s as [|c s IH]; intros acc Hacc;
    cbn [decimal_from]; [assumption|].
  apply IH. pose proof (digit_value_nonneg c). lia.
Qed.

Lemma decimal_value_nonneg (s : string) : (0 <= decimal_value s)%Z.
Proof. apply decimal_from_nonneg. lia. Qed.

Lemma float_of_str_digits (run : string) :
  run <> EmptyString -> all_digits run = true ->
  float_of_str run = Ok (Z2float (decimal_value run)).
Proof.
  intros Hne Hall. destruct run as [|c run]; [congruence|].
  unfold float_of_str. now rewrite Hall.
Qed.

(** The conversion to float never fails on what the search returns. *)
Lemma extract_number_eq (s : string) :
  extract_number s =
  Ok (option_map (fun run => Z2float (decimal_value run)) (search_digits s)).
Proof.
  unfold extract_number. destruct (search_digits s) as [run|] eqn:E; [|reflexivity].
  destruct (search_digits_some _ _ E) as (pre & post & _ & _ & Hne & Hall & _).
  now rewrite float_of_str_digits.
Qed.

(** ** Sorting by count *)

Lemma insert_by_count_perm {K : Type} (x : K * nat) (s : Series K) :
  Permutation (x :: s) (insert_by_count x s).
Proof.
  induction s as [|y s IH]; simpl; [reflexivity|].
  destruct (snd x <=? snd y)%nat; [reflexivity|].
  rewrite perm_swap. now apply perm_skip.
Qed.

Lemma insert_by_count_sorted {K : Type} (x : K * nat) (s : Series K) :
  StronglySorted by_count s -> StronglySorted by_count (insert_by_count x s).
Proof.
  induction 1 as [|y s Hs IH Hy]; simpl.
  - repeat constructor.
  - destruct (snd x <=? snd y)%nat eqn:E.
    + apply Nat.leb_le in E. constructor; [now constructor|].
      constructor; [exact E|].
      eapply Forall_impl; [|exact Hy]. unfold by_count. intros; lia.
    + apply Nat.leb_gt in E. constructor; [exact IH|].
      eapply Permutation_Forall; [apply insert_by_count_perm|].
      constructor; [unfold by_count; lia | exact Hy].
Qed.

Lemma insertion_sort_perm (K : Type) (s : Series K) :
  Permutation s (insertion_sort s).
Proof.
  induction s as [|x s IH]; simpl; [reflexivity|].
  rewrite <- insert_by_count_perm. now apply perm_skip.
Qed.

Lemma insertion_sort_sorted (K : Type) (s : Series K) :
  StronglySorted by_count (insertion_sort s).
Proof.
  induction s as [|x s IH]; simpl; [constructor|].
  now apply insert_by_count_sorted.
Qed.

#[export] Instance stable_sort : ValueSort :=
  {| argsort := @insertion_sort;
     argsort_perm := insertion_sort_perm;
     argsort_sorted := insertion_sort_sorted |}.

Lemma StronglySorted_snoc {A : Type} (R : A -> A -> Prop) (l : list A) (x : A) :
  StronglySorted R l -> Forall (fun z => R z x) l -> StronglySorted R (l ++ [x]).
Proof.
  induction 1 as [|y l Hl IH Hy]; intros Hx; simpl.
  - repeat constructor.
  - inversion Hx as [|? ? Hyx Hlx]; subst.
    constructor; [now apply IH|].
    apply Forall_app. split; [exact Hy | now repeat constructor].
Qed.

Lemma StronglySorted_rev {A : Type} (R : A -> A -> Prop) (l : list A) :
  StronglySorted R l -> StronglySorted (fun a b => R b a) (rev l).
Proof.
  induction 1 as [|x l Hl IH Hx]; simpl; [constructor|].
  apply StronglySorted_snoc; [exact IH|].
  apply Forall_forall. intros z Hz. apply in_rev in Hz.
  rewrite Forall_forall in Hx. now apply Hx.
Qed.

Section SortValues.

Context {VS : ValueSort}.
Context {K : Type}.

Lemma sort_values_perm (ascending : bool) (s : Series K) :
  Permutation s (sort_values ascending s).
Proof.
  unfold sort_values. destruct ascending; [apply argsort_perm|].
  rewrite <- Permutation_rev, <- argsort_perm. apply Permutation_rev.
Qed.

Lemma sort_values_In (ascending : bool) (s : Series K) (x : K * nat) :
  In x (sort_values ascending s) <-> In x s.
Proof.
  split; apply Permutation_in;
    [symmetry|]; apply sort_values_perm.
Qed.

Lemma sort_values_length (ascending : bool) (s : Series K) :
  List.length (sort_values ascending s) = List.length s.
Proof. symmetry. apply Permutation_length, sort_values_perm. Qed.

Lemma sort_values_ascending (s : Series K) :
  StronglySorted by_count (sort_values true s).
Proof. apply argsort_sorted. Qed.

Lemma sort_values_descending (s : Series K) :
  StronglySorted (fun a b => by_count b a) (sort_values false s).
Proof. apply StronglySorted_rev, argsort_sorted. Qed.

Lemma sort_values_nil (ascending : bool) (s : Series K) :
  sort_values ascending s = [] <-> s = [].
Proof.
  split; intros E.
  - apply Permutation_nil. rewrite <- E. symmetry. apply sort_values_perm.
  - subst. apply Permutation_nil. apply sort_values_perm.
Qed.

End SortValues.

Lemma series_sum_perm {K : Type} (s t : Series K) :
  Permutation s t -> series_sum s = series_sum t.
Proof.
  unfold series_sum. induction 1; simpl; lia.
Qed.

Lemma series_sum_app {K : Type} (s t : Series K) :
  series_sum (s ++ t) = series_sum s + series_sum t.
Proof.
  unfold series_sum. induction s as [|x s IH]; simpl; [reflexivity|].
  rewrite IH. lia.
Qed.

Lemma series_sum_head {K : Type} (n : nat) (s : Series K) :
  series_sum (head n s) <= series_sum s.
Proof.
  unfold head. rewrite <- (firstn_skipn n s) at 2.
  rewrite series_sum_app. lia.
Qed.

Lemma head_all {A : Type} (n : nat) (l : list A) :
  List.length l <= n -> head n l = l.
Proof. apply firstn_all2. Qed.

(** In a sorted list the first [n] entries dominate the others. *)
Lemma sorted_head_tail {A : Type} (R : A -> A -> Prop) (n : nat) (l : list A) :
  StronglySorted R l ->
  forall x y : A, In x (firstn n l) -> In y (skipn n l) -> R x y.
Proof.
  intros Hl. revert n. induction Hl as [|a l Hl IH Ha]; intros n x y Hx Hy.
  - destruct n; contradiction.
  - destruct n as [|n]; simpl in *; [contradiction|].
    destruct Hx as [<-|Hx].
    + rewrite Forall_forall in Ha. apply Ha.
      rewrite <- (firstn_skipn n l). apply in_or_app. now right.
    + now apply (IH n).
Qed.

(** ** Counting occurrences *)

Lemma bump_sum (k : string) (s : Series string) :
  series_sum (bump k s) = S (series_sum s).
Proof.
  unfold series_sum. induction s as [|[k' n] s IH]; simpl; [reflexivity|].
  destruct (String.eqb k k'); simpl; [reflexivity | rewrite IH; lia].
Qed.

Lemma bump_count_in (k k' : string) (s : Series string) :
  count_in (bump k s) k' = count_in s k' + (if String.eqb k' k then 1 else 0).
Proof.
  induction s as [|[k0 n] s IH]; simpl.
  - destruct (String.eqb k' k); reflexivity.
  - destruct (String.eqb k k0) eqn:E; simpl.
    + apply String.eqb_eq in E. subst k0.
      destruct (String.eqb k' k); lia.
    + rewrite IH. destruct (String.eqb k' k0); lia.
Qed.

Lemma bump_keys (k k' : string) (s : Series string) :
  In k' (map fst (bump k s)) <-> k' = k \/ In k' (map fst s).
Proof.
  induction s as [|[k0 n] s IH]; simpl; [intuition|].
  destruct (String.eqb k k0) eqn:E; simpl.
  - apply String.eqb_eq in E. subst. intuition.
  - rewrite IH. intuition.
Qed.

Lemma bump_NoDup (k : string) (s : Series string) :
  NoDup (map fst s) -> NoDup (map fst (bump k s)).
Proof.
  induction s as [|[k0 n] s IH]; simpl; intros H.
  - repeat constructor. intros [].
  - inversion H as [|? ? Hn Hs]; subst.
    destruct (String.eqb k k0) eqn:E; simpl; [now constructor|].
    constructor; [|now apply IH].
    rewrite bump_keys. intros [->|Hin]; [|contradiction].
    now rewrite String.eqb_refl in E.
Qed.

Lemma bump_positive (k : string) (s : Series string) :
  Forall (fun p => 0 < snd p) s -> Forall (fun p => 0 < snd p) (bump k s).
Proof.
  induction 1 as [|[k0 n] s Hp Hs IH]; simpl.
  - repeat constructor.
  - destruct (String.eqb k k0); constructor; simpl in *; auto; lia.
Qed.

Lemma count_in_absent (s : Series string) (k : string) :
  ~ In k (map fst s) -> count_in s k = 0.
Proof.
  induction s as [|[k0 n] s IH]; simpl; intros H; [reflexivity|].
  destruct (String.eqb k k0) eqn:E.
  - apply String.eqb_eq in E. subst. tauto.
  - apply IH. tauto.
Qed.

Lemma count_in_In (s : Series string) (k : string) (n : nat) :
  NoDup (map fst s) -> In (k, n) s -> count_in s k = n.
Proof.
  induction s as [|[k0 m] s IH]; simpl; intros Hnd Hin; [contradiction|].
  inversion Hnd as [|? ? Hk0 Hs]; subst.
  destruct Hin as [[= -> ->]|Hin].
  - rewrite String.eqb_refl, count_in_absent; [lia | assumption].
  - destruct (String.eqb k k0) eqn:E; [|now apply IH].
    apply String.eqb_eq in E. subst k0. exfalso. apply Hk0.
    change k with (fst (k, n)). now apply in_map.
Qed.

Lemma fold_bump_sum (l : list string) (acc : Series string) :
  series_sum (fold_left (fun a k => bump k a) l acc) = series_sum acc + List.length l.
Proof.
  revert acc. induction l as [|k l IH]; intros acc; simpl; [lia|].
  rewrite IH. rewrite bump_sum. lia.
Qed.

Lemma fold_bump_count_in (l : list string) (acc : Series string) (k : string) :
  count_in (fold_left (fun a k => bump k a) l acc) k = count_in acc k + count_occ string_dec l k.
Proof.
  revert acc. induction l as [|k0 l IH]; intros acc; simpl; [lia|].
  rewrite IH. rewrite bump_count_in.
  destruct (string_dec k0 k) as [->|Hne].
  - rewrite String.eqb_refl. lia.
  - assert (E : String.eqb k k0 = false) by (apply String.eqb_neq; congruence).
    rewrite E. lia.
Qed.

Lemma fold_bump_keys (l : list string) (acc : Series string) (k : string) :
  In k (map fst (fold_left (fun a k => bump k a) l acc)) <-> In k (map fst acc) \/ In k l.
Proof.
  revert acc. induction l as [|k0 l IH]; intros acc; simpl; [tauto|].
  rewrite IH. rewrite bump_keys. intuition.
Qed.

Lemma fold_bump_NoDup (l : list string) (acc : Series string) :
  NoDup (map fst acc) -> NoDup (map fst (fold_left (fun a k => bump k a) l acc)).
Proof.
  revert acc. induction l as [|k0 l IH]; intros acc H; simpl; [exact H|].
  apply IH, bump_NoDup, H.
Qed.

Lemma fold_bump_positive (l : list string) (acc : Series string) :
  Forall (fun p => 0 < snd p) acc ->
  Forall (fun p => 0 < snd p) (fold_left (fun a k => bump k a) l acc).
Proof.
  revert acc. induction l as [|k0 l IH]; intros acc H; simpl; [exact H|].
  apply IH, bump_positive, H.
Qed.

Lemma tally_sum (l : list string) : series_sum (tally l) = List.length l.
Proof. unfold tally. now rewrite fold_bump_sum. Qed.

Lemma tally_NoDup (l : list string) : NoDup (map fst (tally l)).
Proof. apply fold_bump_NoDup. constructor. Qed.

Lemma tally_keys (l : list string) (k : string) :
  In k (map fst (tally l)) <-> In k l.
Proof. unfold tally. rewrite fold_bump_keys. simpl. tauto. Qed.

Lemma tally_In (l : list string) (k : string) (n : nat) :
  In (k, n) (tally l) -> n = count_occ string_dec l k /\ In k l.
Proof.
  intros H. split.
  - rewrite <- (count_in_In _ _ _ (tally_NoDup l) H).
    unfold tally. now rewrite fold_bump_count_in.
  - apply tally_keys. change k with (fst (k, n)). now apply in_map.
Qed.

Lemma tally_complete (l : list string) (k : string) :
  In k l -> In (k, count_occ string_dec l k) (tally l).
Proof.
  intros H. apply tally_keys in H. apply in_map_iff in H as ([k' n] & E & Hin).
  simpl in E. subst k'. now destruct (tally_In _ _ _ Hin) as [<- _].
Qed.

Lemma tally_length (l : list string) :
  List.length (tally l) = List.length (nodup string_dec l).
Proof.
  rewrite <- (length_map fst). apply Permutation_length.
  apply NoDup_Permutation; [apply tally_NoDup | apply NoDup_nodup |].
  intros k. rewrite tally_keys, nodup_In. tauto.
Qed.

Lemma tally_nil (l : list string) : tally l = [] <-> l = [].
Proof.
  split; intros E; [|now subst].
  destruct l as [|k l]; [reflexivity|].
  assert (H : In k (map fst (tally (k :: l)))) by (apply tally_keys; now left).
  rewrite E in H. contradiction.
Qed.

(** ** The maximum of a Series *)

Lemma first_max_spec {K : Type} (s : Series K) (best : K * nat) :
  In (first_max best s) (best :: s) /\
  (forall x, In x (best :: s) -> snd x <= snd (first_max best s)) /\
  snd (first_max best s) = Nat.max (snd best) (fold_right Nat.max 0 (map snd s)).
Proof.
  revert best. induction s as [|x s IH]; intros best; simpl.
  - repeat split; [now left | intros ? [<-|[]]; lia | lia].
  - destruct (snd best <? snd x)%nat eqn:E.
    + apply Nat.ltb_lt in E. destruct (IH x) as (Hin & Hmax & Heq).
      repeat split.
      * right. exact Hin.
      * intros y [<-|Hy]; [|now apply Hmax].
        specialize (Hmax x (or_introl eq_refl)). lia.
      * rewrite Heq. lia.
    + apply Nat.ltb_ge in E. destruct (IH best) as (Hin & Hmax & Heq).
      repeat split.
      * destruct Hin as [Hin|Hin]; [now left | now right; right].
      * intros y [<-|[<-|Hy]].
        -- apply Hmax. now left.
        -- specialize (Hmax best (or_introl eq_refl)). lia.
        -- apply Hmax. now right.
      * rewrite Heq. lia.
Qed.

(** On a Series that is not empty [idxmax] returns a label that holds the
    greatest count, and [max] is that count. *)
Lemma idxmax_spec {K : Type} (s : Series K) :
  s <> [] ->
  exists (k : K) (n : nat),
    idxmax s = Ok k /\ In (k, n) s /\
    (forall x, In x s -> snd x <= n) /\
    series_max s = float_of_nat n.
Proof.
  destruct s as [|x s]; [congruence|]. intros _.
  destruct (first_max_spec s x) as (Hin & Hmax & Heq).
  exists (fst (first_max x s)), (snd (first_max x s)).
  repeat split.
  - now rewrite <- surjective_pairing.
  - exact Hmax.
  - unfold series_max, float_of_nat. simpl map. simpl fold_right.
    now rewrite Heq.
Qed.

(** The label is the first one that holds the maximum. *)
Lemma first_max_split {K : Type} (s : Series K) (best : K * nat) :
  exists l1 l2 : Series K,
    best :: s = l1 ++ first_max best s :: l2 /\
    (forall x, In x l1 -> snd x < snd (first_max best s)) /\
    (forall x, In x l2 -> snd x <= snd (first_max best s)).
Proof.
  revert best. induction s as [|x s IH]; intros best.
  - exists [], []. simpl. repeat split; intros ? [].
  - simpl. destruct (snd best <? snd x)%nat eqn:E.
    + apply Nat.ltb_lt in E. destruct (IH x) as (l1 & l2 & Hs & H1 & H2).
      exists (best :: l1), l2. simpl. rewrite Hs. split; [reflexivity|].
      split; [|exact H2]. intros y [<-|Hy]; [|now apply H1].
      destruct (first_max_spec s x) as (_ & Hmax & _).
      specialize (Hmax x (or_introl eq_refl)). lia.
    + apply Nat.ltb_ge in E. destruct (IH best) as (l1 & l2 & Hs & H1 & H2).
      destruct l1 as [|b l1]; simpl in Hs.
      * injection Hs as Hb Hl. exists [], (x :: l2). simpl.
        rewrite <- Hb, Hl. split; [reflexivity|]. split; [intros ? []|].
        intros y [<-|Hy]; [exact E|].
        rewrite <- Hb in H2. now apply H2.
      * injection Hs as Hb Hl. subst b. exists (best :: x :: l1), l2. simpl.
        split; [do 2 f_equal; exact Hl|]. split; [|exact H2].
        pose proof (H1 best (or_introl eq_refl)) as Hbest.
        intros y [<-|[<-|Hy]]; [exact Hbest | lia | apply H1; now right].
Qed.

Lemma idxmax_first {K : Type} (s : Series K) (k : K) :
  idxmax s = Ok k ->
  exists (l1 : Series K) (n : nat) (l2 : Series K),
    s = l1 ++ (k, n) :: l2 /\
    (forall x, In x l1 -> snd x < n) /\
    (forall x, In x l2 -> snd x <= n).
Proof.
  destruct s as [|x s]; [discriminate|]. simpl. intros [= <-].
  destruct (first_max_split s x) as (l1 & l2 & Hs & H1 & H2).
  exists l1, (snd (first_max x s)), l2.
  now rewrite <- surjective_pairing.
Qed.

Lemma iloc_last_spec {K : Type} (s : Series K) :
  s <> [] ->
  exists (front : Series K) (x : K * nat),
    s = front ++ [x] /\ iloc_last s = Ok (snd x).
Proof.
  intros Hne. destruct (exists_last Hne) as (front & x & ->).
  exists front, x. split; [reflexivity|].
  unfold iloc_last. now rewrite rev_app_distr.
Qed.

(** ** Monadic maps that cannot fail *)

Lemma mapM_ok {A B : Type} (f : A -> result B) (g : A -> B) (l : list A) :
  (forall a, f a = Ok (g a)) -> mapM f l = Ok (map g l).
Proof.
  intros H. induction l as [|a l IH]; simpl; [reflexivity|].
  now rewrite H, IH.
Qed.

Lemma movies_of_eq (rs : list Row) :
  movies_of rs = Ok (map movie_of (filter is_movie rs)).
Proof.
  apply mapM_ok. intros r. now rewrite extract_number_eq.
Qed.

Lemma tv_of_eq (rs : list Row) :
  tv_of rs = Ok (map tv_show_of (filter is_tv_show rs)).
Proof.
  apply mapM_ok. intros r. now rewrite extract_number_eq.
Qed.

Lemma to_datetime_coerce {DP : DateParser} (col : list cell) :
  to_datetime errors_coerce col = Ok (map (coerce col) col).
Proof.
  apply mapM_ok. intros [s|]; simpl; [|reflexivity].
  now destruct (parse_datetime col s).
Qed.

Lemma combine_map_r {A B : Type} (f : A -> B) (l : list A) :
  combine l (map f l) = map (fun a => (a, f a)) l.
Proof. induction l as [|a l IH]; simpl; [reflexivity | now rewrite IH]. Qed.

Lemma load_rows {DP : DateParser} (raw : RawFrame) :
  exists frame : DataFrame,
    load raw = Ok frame /\
    rows frame = map (cleaned_row raw) (raw_rows raw) /\
    (forall c, has_column (raw_columns raw) c = true ->
               has_column (columns frame) c = true).
Proof.
  unfold load.
  destruct (has_column (raw_columns raw) "date_added") eqn:E.
  - rewrite to_datetime_coerce. cbn [bind]. eexists. split; [reflexivity|].
    split.
    + cbn [rows]. rewrite map_map, combine_map_r, map_map.
      apply map_ext. intros r. unfold cleaned_row. now rewrite E.
    + intros c Hc. cbn [columns]. unfold has_column in *.
      rewrite existsb_app, Hc. reflexivity.
  - cbn [bind]. eexists. split; [reflexivity|]. split.
    + cbn [rows]. rewrite combine_map_r, map_map.
      apply map_ext. intros r. unfold cleaned_row. now rewrite E.
    + intros c Hc. cbn [columns]. unfold has_column in *.
      rewrite existsb_app, Hc. reflexivity.
Qed.

(** ** One run of the script *)

Lemma insight_type_ok (tc : Series string) :
  exists i1 : list string, insight_type tc = Ok i1.
Proof.
  destruct tc as [|x tc]; [now exists []|].
  destruct (idxmax_spec (x :: tc)) as (k & n & Hk & _); [discriminate|].
  unfold insight_type. rewrite Hk. cbn [bind]. eauto.
Qed.

Lemma insight_growth_ok (is_float : bool) (yc : Series Z) :
  exists i3 : list string, insight_growth is_float yc = Ok i3.
Proof.
  unfold insight_growth. destruct (1 <? List.length yc)%nat eqn:E; [|now exists []].
  assert (Hne : yc <> []) by (intros ->; discriminate).
  destruct (iloc_last_spec yc Hne) as (front & x & _ & Hlast).
  destruct (idxmax_spec yc Hne) as (k & n & Hk & _).
  rewrite Hlast, Hk. cbn [bind]. eauto.
Qed.

Lemma filter_notna_positive {A : Type} (l : list (option A)) :
  (0 <? List.length (filter notna l))%nat = existsb notna l.
Proof.
  induction l as [|[a|] l IH]; simpl; auto.
Qed.

(** With the five columns it reads in place, the script runs to its end. *)
Lemma main_runs {DP : DateParser} {VS : ValueSort} (raw : RawFrame) :
  required (raw_columns raw) = true ->
  exists out : Output, main raw = Ok out /\ run_of raw out.
Proof.
  unfold required. rewrite !andb_true_iff.
  intros ((((Htype & Hcountry) & Htitle) & Hlisted) & Hduration).
  destruct (load_rows raw) as (frame & Hload & Hrows & Hcols).
  unfold main. rewrite Hload. cbn [bind]. unfold getitem, groupby_getitem.
  rewrite (Hcols _ Htype), (Hcols _ Hcountry), (Hcols _ Htitle),
    (Hcols _ Hlisted), (Hcols _ Hduration).
  cbn [bind]. rewrite movies_of_eq, tv_of_eq. cbn [bind].
  destruct (insight_type_ok (type_counts_of (map type (rows frame)))) as [i1 H1].
  destruct (insight_growth_ok (year_added_float frame)
              (year_counts_of (rows frame))) as [i3 H3].
  rewrite H1, H3. cbn [bind].
  eexists. split; [reflexivity|].
  constructor; cbn [df type_counts top_countries year_counts top_genres movies
                    recent_decades tv figures ins insights_txt];
    try reflexivity; try assumption.
  - rewrite filter_notna_positive.
    destruct (existsb notna _); reflexivity.
  - exists i1, i3. auto.
Qed.

(** Without one of them it stops on a [KeyError]. *)
Lemma main_key_error {DP : DateParser} {VS : ValueSort} (raw : RawFrame) :
  has_column (raw_columns raw) "type" = false ->
  main raw = Raise (KeyError "type").
Proof.
  intros Htype. destruct (load_rows raw) as (frame & Hload & _ & _).
  unfold main. rewrite Hload. cbn [bind]. unfold getitem, groupby_getitem.
  unfold load in Hload.
  destruct (if has_column (raw_columns raw) "date_added" then _ else _);
    [|discriminate].
  cbn [bind] in Hload. injection Hload as <-. cbn [columns].
  unfold has_column in *. rewrite existsb_app, Htype.
  destruct (existsb (String.eqb "release_year") (raw_columns raw)); reflexivity.
Qed.

Lemma Forall2_map_r {A B : Type} (P : A -> B -> Prop) (f : A -> B) (l : list A) :
  (forall a, In a l -> P a (f a)) -> Forall2 P l (map f l).
Proof.
  induction l as [|a l IH]; simpl; intros H; constructor; auto.
Qed.

(** ** Columns and cells *)

Lemma required_columns (cols : list string) :
  required cols = true ->
  has_column cols "type" = true /\ has_column cols "country" = true /\
  has_column cols "title" = true /\ has_column cols "listed_in" = true /\
  has_column cols "duration" = true.
Proof. unfold required. rewrite !andb_true_iff. tauto. Qed.

Lemma number_of_notna (s : string) : notna (number_of s) = negb (no_digit s).
Proof.
  unfold number_of. destruct (search_digits s) as [run|] eqn:E; simpl.
  - destruct (no_digit s) eqn:N; [|reflexivity].
    apply search_digits_none in N. congruence.
  - apply search_digits_none in E. now rewrite E.
Qed.

Lemma eq_str_true (c : cell) (v : string) : eq_str c v = true <-> c = Some v.
Proof.
  destruct c as [s|]; simpl; [|split; discriminate].
  rewrite String.eqb_eq. split; congruence.
Qed.

(** ** Movies and decades *)


Lemma type_counts_In {VS : ValueSort} (types : list cell) (x : string * nat) :
  In x (type_counts_of types) <-> In x (tally (dropna types)).
Proof.
  unfold type_counts_of, value_counts. now rewrite !sort_values_In.
Qed.






(** ** The sentence about the dominant type *)

Lemma cleaned_types {DP : DateParser} (raw : RawFrame) :
  map type (map (cleaned_row raw) (raw_rows raw)) = map raw_type (raw_rows raw).
Proof. rewrite map_map. now apply map_ext. Qed.

Lemma type_counts_sum {VS : ValueSort} (types : list cell) :
  series_sum (type_counts_of types) = List.length (dropna types).
Proof.
  unfold type_counts_of, value_counts.
  rewrite <- !(series_sum_perm _ _ (sort_values_perm false _)).
  apply tally_sum.
Qed.

Lemma type_counts_nil {VS : ValueSort} (types : list cell) :
  type_counts_of types = [] <-> dropna types = [].
Proof.
  unfold type_counts_of, value_counts. now rewrite !sort_values_nil, tally_nil.
Qed.

Lemma count_occ_two (l : list string) (a b : string) :
  a <> b ->
  count_occ string_dec l a + count_occ string_dec l b <= List.length l.
Proof.
  intros Hab. induction l as [|x l IH]; simpl; [lia|].
  destruct (string_dec x a), (string_dec x b); subst; try congruence; lia.
Qed.

(** The sentence about the dominant type, computed from the type column. *)
Lemma insight_type_sentence {VS : ValueSort} (types : list cell) :
  dropna types <> [] ->
  exists dominant : string,
    In dominant (dropna types) /\
    (forall t : string,
        count_occ string_dec (dropna types) t <=
        count_occ string_dec (dropna types) dominant) /\
    insight_type (type_counts_of types) =
    Ok [(dominant ++ " lead with ~" ++
         format_float 1
           (percent (count_occ string_dec (dropna types) dominant)
                    (List.length (dropna types))) ++
         "% of total titles.")%string].
Proof.
  intros Hne.
  assert (Htc : type_counts_of types <> []) by now rewrite type_counts_nil.
  destruct (idxmax_spec _ Htc) as (k & n & Hk & Hin & Hmax & Hsm).
  apply type_counts_In in Hin as Hin'. apply tally_In in Hin' as [-> Hkin].
  exists k. split; [exact Hkin|]. split.
  - intros t. destruct (in_dec string_dec t (dropna types)) as [Ht|Ht].
    + apply tally_complete in Ht. apply type_counts_In in Ht.
      exact (Hmax _ Ht).
    + apply (count_occ_not_In string_dec) in Ht. rewrite Ht. lia.
  - unfold insight_type. destruct (type_counts_of types) as [|x tc] eqn:E;
      [congruence|].
    rewrite Hk. cbn [bind]. rewrite Hsm. rewrite <- E, type_counts_sum.
    reflexivity.
Qed.

(** ** Titles per year *)

Lemma insert_key_In (y k : Z) (keys : list Z) :
  In k (insert_key y keys) <-> k = y \/ In k keys.
Proof.
  induction keys as [|k0 keys IH]; simpl; [intuition|].
  destruct (y <? k0)%Z eqn:E1; [simpl; intuition|].
  destruct (y =? k0)%Z eqn:E2.
  - apply Z.eqb_eq in E2. subst. simpl. intuition.
  - simpl. rewrite IH. intuition.
Qed.

Lemma insert_key_sorted (y : Z) (keys : list Z) :
  StronglySorted Z.lt keys -> StronglySorted Z.lt (insert_key y keys).
Proof.
  induction 1 as [|k0 keys Hs IH Hk]; simpl; [repeat constructor|].
  destruct (y <? k0)%Z eqn:E1.
  - apply Z.ltb_lt in E1. constructor; [now constructor|].
    constructor; [exact E1|]. eapply Forall_impl; [|exact Hk]. intros; lia.
  - destruct (y =? k0)%Z eqn:E2; [now constructor|].
    apply Z.ltb_ge in E1. apply Z.eqb_neq in E2.
    constructor; [exact IH|]. apply Forall_forall. intros k Hin.
    apply insert_key_In in Hin as [->|Hin]; [lia|].
    rewrite Forall_forall in Hk. now apply Hk.
Qed.

Lemma group_keys_In (ys : list Z) (k : Z) : In k (group_keys ys) <-> In k ys.
Proof.
  induction ys as [|y ys IH]; simpl; [tauto|].
  rewrite insert_key_In, IH. intuition.
Qed.

Lemma group_keys_sorted (ys : list Z) : StronglySorted Z.lt (group_keys ys).
Proof.
  induction ys as [|y ys IH]; simpl; [constructor | now apply insert_key_sorted].
Qed.

Lemma insert_by_index_last (x : Z * nat) (s : Series Z) :
  Forall (fun y => by_index y x) s -> insert_by_index x s = s ++ [x].
Proof.
  induction 1 as [|y s Hy Hs IH]; simpl; [reflexivity|].
  unfold by_index in Hy. destruct (fst x <? fst y)%Z eqn:E.
  - apply Z.ltb_lt in E. lia.
  - now rewrite IH.
Qed.

Lemma sorted_app_last {A : Type} (R : A -> A -> Prop) (l : list A) (x : A) :
  StronglySorted R (l ++ [x]) -> StronglySorted R l /\ Forall (fun y => R y x) l.
Proof.
  induction l as [|a l IH]; simpl; intros H; [split; constructor|].
  inversion H as [|? ? Hs Ha]; subst. destruct (IH Hs) as [Hl Hx].
  apply Forall_app in Ha as [Ha Hax]. inversion Hax; subst.
  split; constructor; assumption.
Qed.

(** Sorting by index leaves a Series alone whose index is increasing. *)
Lemma sort_index_sorted (s : Series Z) :
  StronglySorted by_index s -> sort_index s = s.
Proof.
  unfold sort_index. induction s as [|x s IH] using rev_ind; [reflexivity|].
  intros H. apply sorted_app_last in H as [Hs Hx].
  rewrite rev_app_distr. simpl. rewrite (IH Hs).
  now apply insert_by_index_last.
Qed.

Lemma groupby_count_sorted (obs : list (Z * cell)) :
  StronglySorted by_index (groupby_count obs).
Proof.
  unfold groupby_count.
  induction (group_keys_sorted (map fst obs)) as [|k keys Hs IH Hk]; simpl;
    constructor; [exact IH|].
  apply Forall_forall. intros x Hx. apply in_map_iff in Hx as (k' & <- & Hk').
  unfold by_index. simpl. rewrite Forall_forall in Hk. now apply Hk.
Qed.

Lemma year_counts_eq (rs : list Row) :
  year_counts_of rs = groupby_count (dated rs).
Proof. apply sort_index_sorted, groupby_count_sorted. Qed.

Lemma dated_group (y : Z) (rs : list Row) :
  List.length (filter (in_group y) (dated rs)) = List.length (titled_in y rs).
Proof.
  induction rs as [|r rs IH]; simpl; [reflexivity|].
  destruct (year_added r) as [y'|]; simpl; [|exact IH].
  unfold in_group at 1. simpl.
  destruct ((y' =? y)%Z && notna (title r)); simpl; now rewrite IH.
Qed.

Lemma dated_keys (y : Z) (rs : list Row) :
  In y (map fst (dated rs)) <-> exists r, In r rs /\ year_added r = Some y.
Proof.
  induction rs as [|r rs IH]; simpl.
  - split; [tauto | intros (r & [] & _)].
  - destruct (year_added r) as [y'|] eqn:E; simpl; rewrite ?IH; split.
    + intros [->|(r' & Hr' & Ey)]; [exists r | exists r']; auto.
    + intros (r' & [->|Hr'] & Ey); [left; congruence | right; eauto].
    + intros (r' & Hr' & Ey). eauto.
    + intros (r' & [->|Hr'] & Ey); [congruence | eauto].
Qed.

Lemma year_counts_In (rs : list Row) (y : Z) (c : nat) :
  In (y, c) (year_counts_of rs) <->
  (exists r, In r rs /\ year_added r = Some y) /\
  c = List.length (titled_in y rs).
Proof.
  rewrite year_counts_eq. unfold groupby_count. rewrite in_map_iff. split.
  - intros (k & [= -> <-] & Hk). apply group_keys_In, dated_keys in Hk.
    split; [exact Hk | apply dated_group].
  - intros [Hy ->]. exists y. rewrite dated_group. split; [reflexivity|].
    now apply group_keys_In, dated_keys.
Qed.

Lemma series_sum_map {A : Type} (f : A -> nat) (l : list A) :
  series_sum (map (fun a => (a, f a)) l) = list_sum (map f l).
Proof.
  unfold series_sum. induction l as [|a l IH]; simpl; [reflexivity|].
  now rewrite IH.
Qed.

Lemma list_sum_plus {A : Type} (f g : A -> nat) (l : list A) :
  list_sum (map (fun a => f a + g a) l) = list_sum (map f l) + list_sum (map g l).
Proof. induction l as [|a l IH]; simpl; [reflexivity | rewrite IH; lia]. Qed.

Lemma list_sum_zero {A : Type} (f : A -> nat) (l : list A) :
  (forall a, In a l -> f a = 0) -> list_sum (map f l) = 0.
Proof.
  induction l as [|a l IH]; simpl; intros H; [reflexivity|].
  rewrite H, IH; auto.
Qed.

(** Exactly one of the distinct keys is the key of a given observation. *)
Lemma list_sum_member (p : Z * cell) (keys : list Z) :
  NoDup keys -> In (fst p) keys ->
  list_sum (map (fun y => if in_group y p then 1 else 0) keys) =
  if notna (snd p) then 1 else 0.
Proof.
  unfold in_group. induction 1 as [|k keys Hk Hnd IH]; simpl; [contradiction|].
  intros [->|Hin].
  - rewrite Z.eqb_refl. simpl. rewrite list_sum_zero.
    + destruct (notna (snd p)); reflexivity.
    + intros y Hy. destruct (fst p =? y)%Z eqn:E; [|reflexivity].
      apply Z.eqb_eq in E. subst. contradiction.
  - rewrite (IH Hin). destruct (fst p =? k)%Z eqn:E; [|reflexivity].
    apply Z.eqb_eq in E. subst. contradiction.
Qed.

Lemma sum_groups (keys : list Z) (obs : list (Z * cell)) :
  NoDup keys -> (forall p, In p obs -> In (fst p) keys) ->
  list_sum (map (fun y => List.length (filter (in_group y) obs)) keys) =
  List.length (filter (fun p => notna (snd p)) obs).
Proof.
  intros Hnd. induction obs as [|p obs IH]; intros Hkeys.
  - simpl. now apply list_sum_zero.
  - rewrite (map_ext _ (fun y => (if in_group y p then 1 else 0) +
                                 List.length (filter (in_group y) obs))).
    + rewrite list_sum_plus, IH by (intros q Hq; apply Hkeys; now right).
      rewrite (list_sum_member p keys Hnd) by (apply Hkeys; now left).
      destruct p as [y c]. simpl. destruct (notna c); reflexivity.
    + intros y. simpl. destruct (in_group y p); reflexivity.
Qed.

Lemma sorted_lt_NoDup (keys : list Z) : StronglySorted Z.lt keys -> NoDup keys.
Proof.
  induction 1 as [|k keys Hs IH Hk]; constructor; [|exact IH].
  intros Hin. rewrite Forall_forall in Hk. specialize (Hk _ Hin). lia.
Qed.

Lemma dated_titled (rs : list Row) :
  List.length (filter (fun p => notna (snd p)) (dated rs)) =
  List.length (filter (fun r => notna (year_added r) && notna (title r)) rs).
Proof.
  induction rs as [|r rs IH]; simpl; [reflexivity|].
  destruct (year_added r); simpl; [|exact IH].
  destruct (notna (title r)); simpl; now rewrite IH.
Qed.

(** The yearly counts add up to the records that have a year and a title. *)
Lemma year_counts_sum (rs : list Row) :
  series_sum (year_counts_of rs) =
  List.length (filter (fun r => notna (year_added r) && notna (title r)) rs).
Proof.
  rewrite year_counts_eq. unfold groupby_count.
  rewrite series_sum_map, sum_groups, dated_titled; [reflexivity | |].
  - apply sorted_lt_NoDup, group_keys_sorted.
  - intros p Hp. apply group_keys_In. now apply in_map.
Qed.

Lemma filter_length_le2 {A : Type} (f g : A -> bool) (l : list A) :
  (forall a, f a = true -> g a = true) ->
  List.length (filter f l) <= List.length (filter g l).
Proof.
  intros H. induction l as [|a l IH]; simpl; [lia|].
  destruct (f a) eqn:E.
  - rewrite (H a E). simpl. lia.
  - destruct (g a); simpl; lia.
Qed.

(** ** Tokens of a comma-separated field *)

Lemma explode_tokens_cons (field : string) (col : list string) :
  explode_tokens (field :: col) =
  map strip (split comma field) ++ explode_tokens col.
Proof. unfold explode_tokens. simpl. now rewrite map_app. Qed.

Lemma token_total (col : list string) :
  List.length (filter ne_Unknown (explode_tokens col)) =
  list_sum (map (fun field => List.length (tokens_of field)) col).
Proof.
  induction col as [|field col IH]; [reflexivity|].
  rewrite explode_tokens_cons, filter_app, length_app, IH. reflexivity.
Qed.

Section TopTokens.

Context {VS : ValueSort}.
Variable n : nat.
Variable col : list string.

Let tokens : list string := filter ne_Unknown (explode_tokens col).

Lemma value_counts_In (l : list string) (x : string * nat) :
  In x (value_counts l) <-> In x (tally l).
Proof. unfold value_counts. apply sort_values_In. Qed.

Lemma value_counts_sum (l : list string) :
  series_sum (value_counts l) = List.length l.
Proof.
  unfold value_counts.
  rewrite <- (series_sum_perm _ _ (sort_values_perm false _)). apply tally_sum.
Qed.

Lemma value_counts_length (l : list string) :
  List.length (value_counts l) = List.length (nodup string_dec l).
Proof. unfold value_counts. now rewrite sort_values_length, tally_length. Qed.

Lemma top_tokens_sum :
  series_sum (top_tokens n col) = series_sum (head n (value_counts tokens)).
Proof.
  unfold top_tokens. symmetry. apply series_sum_perm, sort_values_perm.
Qed.

Lemma top_tokens_sum_le : series_sum (top_tokens n col) <= List.length tokens.
Proof.
  rewrite top_tokens_sum, <- value_counts_sum. apply series_sum_head.
Qed.

Lemma top_tokens_sum_all :
  List.length (nodup string_dec tokens) <= n ->
  series_sum (top_tokens n col) = List.length tokens.
Proof.
  intros H. rewrite top_tokens_sum, head_all, value_counts_sum; [reflexivity|].
  now rewrite value_counts_length.
Qed.

End TopTokens.

(** ** Totals of the distributions *)

Lemma dropna_length {A B : Type} (f : A -> option B) (l : list A) :
  List.length (dropna (map f l)) = List.length (filter (fun a => notna (f a)) l).
Proof.
  induction l as [|a l IH]; simpl; [reflexivity|].
  destruct (f a); simpl; now rewrite IH.
Qed.

(** ** The most frequent tokens *)

Lemma In_head {A : Type} (n : nat) (l : list A) (x : A) :
  In x (head n l) -> In x l.
Proof.
  intros H. rewrite <- (firstn_skipn n l). apply in_or_app. now left.
Qed.

Lemma NoDup_head {A : Type} (n : nat) (l : list A) :
  NoDup l -> NoDup (head n l).
Proof.
  intros H. rewrite <- (firstn_skipn n l) in H.
  now apply NoDup_app_remove_r in H.
Qed.

Lemma count_occ_filter (f : string -> bool) (l : list string) (c : string) :
  f c = true -> count_occ string_dec (filter f l) c = count_occ string_dec l c.
Proof.
  intros Hc. induction l as [|x l IH]; simpl; [reflexivity|].
  destruct (string_dec x c) as [->|Hne].
  - rewrite Hc. simpl. destruct (string_dec c c); [now rewrite IH | congruence].
  - destruct (f x); simpl; [|exact IH].
    destruct (string_dec x c); [congruence | exact IH].
Qed.

Lemma ne_Unknown_true (c : string) : ne_Unknown c = true <-> c <> "Unknown".
Proof. unfold ne_Unknown. rewrite negb_true_iff. apply String.eqb_neq. Qed.

Section TopTokensOrder.

Context {VS : ValueSort}.
Variable n : nat.
Variable col : list string.

Let tokens : list string := explode_tokens col.
Let kept : list string := filter ne_Unknown tokens.

Lemma value_counts_keys (l : list string) : NoDup (map fst (value_counts l)).
Proof.
  eapply Permutation_NoDup; [|apply tally_NoDup].
  apply Permutation_map. unfold value_counts. apply sort_values_perm.
Qed.

Lemma value_counts_descending (l : list string) :
  StronglySorted (fun a b => by_count b a) (value_counts l).
Proof. apply sort_values_descending. Qed.

Lemma top_tokens_head (x : string * nat) :
  In x (top_tokens n col) <-> In x (head n (value_counts kept)).
Proof. unfold top_tokens. apply sort_values_In. Qed.

(** Each kept label is a token other than the sentinel, with the number of
    its occurrences among all the tokens. *)
Lemma top_tokens_counts (c : string) (k : nat) :
  In (c, k) (top_tokens n col) ->
  c <> "Unknown" /\ In c tokens /\ k = count_occ string_dec tokens c /\ 0 < k.
Proof.
  intros H. apply top_tokens_head, In_head, value_counts_In, tally_In in H.
  destruct H as [-> Hin]. apply filter_In in Hin as [Hin Hne].
  split; [now apply ne_Unknown_true|]. split; [exact Hin|].
  unfold kept. rewrite count_occ_filter by exact Hne.
  split; [reflexivity | now apply count_occ_In].
Qed.

Lemma top_tokens_keys : NoDup (map fst (top_tokens n col)).
Proof.
  eapply Permutation_NoDup.
  - apply Permutation_map. unfold top_tokens. apply sort_values_perm.
  - unfold head. rewrite <- firstn_map. apply NoDup_head, value_counts_keys.
Qed.

Lemma top_tokens_length :
  List.length (top_tokens n col) =
  Nat.min n (List.length (nodup string_dec kept)).
Proof.
  unfold top_tokens, head.
  now rewrite sort_values_length, length_firstn, value_counts_length.
Qed.

(** Nothing that was cut has a greater count than something that was kept. *)
Lemma top_tokens_dominate (c c' : string) (k' : nat) :
  In c kept -> ~ In c (map fst (top_tokens n col)) ->
  In (c', k') (top_tokens n col) ->
  count_occ string_dec tokens c <= k'.
Proof.
  intros Hc Hout Hin.
  assert (Hne : ne_Unknown c = true) by (apply filter_In in Hc; tauto).
  rewrite <- (count_occ_filter ne_Unknown) by exact Hne. fold kept.
  apply tally_complete, value_counts_In in Hc.
  rewrite <- (firstn_skipn n (value_counts kept)) in Hc.
  apply in_app_or in Hc as [Hc|Hc].
  - exfalso. apply Hout. apply top_tokens_head in Hc.
    change c with (fst (c, count_occ string_dec kept c)). now apply in_map.
  - apply top_tokens_head in Hin.
    exact (sorted_head_tail _ n _ (value_counts_descending kept) _ _ Hin Hc).
Qed.

Lemma top_tokens_ascending : StronglySorted by_count (top_tokens n col).
Proof. apply sort_values_ascending. Qed.

Lemma top_tokens_all (x : string * nat) :
  List.length (nodup string_dec kept) <= n ->
  (In x (top_tokens n col) <-> In x (tally kept)).
Proof.
  intros H. rewrite top_tokens_head, head_all, value_counts_In; [tauto|].
  now rewrite value_counts_length.
Qed.

End TopTokensOrder.

Lemma explode_tokens_map {A : Type} (f : A -> string) (l : list A) :
  explode_tokens (map f l) = flat_map (fun a => map strip (split comma (f a))) l.
Proof.
  induction l as [|a l IH]; [reflexivity|].
  simpl map. rewrite explode_tokens_cons, IH. reflexivity.
Qed.

Lemma cleaned_countries {DP : DateParser} (raw : RawFrame) :
  has_column (raw_columns raw) "country" = true ->
  map country (map (cleaned_row raw) (raw_rows raw)) =
  map (fun r => fill_clean (raw_country r)) (raw_rows raw).
Proof.
  intros H. rewrite map_map. apply map_ext. intros r.
  unfold cleaned_row, load_row, clean_if_present. cbn [country]. now rewrite H.
Qed.

Lemma cleaned_genres {DP : DateParser} (raw : RawFrame) :
  has_column (raw_columns raw) "listed_in" = true ->
  map listed_in (map (cleaned_row raw) (raw_rows raw)) =
  map (fun r => fill_clean (raw_listed_in r)) (raw_rows raw).
Proof.
  intros H. rewrite map_map. apply map_ext. intros r.
  unfold cleaned_row, load_row, clean_if_present. cbn [listed_in]. now rewrite H.
Qed.

(** ** The sentence about the yearly growth *)

Lemma sorted_app_after {A : Type} (R : A -> A -> Prop) (l1 l2 : list A) (x : A) :
  StronglySorted R (l1 ++ x :: l2) -> Forall (R x) l2.
Proof.
  induction l1 as [|a l1 IH]; simpl; intros H;
    inversion H as [|? ? Hs Ha]; subst; [exact Ha | now apply IH].
Qed.

Lemma dated_none (rs : list Row) :
  Forall (fun r => year_added r = None) rs -> dated rs = [].
Proof.
  induction 1 as [|r rs Hr Hrs IH]; simpl; [reflexivity|]. now rewrite Hr.
Qed.

Lemma year_counts_sorted (rs : list Row) :
  StronglySorted by_index (year_counts_of rs).
Proof. rewrite year_counts_eq. apply groupby_count_sorted. Qed.

(** The sentence, computed from a Series with two data points or more. *)
Lemma insight_growth_sentence (is_float : bool) (yc : Series Z) :
  StronglySorted by_index yc -> 1 < List.length yc ->
  exists (peak_year : Z) (peak_count : nat) (latest_year : Z) (latest_count : nat),
    In (peak_year, peak_count) yc /\
    (forall y c, In (y, c) yc -> c <= peak_count) /\
    (forall y c, In (y, c) yc -> c = peak_count -> (peak_year <= y)%Z) /\
    In (latest_year, latest_count) yc /\
    (forall y c, In (y, c) yc -> (y <= latest_year)%Z) /\
    insight_growth is_float yc =
    Ok [("Catalog peak additions around " ++ str_of_year is_float peak_year ++
         "; latest year is ~" ++
         format_float 0 (percent latest_count peak_count) ++
         "% of peak.")%string].
Proof.
  intros Hs Hlen.
  assert (Hne : yc <> []) by (intros ->; simpl in Hlen; lia).
  destruct (iloc_last_spec yc Hne) as (front & [ly lc] & Hyc & Hlast).
  destruct (idxmax_spec yc Hne) as (k & n & Hk & Hin & Hmax & Hsm).
  destruct (idxmax_first yc k Hk) as (l1 & n' & l2 & Hsplit & Hl1 & Hl2).
  assert (Hn : n' = n).
  { assert (Hin' : In (k, n') yc)
      by (rewrite Hsplit; apply in_or_app; right; now left).
    pose proof (Hmax _ Hin') as H1. rewrite Hsplit in Hin.
    apply in_app_or in Hin as [Hin|[Hin|Hin]].
    - specialize (Hl1 _ Hin). simpl in *. lia.
    - congruence.
    - specialize (Hl2 _ Hin). simpl in *. lia. }
  subst n'.
  exists k, n, ly, lc. split; [exact Hin|]. split.
  { intros y c H. exact (Hmax _ H). }
  split.
  { intros y c H Hc. subst c. rewrite Hsplit in H, Hs.
    apply in_app_or in H as [H|[[= ->]|H]].
    - specialize (Hl1 _ H). simpl in Hl1. lia.
    - lia.
    - apply sorted_app_after in Hs. rewrite Forall_forall in Hs.
      specialize (Hs _ H). unfold by_index in Hs. simpl in Hs. lia. }
  split. { rewrite Hyc. apply in_or_app. right. now left. }
  split.
  { intros y c H. rewrite Hyc in Hs, H. apply sorted_app_last in Hs as [_ Hf].
    apply in_app_or in H as [H|[[= -> ->]|[]]]; [|lia].
    rewrite Forall_forall in Hf. specialize (Hf _ H). unfold by_index in Hf.
    simpl in Hf. lia. }
  unfold insight_growth. apply Nat.ltb_lt in Hlen. rewrite Hlen, Hlast, Hk.
  cbn [bind snd]. now rewrite Hsm.
Qed.

Lemma insight_growth_short (is_float : bool) (yc : Series Z) :
  List.length yc <= 1 -> insight_growth is_float yc = Ok [].
Proof.
  intros H. unfold insight_growth.
  assert (E : (1 <? List.length yc)%nat = false) by now apply Nat.ltb_ge.
  now rewrite E.
Qed.

(** The year is printed as a float as soon as one record has no year. *)
Lemma load_year_dtype {DP : DateParser} (raw : RawFrame) (frame : DataFrame) :
  load raw = Ok frame ->
  year_added_float frame =
  existsb (fun r => negb (notna (year_added r))) (rows frame)
  || negb (has_column (raw_columns raw) "date_added").
Proof.
  unfold load.
  destruct (if has_column (raw_columns raw) "date_added" then _ else _)
    as [dates|] eqn:E; [|discriminate].
  cbn [bind]. intros [= <-]. cbn [year_added_float rows]. f_equal.
  assert (Hlen : List.length dates = List.length (raw_rows raw)).
  { destruct (has_column (raw_columns raw) "date_added").
    - rewrite to_datetime_coerce in E. injection E as <-.
      now rewrite !length_map.
    - injection E as <-. now rewrite length_map. }
  clear E. revert dates Hlen.
  induction (raw_rows raw) as [|r rs IH]; intros [|d dates] Hlen;
    simpl in *; try discriminate; [reflexivity|].
  rewrite <- IH by lia. now destruct d.
Qed.

(** ** Printing a float with a fixed number of decimals *)

Lemma round_half_even_nearest (num e : Z) : nearest (round_half_even num e) num e.
Proof.
  unfold nearest, round_half_even. destruct e as [|p|p]; try reflexivity.
  set (d := (2 ^ Zpos p)%Z).
  assert (Hd : (0 < d)%Z) by (apply Z.pow_pos_nonneg; lia).
  pose proof (Z.div_mod num d ltac:(lia)) as Hdm.
  pose proof (Z.mod_pos_bound num d Hd) as Hr.
  set (q := (num / d)%Z) in *. set (r := (num mod d)%Z) in *.
  assert (Hq : (q * d = num - r)%Z) by lia.
  destruct (2 * r <? d)%Z eqn:E1; [apply Z.ltb_lt in E1; lia|].
  apply Z.ltb_ge in E1.
  destruct (d <? 2 * r)%Z eqn:E2.
  - apply Z.ltb_lt in E2. lia.
  - apply Z.ltb_ge in E2. destruct (Z.even q); lia.
Qed.

Lemma append_empty (s : string) : (s ++ "")%string = s.
Proof. induction s as [|c s IH]; simpl; [reflexivity | now rewrite IH]. Qed.

(** With no decimals: the numeral of an integer nearest to the float. *)
Lemma format_float_integer (x : float) (s : bool) (m : positive) (e : Z) :
  Prim2SF x = S754_finite s m e ->
  exists n : Z,
    nearest n (Zpos m) e /\
    format_float 0 x = (sign_str s ++ str_of_Z n)%string.
Proof.
  intros H. exists (round_half_even (Zpos m) e).
  split; [apply round_half_even_nearest|].
  unfold format_float, fixed. rewrite H.
  change (10 ^ Z.of_nat 0)%Z with 1%Z.
  now rewrite Z.mul_1_r, Z.div_1_r, append_empty.
Qed.

Lemma digit_char_is_digit (d : Z) :
  (0 <= d < 10)%Z -> is_digit (digit_char d) = true.
Proof.
  intros H.
  assert (C : (d = 0 \/ d = 1 \/ d = 2 \/ d = 3 \/ d = 4 \/ d = 5 \/ d = 6 \/
               d = 7 \/ d = 8 \/ d = 9)%Z) by lia.
  repeat (destruct C as [->|C]; [reflexivity|]). now subst.
Qed.

(** With one decimal: the tenths are rounded to a nearest integer, and one
    digit follows the point. *)
Lemma format_float_one_decimal (x : float) (s : bool) (m : positive) (e : Z) :
  Prim2SF x = S754_finite s m e ->
  exists (n : Z) (d : ascii),
    nearest n (Zpos m * 10) e /\
    d = digit_char (n mod 10) /\ is_digit d = true /\
    format_float 1 x =
    (sign_str s ++ str_of_Z (n / 10) ++ "." ++ String d "")%string.
Proof.
  intros H. exists (round_half_even (Zpos m * 10) e). eexists.
  split; [apply round_half_even_nearest|]. split; [reflexivity|].
  split; [apply digit_char_is_digit, Z.mod_pos_bound; lia|].
  unfold format_float, fixed. rewrite H.
  change (10 ^ Z.of_nat 1)%Z with 10%Z. cbn [frac_digits].
  rewrite Z.mod_mod by lia. reflexivity.
Qed.

(** ** Missing columns *)

Lemma load_columns {DP : DateParser} (raw : RawFrame) (frame : DataFrame) :
  load raw = Ok frame ->
  forall c : string,
    In c read_order ->
    has_column (columns frame) c = has_column (raw_columns raw) c.
Proof.
  unfold load.
  destruct (if has_column (raw_columns raw) "date_added" then _ else _);
    [|discriminate].
  cbn [bind]. intros [= <-] c Hc. cbn [columns]. unfold has_column.
  rewrite existsb_app.
  match goal with |- (_ || ?t)%bool = _ => assert (T : t = false) end.
  { unfold read_order in Hc.
    destruct (existsb (String.eqb "release_year") (raw_columns raw));
      repeat (destruct Hc as [<-|Hc]; [reflexivity|]); contradiction. }
  rewrite T. apply orb_false_r.
Qed.

Lemma first_missing_none (cols : list string) :
  first_missing cols = None <-> required cols = true.
Proof.
  unfold first_missing, required, read_order. simpl.
  destruct (has_column cols "type"), (has_column cols "country"),
    (has_column cols "title"), (has_column cols "listed_in"),
    (has_column cols "duration"); simpl; split; congruence.
Qed.

Lemma main_raises {DP : DateParser} {VS : ValueSort} (raw : RawFrame) (c : string) :
  first_missing (raw_columns raw) = Some c -> main raw = Raise (KeyError (key_of c)).
Proof.
  intros E. destruct (load_rows raw) as (frame & Hload & _ & _).
  pose proof (load_columns raw frame Hload) as Hcols.
  unfold main. rewrite Hload. cbn [bind]. unfold getitem, groupby_getitem.
  rewrite !Hcols by (unfold read_order; simpl; tauto).
  unfold first_missing, read_order in E. simpl in E.
  destruct (has_column (raw_columns raw) "type");
    [|injection E as <-; reflexivity].
  destruct (has_column (raw_columns raw) "country");
    [|injection E as <-; reflexivity].
  destruct (has_column (raw_columns raw) "title");
    [|injection E as <-; reflexivity].
  destruct (has_column (raw_columns raw) "listed_in");
    [|injection E as <-; reflexivity].
  destruct (has_column (raw_columns raw) "duration");
    [discriminate | injection E as <-; reflexivity].
Qed.

(** ** The script and its charts *)

Lemma in_turn_ok `{Plotting} (calls : list (result unit)) :
  in_turn calls = Ok tt <-> Forall (fun call => call = Ok tt) calls.
Proof.
  induction calls as [|call calls IH]; simpl.
  - split; [constructor | reflexivity].
  - destruct call as [[]|e]; cbn [bind].
    + rewrite IH. split.
      * intros H'. now constructor.
      * intros H'. now inversion H'.
    + split; [discriminate|]. intros H'. inversion H'. discriminate.
Qed.

Lemma in_turn_app `{Plotting} (l1 l2 : list (result unit)) :
  in_turn (l1 ++ l2) = (_ <- in_turn l1 ;; in_turn l2).
Proof.
  induction l1 as [|call l1 IH]; simpl; [reflexivity|].
  destruct call as [[]|e]; cbn [bind]; [exact IH | reflexivity].
Qed.

Lemma main_required {DP : DateParser} {VS : ValueSort} (raw : RawFrame)
    (out : Output) :
  main raw = Ok out -> required (raw_columns raw) = true.
Proof.
  intros H. destruct (first_missing (raw_columns raw)) as [c|] eqn:E.
  - rewrite (main_raises raw c E) in H. discriminate.
  - now apply first_missing_none.
Qed.

(** A run of the script is the run without charts, followed or not by what
    the first chart that fails raises. *)
Lemma script_completes {DP : DateParser} {VS : ValueSort} {PL : Plotting}
    (raw : RawFrame) (out : Output) :
  main raw = Ok out ->
  script raw = (_ <- in_turn (charts out) ;; Ok out).
Proof.
  intros Hmain. pose proof (main_required raw out Hmain) as Hreq.
  apply required_columns in Hreq
    as (Htype & Hcountry & Htitle & Hlisted & Hduration).
  destruct (load_rows raw) as (frame & Hload & Hrows & Hcols).
  unfold main in Hmain. unfold script.
  rewrite Hload in *. cbn [bind] in *. unfold getitem, groupby_getitem in *.
  rewrite (Hcols _ Htype), (Hcols _ Hcountry), (Hcols _ Htitle),
    (Hcols _ Hlisted), (Hcols _ Hduration) in *.
  cbn [bind] in *. rewrite movies_of_eq, tv_of_eq in *. cbn [bind] in *.
  destruct (insight_type (type_counts_of (map type (rows frame))))
    as [i1|e1]; [|discriminate].
  destruct (insight_growth (year_added_float frame)
              (year_counts_of (rows frame))) as [i3|e3]; [|discriminate].
  cbn [bind] in *. injection Hmain as <-.
  unfold charts, saved.
  cbn [type_counts top_countries year_counts top_genres movies recent_decades tv].
  destruct (barplot _) as [[]|e]; [|reflexivity].
  destruct (savefig "01_movies_vs_tv.png") as [[]|e]; [|reflexivity].
  destruct (barh (top_countries_of _)) as [[]|e]; [|reflexivity].
  destruct (savefig "02_top_countries.png") as [[]|e]; [|reflexivity].
  destruct (line _) as [[]|e]; [|reflexivity].
  destruct (savefig "03_growth_by_year_added.png") as [[]|e]; [|reflexivity].
  destruct (barh (top_genres_of _)) as [[]|e]; [|reflexivity].
  destruct (savefig "04_top_genres.png") as [[]|e]; [|reflexivity].
  destruct (hist _ 30) as [[]|e]; [|reflexivity].
  destruct (savefig "05_movie_duration_hist.png") as [[]|e]; [|reflexivity].
  destruct (boxplot _) as [[]|e]; [|reflexivity].
  destruct (savefig "06_movie_duration_by_decade.png") as [[]|e]; [|reflexivity].
  destruct (0 <? List.length _)%nat; [|reflexivity].
  destruct (hist _ 15) as [[]|e]; [|reflexivity].
  destruct (savefig "07_tv_seasons_hist.png") as [[]|e]; reflexivity.
Qed.

Lemma script_stops {DP : DateParser} {VS : ValueSort} {PL : Plotting}
    (raw : RawFrame) (c : string) :
  first_missing (raw_columns raw) = Some c ->
  script raw =
  (_ <- in_turn (charts_before raw c) ;; Raise (KeyError (key_of c))).
Proof.
  intros E. destruct (load_rows raw) as (frame & Hload & Hrows & _).
  pose proof (load_columns raw frame Hload) as Hcols.
  unfold script. rewrite Hload. cbn [bind]. unfold getitem, groupby_getitem.
  rewrite !Hcols by (unfold read_order; simpl; tauto).
  unfold charts_before, saved. rewrite <- Hrows.
  unfold first_missing, read_order in E. simpl in E.
  destruct (has_column (raw_columns raw) "type");
    [|injection E as <-; reflexivity].
  cbn [bind].
  destruct (has_column (raw_columns raw) "country").
  2:{ injection E as <-. cbn.
      destruct (barplot _) as [[]|e]; [|reflexivity].
      destruct (savefig "01_movies_vs_tv.png") as [[]|e]; reflexivity. }
  destruct (has_column (raw_columns raw) "title").
  2:{ injection E as <-. cbn.
      destruct (barplot _) as [[]|e]; [|reflexivity].
      destruct (savefig "01_movies_vs_tv.png") as [[]|e]; [|reflexivity].
      destruct (barh _) as [[]|e]; [|reflexivity].
      destruct (savefig "02_top_countries.png") as [[]|e]; reflexivity. }
  destruct (has_column (raw_columns raw) "listed_in").
  2:{ injection E as <-. cbn.
      destruct (barplot _) as [[]|e]; [|reflexivity].
      destruct (savefig "01_movies_vs_tv.png") as [[]|e]; [|reflexivity].
      destruct (barh _) as [[]|e]; [|reflexivity].
      destruct (savefig "02_top_countries.png") as [[]|e]; [|reflexivity].
      destruct (line _) as [[]|e]; [|reflexivity].
      destruct (savefig "03_growth_by_year_added.png") as [[]|e]; reflexivity. }
  destruct (has_column (raw_columns raw) "duration"); [discriminate|].
  injection E as <-. cbn.
  destruct (barplot _) as [[]|e]; [|reflexivity].
  destruct (savefig "01_movies_vs_tv.png") as [[]|e]; [|reflexivity].
  destruct (barh _) as [[]|e]; [|reflexivity].
  destruct (savefig "02_top_countries.png") as [[]|e]; [|reflexivity].
  destruct (line _) as [[]|e]; [|reflexivity].
  destruct (savefig "03_growth_by_year_added.png") as [[]|e]; [|reflexivity].
  destruct (barh _) as [[]|e]; [|reflexivity].
  destruct (savefig "04_top_genres.png") as [[]|e]; reflexivity.
Qed.

(** ** White space *)

Lemma lstrip_split (s : string) :
  exists pre : string,
    s = (pre ++ lstrip s)%string /\ all_space pre = true.
Proof.
  induction s as [|c s (pre & Hs & Hpre)]; simpl.
  - now exists EmptyString.
  - destruct (is_space c) eqn:E.
    + exists (String c pre). simpl. rewrite E, Hpre. split; [now f_equal|reflexivity].
    + now exists EmptyString.
Qed.

Lemma lstrip_starts_clean (s : string) : starts_clean (lstrip s).
Proof.
  induction s as [|c s IH]; simpl; [exact I|].
  destruct (is_space c) eqn:E; [exact IH | exact E].
Qed.

Lemma rstrip_split (s : string) :
  exists post : string,
    s = (rstrip s ++ post)%string /\ all_space post = true.
Proof.
  induction s as [|c s (post & Hs & Hpost)]; simpl.
  - now exists EmptyString.
  - destruct (rstrip s) as [|d t] eqn:R.
    + destruct (is_space c) eqn:E.
      * exists (String c post). simpl in *. rewrite E, Hpost.
        split; [now f_equal|reflexivity].
      * exists post. simpl in *. split; [now f_equal | exact Hpost].
    + exists post. simpl in *. split; [now f_equal | exact Hpost].
Qed.

Lemma rstrip_ends_clean (s : string) : ends_clean (rstrip s).
Proof.
  induction s as [|c s IH]; simpl; [exact I|].
  destruct (rstrip s) as [|d t] eqn:R.
  - destruct (is_space c) eqn:E; simpl; [exact I | exact E].
  - exact IH.
Qed.

Lemma rstrip_starts_clean (s : string) :
  starts_clean s -> starts_clean (rstrip s).
Proof.
  destruct s as [|c s]; simpl; [trivial|]. intros Hc.
  destruct (rstrip s); [rewrite Hc|]; exact Hc.
Qed.

Lemma lstrip_fixed (s : string) : starts_clean s -> lstrip s = s.
Proof. destruct s as [|c s]; simpl; [trivial|]. now intros ->. Qed.

Lemma rstrip_fixed (s : string) : ends_clean s -> rstrip s = s.
Proof.
  induction s as [|c s IH]; [trivial|]. intros H. simpl.
  destruct s as [|d s]; [simpl in *; now rewrite H|].
  rewrite (IH H). reflexivity.
Qed.

Lemma strip_clean (s : string) :
  starts_clean (strip s) /\ ends_clean (strip s).
Proof.
  unfold strip. split; [|apply rstrip_ends_clean].
  apply rstrip_starts_clean, lstrip_starts_clean.
Qed.

Lemma strip_fixed (s : string) :
  starts_clean s -> ends_clean s -> strip s = s.
Proof.
  intros H1 H2. unfold strip. rewrite (lstrip_fixed s H1). now apply rstrip_fixed.
Qed.

Lemma strip_split (s : string) :
  exists pre post : string,
    s = (pre ++ strip s ++ post)%string /\
    all_space pre = true /\ all_space post = true.
Proof.
  destruct (lstrip_split s) as (pre & Hs & Hpre).
  destruct (rstrip_split (lstrip s)) as (post & Hl & Hpost).
  exists pre, post. unfold strip. rewrite <- Hl. auto.
Qed.

Lemma fill_clean_spec (c : cell) : cleaned_from c (fill_clean c).
Proof.
  unfold cleaned_from, fill_clean. split; [now intros ->|]. split.
  - intros text ->. apply strip_split.
  - apply strip_clean.
Qed.

Lemma all_space_strip (text : string) : all_space text = true -> strip text = "".
Proof.
  intros H. unfold strip.
  assert (E : lstrip text = "").
  { induction text as [|c t IH]; [reflexivity|]. simpl in *.
    apply andb_true_iff in H as [Hc Ht]. rewrite Hc. now apply IH. }
  now rewrite E.
Qed.

(** ** Pieces of a field *)

Lemma split_nonempty (sep : ascii) (s : string) : split sep s <> [].
Proof.
  destruct s as [|c s]; simpl; [discriminate|].
  destruct (Ascii.eqb c sep); [discriminate|].
  destruct (split sep s); discriminate.
Qed.

Lemma concat_cons (sep x : string) (l : list string) :
  l <> [] -> String.concat sep (x :: l) = (x ++ sep ++ String.concat sep l)%string.
Proof. destruct l; [congruence | reflexivity]. Qed.

Lemma concat_split (s : string) : String.concat "," (split comma s) = s.
Proof.
  induction s as [|c s IH]; [reflexivity|]. simpl.
  destruct (Ascii.eqb c comma) eqn:E.
  - apply Ascii.eqb_eq in E. subst c.
    rewrite concat_cons by apply split_nonempty. simpl. now rewrite IH.
  - pose proof (split_nonempty comma s) as Hne.
    destruct (split comma s) as [|p ps]; [congruence|].
    destruct ps as [|q ps]; simpl in *; now rewrite IH.
Qed.

Lemma split_length (s : string) :
  List.length (split comma s) = S (count_char comma s).
Proof.
  induction s as [|c s IH]; [reflexivity|]. simpl.
  destruct (Ascii.eqb c comma); simpl; [now rewrite IH|].
  pose proof (split_nonempty comma s) as Hne.
  destruct (split comma s) as [|p ps]; [congruence|]. simpl in *. exact IH.
Qed.

Lemma split_no_separator (s : string) :
  Forall (fun p => count_char comma p = 0) (split comma s).
Proof.
  induction s as [|c s IH]; simpl; [repeat constructor|].
  destruct (Ascii.eqb c comma) eqn:E; [now constructor|].
  destruct (split comma s) as [|p ps]; [repeat constructor; simpl; now rewrite E|].
  inversion IH as [|? ? Hp Hps]; subst. constructor; [|exact Hps].
  simpl. now rewrite E.
Qed.

Lemma split_piece (p : string) :
  count_char comma p = 0 -> split comma p = [p].
Proof.
  induction p as [|c p IH]; [reflexivity|]. simpl.
  destruct (Ascii.eqb c comma); [discriminate|]. simpl. intros H.
  now rewrite IH.
Qed.

Lemma split_piece_app (p t : string) :
  count_char comma p = 0 ->
  split comma (p ++ "," ++ t) = p :: split comma t.
Proof.
  induction p as [|c p IH]; [reflexivity|]. intros H. simpl in H.
  destruct (Ascii.eqb c comma) eqn:E; [discriminate|].
  specialize (IH H). simpl in *. now rewrite E, IH.
Qed.

Lemma split_concat (l : list string) :
  l <> [] -> Forall (fun p => count_char comma p = 0) l ->
  split comma (String.concat "," l) = l.
Proof.
  induction l as [|p l IH]; [congruence|]. intros _ H.
  inversion H as [|? ? Hp Hl]; subst.
  destruct l as [|q l]; [now apply split_piece|].
  rewrite concat_cons by discriminate.
  rewrite split_piece_app by exact Hp. f_equal. apply IH; [discriminate | exact Hl].
Qed.

Lemma count_char_app (c : ascii) (a b : string) :
  count_char c (a ++ b) = count_char c a + count_char c b.
Proof. induction a as [|d a IH]; simpl; [reflexivity | rewrite IH; lia]. Qed.

Lemma strip_no_separator (s : string) :
  count_char comma s = 0 -> count_char comma (strip s) = 0.
Proof.
  destruct (strip_split s) as (pre & post & Hs & _). intros H.
  rewrite Hs, !count_char_app in H. lia.
Qed.

Lemma explode_tokens_length (col : list string) :
  List.length (explode_tokens col) =
  list_sum (map (fun field => S (count_char comma field)) col).
Proof.
  induction col as [|field col IH]; [reflexivity|].
  rewrite explode_tokens_cons, length_app, length_map, split_length, IH.
  reflexivity.
Qed.

Lemma all_columns_distinct : NoDup all_columns.
Proof. repeat constructor; simpl; intuition discriminate. Qed.

Lemma typed_eq_str (t : string) (r : Row) : eq_str (type r) t = typed t r.
Proof.
  unfold typed, eq_str. destruct (type r) as [v|]; [|reflexivity].
  destruct (string_dec v t) as [->|Hne]; [apply String.eqb_refl|].
  now apply String.eqb_neq.
Qed.

(** A numeral starts with a digit or with the sign. *)
Lemma str_of_Z_head (z : Z) :
  exists (c : ascii) (rest : string),
    str_of_Z z = String c rest /\ (is_digit c = true \/ c = "-"%char).
Proof.
  unfold str_of_Z, NilZero.string_of_int.
  destruct (Z.to_int z) as [u|u].
  - destruct u; simpl; eauto.
  - simpl. eauto.
Qed.

(** ** What the tokens of a column are *)

Lemma is_ascii_app (s t : string) :
  is_ascii (s ++ t) = is_ascii s && is_ascii t.
Proof.
  induction s as [|c s IH]; simpl; [reflexivity|]. now rewrite IH, andb_assoc.
Qed.

Lemma all_space_app (s t : string) :
  all_space (s ++ t) = all_space s && all_space t.
Proof.
  induction s as [|c s IH]; simpl; [reflexivity|]. now rewrite IH, andb_assoc.
Qed.

Lemma lstrip_spaces (pre s : string) :
  all_space pre = true -> lstrip (pre ++ s) = lstrip s.
Proof.
  induction pre as [|c pre IH]; simpl; [reflexivity|]. intros H.
  apply andb_true_iff in H as [Hc Hpre]. rewrite Hc. now apply IH.
Qed.

Lemma rstrip_spaces (s post : string) :
  all_space post = true -> rstrip (s ++ post) = rstrip s.
Proof.
  intros H. induction s as [|c s IH]; simpl.
  - induction post as [|d post IH]; [reflexivity|]. simpl in *.
    apply andb_true_iff in H as [Hd Hpost]. rewrite (IH Hpost). now rewrite Hd.
  - now rewrite IH.
Qed.

(** There is one way to trim. *)
Lemma trimmed_strip (piece t : string) : trimmed piece t <-> t = strip piece.
Proof.
  split.
  - intros (pre & post & -> & Hpre & Hpost & Hs & He). unfold strip.
    rewrite (lstrip_spaces _ _ Hpre).
    destruct t as [|c t].
    + simpl. destruct (lstrip_split post) as (pre' & Hp & _).
      assert (A : all_space (lstrip post) = true).
      { rewrite Hp, all_space_app in Hpost.
        now apply andb_true_iff in Hpost as [_ Hpost]. }
      pose proof (lstrip_starts_clean post) as C.
      destruct (lstrip post) as [|d u]; [reflexivity|].
      simpl in A, C. rewrite C in A. discriminate.
    + simpl in Hs. cbn [append lstrip]. rewrite Hs.
      change (String c (t ++ post)) with (String c t ++ post)%string.
      rewrite (rstrip_spaces _ _ Hpost). symmetry. now apply rstrip_fixed.
  - intros ->. destruct (strip_split piece) as (pre & post & E & Hpre & Hpost).
    destruct (strip_clean piece) as [Hs He].
    exists pre, post. repeat split; assumption.
Qed.

(** There is one way to clean a cell. *)
Lemma cleaned_from_fill_clean (c : cell) (v : string) :
  cleaned_from c v <-> v = fill_clean c.
Proof.
  split.
  - intros (Hnone & Hsome & Hs & He). destruct c as [text|].
    + destruct (Hsome text eq_refl) as (pre & post & E & Hpre & Hpost).
      apply trimmed_strip. exists pre, post. repeat split; assumption.
    + now apply Hnone.
  - intros ->. apply fill_clean_spec.
Qed.

(** There is one way to cut a field at its commas. *)
Lemma cut_at_commas_split (field : string) (pieces : list string) :
  cut_at_commas field pieces <-> pieces = split comma field.
Proof.
  split.
  - intros (Hne & Hfree & <-). symmetry. now apply split_concat.
  - intros ->. split; [apply split_nonempty|].
    split; [apply split_no_separator | apply concat_split].
Qed.

Lemma Forall2_function {A B : Type} (R : A -> B -> Prop) (f : A -> B) :
  (forall a b, R a b <-> b = f a) ->
  forall (l : list A) (l' : list B), Forall2 R l l' <-> l' = map f l.
Proof.
  intros H l. induction l as [|a l IH]; intros l'; split.
  - intros F. now inversion F.
  - intros ->. constructor.
  - intros F. inversion F as [|? b ? bs Hab Hl]; subst. simpl.
    apply H in Hab. apply IH in Hl. now subst.
  - intros ->. simpl. constructor; [now apply H | now apply IH].
Qed.

(** The tokens of a column are those the script counts, and no others. *)
Lemma tokens_of_column_explode (cells : list cell) (tokens : list string) :
  tokens_of_column cells tokens <->
  tokens = explode_tokens (map fill_clean cells).
Proof.
  unfold tokens_of_column. split.
  - intros (fields & pieces & Hf & Hp & Ht).
    apply (Forall2_function _ _ cleaned_from_fill_clean) in Hf.
    apply (Forall2_function _ _ cut_at_commas_split) in Hp.
    apply (Forall2_function _ _ trimmed_strip) in Ht.
    subst. unfold explode_tokens. now rewrite flat_map_concat_map.
  - intros ->. exists (map fill_clean cells),
      (map (split comma) (map fill_clean cells)).
    split; [now apply (Forall2_function _ _ cleaned_from_fill_clean)|].
    split; [now apply (Forall2_function _ _ cut_at_commas_split)|].
    apply (Forall2_function _ _ trimmed_strip).
    unfold explode_tokens. now rewrite flat_map_concat_map.
Qed.

(** * The claims *)

(** Runs the script on a sample table: [H] states that the run returned
    [out], and [out] is replaced by the value computed. *)
Ltac run_sample H :=
  let E := fresh "E" in
  pose proof H as E; vm_compute in E; injection E as <-.

(** ** The number in a duration *)

(** C1, as stated, fails: the value is stored as a float, and a float does
    not hold every integer.  The run of digits of "9007199254740993 min"
    writes 2^53 + 1, and the value extracted is 2^53. *)
Lemma extract_number_counterexample :
  is_ascii "9007199254740993 min" = true /\
  ~ (exists (run : string) (x : float),
        first_digit_run "9007199254740993 min" run /\
        extract_number "9007199254740993 min" = Ok (Some x) /\
        exact_integer x = Some (decimal_value run)).
Proof.
  split; [reflexivity|]. intros (run & x & Hrun & Hx & Hv).
  apply first_digit_run_search in Hrun. vm_compute in Hrun.
  injection Hrun as <-. vm_compute in Hx. injection Hx as <-.
  vm_compute in Hv. discriminate.
Qed.

(** C1.  For every duration string of ASCII characters the extraction returns
    without raising; it yields no value exactly when the string has no digit,
    and otherwise the float nearest to the (non-negative) integer written by
    the first maximal run of decimal digits.  There is one such run at most.
    This is how [duration_minutes] is computed for every record of type Movie
    and [seasons] for every record of type TV Show, and for no other record.
    "90 min" gives 90.0, "3 Seasons" gives 3.0 and "Unknown" gives no
    value; a run of 400 digits gives infinity. *)
Theorem extract_number_first_run :
  (forall s : string,
      is_ascii s = true ->
      (no_digit s = true /\ extract_number s = Ok None) \/
      (exists run : string,
          first_digit_run s run /\
          (0 <= decimal_value run)%Z /\
          extract_number s = Ok (Some (Z2float (decimal_value run))))) /\
  (forall s run run' : string,
      first_digit_run s run -> first_digit_run s run' -> run = run') /\
  (forall rs : list Row,
      exists (ms : list Movie) (shows : list TvShow),
        movies_of rs = Ok ms /\ tv_of rs = Ok shows /\
        map movie_row ms = filter (typed "Movie") rs /\
        map tv_row shows = filter (typed "TV Show") rs /\
        (forall m, In m ms ->
           extract_number (duration (movie_row m)) = Ok (duration_minutes m)) /\
        (forall t, In t shows ->
           extract_number (duration (tv_row t)) = Ok (seasons t))) /\
  extract_number "90 min" = Ok (Some 90%float) /\
  exact_integer 90%float = Some 90%Z /\
  extract_number "3 Seasons" = Ok (Some 3%float) /\
  exact_integer 3%float = Some 3%Z /\
  extract_number "Unknown" = Ok None /\
  extract_number (String.concat "" (repeat "9" 400) ++ " min") =
  Ok (Some infinity).
Proof.
  split; [|split; [|split; [|repeat split; vm_compute; reflexivity]]].
  - intros s _. rewrite extract_number_eq.
    destruct (search_digits s) as [run|] eqn:E.
    + right. exists run. split; [now apply search_digits_some|].
      split; [apply decimal_value_nonneg | reflexivity].
    + left. split; [now apply search_digits_none | reflexivity].
  - intros s run run' H H'.
    apply first_digit_run_search in H, H'. congruence.
  - intros rs. rewrite movies_of_eq, tv_of_eq. do 2 eexists.
    split; [reflexivity|]. split; [reflexivity|].
    split; [|split; [|split]].
    + rewrite map_map. cbn [movie_of movie_row]. rewrite map_id.
      apply filter_ext. intros r. apply typed_eq_str.
    + rewrite map_map. cbn [tv_show_of tv_row]. rewrite map_id.
      apply filter_ext. intros r. apply typed_eq_str.
    + intros m Hm. apply in_map_iff in Hm as (r & <- & _).
      apply extract_number_eq.
    + intros t Ht. apply in_map_iff in Ht as (r & <- & _).
      apply extract_number_eq.
Qed.

Lemma extract_number_first_run_witness :
  exists run : string,
    first_digit_run "3 Seasons" run /\
    extract_number "3 Seasons" = Ok (Some (Z2float (decimal_value run))).
Proof.
  destruct (proj1 extract_number_first_run "3 Seasons" eq_refl)
    as [[H _]|(run & Hrun & _ & Hnum)]; [discriminate|].
  exists run. split; [exact Hrun | exact Hnum].
Defined.

(** ** Totals of the distributions *)

(** C2, as stated, fails.  On [totals_frame] the ten kept countries total 11
    observations, more than the 3 records that name a country and fewer than
    the 15 pieces (14 without the sentinel) those records split into; and the
    yearly series totals 2, fewer than the 3 records that have a year, because
    the record without a title is not counted. *)
Lemma distribution_totals_counterexample :
  exists out : Output,
    main totals_frame = Ok out /\
    ~ (series_sum (top_countries out) <=
       List.length (filter (fun r => ne_Unknown (country r)) (rows (df out)))) /\
    series_sum (top_countries out) <>
    list_sum (map (fun r => List.length (split comma (country r)))
                  (filter (fun r => ne_Unknown (country r)) (rows (df out)))) /\
    series_sum (top_countries out) <>
    list_sum (map (fun r => List.length (tokens_of (country r)))
                  (filter (fun r => ne_Unknown (country r)) (rows (df out)))) /\
    series_sum (year_counts out) <>
    List.length (filter (fun r => notna (year_added r)) (rows (df out))).
Proof.
  eexists. split; [vm_compute; reflexivity|].
  vm_compute. repeat split; try discriminate. lia.
Qed.

(** C2, amended.  The type counts add up to the records that have a type.
    The yearly counts add up to the records that have both a year and a
    title, hence to at most the records that have a year, and to exactly those
    when each of them has a title.  The country and the genre counts add up to
    at most the number of trimmed pieces other than "Unknown", summed over the
    records, and to exactly that number when at most 10 (15 for genres)
    distinct pieces occur. *)
Theorem distribution_totals {DP : DateParser} {VS : ValueSort} (raw : RawFrame) :
  required (raw_columns raw) = true ->
  exists out : Output,
    main raw = Ok out /\
    series_sum (type_counts out) =
    List.length (filter (fun r => notna (type r)) (rows (df out))) /\
    series_sum (year_counts out) =
    List.length (filter (fun r => notna (year_added r) && notna (title r))
                        (rows (df out))) /\
    series_sum (year_counts out) <=
    List.length (filter (fun r => notna (year_added r)) (rows (df out))) /\
    ((forall r, In r (rows (df out)) -> notna (year_added r) = true ->
                notna (title r) = true) ->
     series_sum (year_counts out) =
     List.length (filter (fun r => notna (year_added r)) (rows (df out)))) /\
    series_sum (top_countries out) <=
    list_sum (map (fun r => List.length (tokens_of (country r))) (rows (df out))) /\
    (List.length (nodup string_dec
       (filter ne_Unknown (explode_tokens (map country (rows (df out)))))) <= 10 ->
     series_sum (top_countries out) =
     list_sum (map (fun r => List.length (tokens_of (country r))) (rows (df out)))) /\
    series_sum (top_genres out) <=
    list_sum (map (fun r => List.length (tokens_of (listed_in r))) (rows (df out))) /\
    (List.length (nodup string_dec
       (filter ne_Unknown (explode_tokens (map listed_in (rows (df out)))))) <= 15 ->
     series_sum (top_genres out) =
     list_sum (map (fun r => List.length (tokens_of (listed_in r))) (rows (df out)))).
Proof.
  intros Hreq. destruct (main_runs raw Hreq) as (out & Hout & R).
  exists out. split; [exact Hout|].
  assert (Htok : forall field : Row -> string,
            List.length (filter ne_Unknown (explode_tokens (map field (rows (df out))))) =
            list_sum (map (fun r => List.length (tokens_of (field r))) (rows (df out)))).
  { intros field. now rewrite token_total, map_map. }
  repeat split.
  - rewrite (run_type_counts _ _ R), type_counts_sum. apply dropna_length.
  - rewrite (run_year_counts _ _ R). apply year_counts_sum.
  - rewrite (run_year_counts _ _ R), year_counts_sum.
    apply filter_length_le2. intros r H. now apply andb_true_iff in H as [H _].
  - intros Htitle. rewrite (run_year_counts _ _ R), year_counts_sum.
    f_equal. apply filter_ext_in. intros r Hr.
    destruct (notna (year_added r)) eqn:E; [|reflexivity].
    now rewrite (Htitle r Hr E).
  - rewrite (run_top_countries _ _ R), <- Htok. apply top_tokens_sum_le.
  - intros H. rewrite (run_top_countries _ _ R), <- Htok.
    now apply top_tokens_sum_all.
  - rewrite (run_top_genres _ _ R), <- Htok. apply top_tokens_sum_le.
  - intros H. rewrite (run_top_genres _ _ R), <- Htok.
    now apply top_tokens_sum_all.
Qed.

Lemma distribution_totals_witness :
  exists out : Output,
    main sample_frame = Ok out /\
    series_sum (type_counts out) = 3 /\
    series_sum (year_counts out) = 2 /\
    series_sum (top_countries out) = 4 /\
    series_sum (top_genres out) = 4.
Proof.
  destruct (distribution_totals sample_frame eq_refl)
    as (out & Hout & Hty & Hyc & _ & _ & _ & Hco & _ & Hge).
  exists out. split; [exact Hout|].
  run_sample Hout. rewrite Hty, Hyc, Hco, Hge by (vm_compute; lia).
  repeat split; reflexivity.
Defined.

(** ** The empty table *)

(** C3.  On a table without records (whatever its header, as long as the
    columns the script reads are there) the script does not reach its
    sentences: the table of the countries is empty, and its chart, at line 60,
    raises [IndexError] once the first chart is drawn and saved.  Nothing is
    written to insights.txt.  The statements other than the charts would find
    every aggregate empty and produce no sentence, and the text they would
    write is the header followed by a second line that holds a bare bullet
    mark ["- "]: not the header alone. *)
Theorem empty_table_insights {DP : DateParser} {VS : ValueSort} {PL : Plotting}
    (cols : list string) :
  NoDup cols ->
  required cols = true ->
  (forall out : Output,
      script {| raw_columns := cols; raw_rows := [] |} <> Ok out) /\
  (barplot [] = Ok tt -> savefig "01_movies_vs_tv.png" = Ok tt ->
   script {| raw_columns := cols; raw_rows := [] |} =
   Raise (IndexError "index 0 is out of bounds for axis 0 with size 0")) /\
  exists out : Output,
    main {| raw_columns := cols; raw_rows := [] |} = Ok out /\
    type_counts out = [] /\ top_countries out = [] /\ year_counts out = [] /\
    top_genres out = [] /\ movies out = [] /\ tv out = [] /\
    ins out = [] /\
    insights_text (ins out) = ("Key Insights:" ++ nl ++ "- ")%string /\
    insights_text (ins out) <> "Key Insights:" /\
    insights_text (ins out) <> ("Key Insights:" ++ nl)%string.
Proof.
  intros _ Hreq.
  destruct (main_runs {| raw_columns := cols; raw_rows := [] |} Hreq)
    as (out & Hout & R).
  pose proof (run_rows _ _ R) as Hrows. cbn [raw_rows map] in Hrows.
  assert (Htc : type_counts out = []).
  { rewrite (run_type_counts _ _ R), Hrows. now apply type_counts_nil. }
  assert (Htop : forall n, top_tokens n [] = []).
  { intros n. unfold top_tokens, value_counts. cbn [explode_tokens flat_map map filter].
    change (tally []) with (@nil (string * nat)).
    assert (E : sort_values false (@nil (string * nat)) = [])
      by now apply sort_values_nil.
    rewrite E. unfold head. rewrite firstn_nil. now apply sort_values_nil. }
  assert (Hco : top_countries out = []).
  { rewrite (run_top_countries _ _ R), Hrows. apply Htop. }
  assert (Hyc : year_counts out = []).
  { now rewrite (run_year_counts _ _ R), Hrows. }
  assert (Hmv : movies out = []).
  { now rewrite (run_movies _ _ R), Hrows. }
  assert (Htv : tv out = []).
  { now rewrite (run_tv _ _ R), Hrows. }
  assert (Hins : ins out = []).
  { destruct (run_ins _ _ R) as (i1 & i3 & H1 & H3 & ->).
    rewrite Htc in H1. rewrite Hyc in H3. rewrite Hco, Hmv.
    cbn in H1, H3. injection H1 as <-. injection H3 as <-. reflexivity. }
  assert (Hscript : script {| raw_columns := cols; raw_rows := [] |} =
                    (_ <- barplot [] ;; _ <- savefig "01_movies_vs_tv.png" ;;
                     Raise (IndexError
                              "index 0 is out of bounds for axis 0 with size 0"))).
  { rewrite (script_completes _ _ Hout). unfold charts.
    rewrite Htc, Hco. cbn [app in_turn fold_right].
    destruct (barplot []) as [[]|e]; cbn [bind]; [|reflexivity].
    destruct (savefig "01_movies_vs_tv.png") as [[]|e]; cbn [bind]; [|reflexivity].
    now rewrite barh_empty. }
  split; [|split].
  - intros out'. rewrite Hscript.
    destruct (barplot []) as [[]|e]; cbn [bind]; [|discriminate].
    destruct (savefig "01_movies_vs_tv.png") as [[]|e]; discriminate.
  - intros H1 H2. now rewrite Hscript, H1, H2.
  - exists out. split; [exact Hout|]. rewrite Hins.
    repeat split; try assumption; try discriminate.
    rewrite (run_top_genres _ _ R), Hrows. apply Htop.
Qed.

Lemma empty_table_insights_witness :
  script empty_frame =
  Raise (IndexError "index 0 is out of bounds for axis 0 with size 0").
Proof.
  exact (proj1 (proj2 (empty_table_insights all_columns all_columns_distinct
                                             eq_refl))
               eq_refl eq_refl).
Defined.

(** ** The sentence about the yearly growth *)

(** C4, as stated, fails.  On [sample_frame], where one record has no year,
    the year of the sentence is printed as a float, [2019.0]; on
    [untitled_frame], where no record has a title, the peak count is 0 and the
    percentage is printed [nan].  Neither sentence holds a year and a
    percentage written as integers. *)
Lemma growth_sentence_counterexample :
  (exists (out : Output) (sentence : string),
      main sample_frame = Ok out /\
      1 < List.length (year_counts out) /\
      nth_error (ins out) 2 = Some sentence /\
      forall peak : Z,
        In peak (map fst (year_counts out)) -> ~ claimed_growth peak sentence) /\
  (exists (out : Output) (sentence : string),
      main untitled_frame = Ok out /\
      1 < List.length (year_counts out) /\
      nth_error (ins out) 2 = Some sentence /\
      forall peak : Z,
        In peak (map fst (year_counts out)) -> ~ claimed_growth peak sentence).
Proof.
  split.
  - eexists. eexists. split; [vm_compute; reflexivity|].
    split; [vm_compute; lia|]. split; [vm_compute; reflexivity|].
    intros peak Hpeak. vm_compute in Hpeak.
    destruct Hpeak as [<-|[<-|[]]]; intros [pct H].
    + change (str_of_Z 2019) with "2019" in H. cbn [append] in H. discriminate H.
    + change (str_of_Z 2020) with "2020" in H. cbn [append] in H. discriminate H.
  - eexists. eexists. split; [vm_compute; reflexivity|].
    split; [vm_compute; lia|]. split; [vm_compute; reflexivity|].
    intros peak Hpeak. vm_compute in Hpeak.
    destruct Hpeak as [<-|[<-|[]]]; intros [pct H].
    + change (str_of_Z 2019) with "2019" in H. cbn [append] in H.
      destruct (str_of_Z_head pct) as (c & rest & E & Hc).
      rewrite E in H. cbn [append] in H.
      injection H as Hc' _. subst c. destruct Hc as [Hc|Hc]; discriminate Hc.
    + change (str_of_Z 2020) with "2020" in H. cbn [append] in H. discriminate H.
Qed.

(** C4.  With more than one year in the yearly series, the sentence after
    those about the types and the countries reads
    [Catalog peak additions around <peakYear>; latest year is ~<pct>% of peak.]
    where the peak year holds the greatest count (the earliest such year),
    the latest year is the greatest year, and <pct> is the latest count as a
    percentage of the peak
    count, printed without decimals, that is, rounded to a nearest integer.
    The year is printed as the column holds it: as a float when some record
    has no year.  With one year or none there is no such sentence; there is
    no year at all when the table has no column [date_added]. *)
Theorem growth_sentence {DP : DateParser} {VS : ValueSort} (raw : RawFrame) :
  required (raw_columns raw) = true ->
  exists (out : Output) (i1 : list string),
    main raw = Ok out /\
    insight_type (type_counts out) = Ok i1 /\
    (1 < List.length (year_counts out) ->
     exists (peak_year : Z) (peak_count : nat) (latest_year : Z) (latest_count : nat),
       In (peak_year, peak_count) (year_counts out) /\
       (forall y c, In (y, c) (year_counts out) -> c <= peak_count) /\
       (forall y c, In (y, c) (year_counts out) -> c = peak_count ->
                    (peak_year <= y)%Z) /\
       In (latest_year, latest_count) (year_counts out) /\
       (forall y c, In (y, c) (year_counts out) -> (y <= latest_year)%Z) /\
       ins out =
       i1 ++ insight_countries (top_countries out) ++
       [("Catalog peak additions around " ++
         str_of_year (year_added_float (df out)) peak_year ++
         "; latest year is ~" ++
         format_float 0 (percent latest_count peak_count) ++
         "% of peak.")%string] ++
       insight_duration (movies out)) /\
    (List.length (year_counts out) <= 1 ->
     ins out =
     i1 ++ insight_countries (top_countries out) ++ insight_duration (movies out)) /\
    (forall (y : Z) (c : nat),
        In (y, c) (year_counts out) <->
        (exists r, In r (rows (df out)) /\ year_added r = Some y) /\
        c = List.length (titled_in y (rows (df out)))) /\
    (has_column (raw_columns raw) "date_added" = false -> year_counts out = []) /\
    (year_added_float (df out) = true <->
     has_column (raw_columns raw) "date_added" = false \/
     exists r, In r (rows (df out)) /\ year_added r = None) /\
    (forall (x : float) (s : bool) (m : positive) (e : Z),
        Prim2SF x = S754_finite s m e ->
        exists n : Z,
          nearest n (Zpos m) e /\
          format_float 0 x = (sign_str s ++ str_of_Z n)%string).
Proof.
  intros Hreq. destruct (main_runs raw Hreq) as (out & Hout & R).
  destruct (run_ins _ _ R) as (i1 & i3 & H1 & H3 & Hins).
  exists out, i1. split; [exact Hout|]. split; [exact H1|].
  split; [|split; [|split; [|split; [|split]]]].
  - intros Hlen.
    assert (Hs : StronglySorted by_index (year_counts out)).
    { rewrite (run_year_counts _ _ R). apply year_counts_sorted. }
    destruct (insight_growth_sentence (year_added_float (df out)) _ Hs Hlen)
      as (py & pc & ly & lc & Hp & Hpmax & Hfirst & Hl & Hlmax & Hsent).
    rewrite Hsent in H3. injection H3 as <-.
    exists py, pc, ly, lc. repeat (split; [assumption|]). exact Hins.
  - intros Hlen. rewrite insight_growth_short in H3 by exact Hlen.
    injection H3 as <-. exact Hins.
  - intros y c. rewrite (run_year_counts _ _ R). apply year_counts_In.
  - intros Hno. rewrite (run_year_counts _ _ R), (run_rows _ _ R).
    unfold year_counts_of. rewrite dated_none; [reflexivity|].
    apply Forall_forall. intros row Hrow.
    apply in_map_iff in Hrow as (r & <- & _).
    unfold cleaned_row, load_row. cbn [year_added]. now rewrite Hno.
  - rewrite (load_year_dtype raw _ (run_load _ _ R)).
    rewrite orb_true_iff, negb_true_iff, existsb_exists. split.
    + intros [(r & Hr & Hn)|H]; [right | now left].
      exists r. split; [exact Hr|]. now destruct (year_added r).
    + intros [H|(r & Hr & Hn)]; [now right | left].
      exists r. split; [exact Hr|]. now rewrite Hn.
  - apply format_float_integer.
Qed.

Lemma growth_sentence_witness :
  exists out : Output,
    main sample_frame = Ok out /\
    nth_error (ins out) 2 =
    Some "Catalog peak additions around 2019.0; latest year is ~100% of peak.".
Proof.
  destruct (growth_sentence sample_frame eq_refl) as (out & i1 & Hout & _).
  exists out. split; [exact Hout|].
  now run_sample Hout.
Defined.

(** ** The ten countries *)

(** C5.  On a table whose country cells are ASCII text, the country table
    counts the tokens of the column: each field cut at its commas, each part
    trimmed of the white space around it, one observation per part, so that
    "United States, India" counts once for each of the two countries.
    "Unknown" is never a label.  The table has the 10 labels with the highest
    counts, or all of them when there are fewer than 10, and lists them by
    increasing count. *)
Theorem top_countries_rule {DP : DateParser} {VS : ValueSort} (raw : RawFrame) :
  NoDup (raw_columns raw) ->
  required (raw_columns raw) = true ->
  Forall (fun r => cell_ascii (raw_country r) = true) (raw_rows raw) ->
  exists (out : Output) (tokens : list string),
    main raw = Ok out /\
    tokens_of_column (map raw_country (raw_rows raw)) tokens /\
    (forall tokens' : list string,
        tokens_of_column (map raw_country (raw_rows raw)) tokens' ->
        tokens' = tokens) /\
    (forall (c : string) (k : nat),
        In (c, k) (top_countries out) ->
        c <> "Unknown" /\ In c tokens /\
        k = count_occ string_dec tokens c /\ 0 < k) /\
    NoDup (map fst (top_countries out)) /\
    List.length (top_countries out) =
    Nat.min 10 (List.length (nodup string_dec (filter ne_Unknown tokens))) /\
    (forall (c c' : string) (k' : nat),
        In c tokens -> c <> "Unknown" ->
        ~ In c (map fst (top_countries out)) ->
        In (c', k') (top_countries out) ->
        count_occ string_dec tokens c <= k') /\
    StronglySorted by_count (top_countries out) /\
    tokens_of_column [Some "United States, India"] ["United States"; "India"].
Proof.
  intros _ Hreq _. destruct (main_runs raw Hreq) as (out & Hout & R).
  destruct (required_columns _ Hreq) as (_ & Hcountry & _).
  exists out, (country_tokens raw). split; [exact Hout|].
  assert (E : top_countries out =
              top_tokens 10 (map (fun r => fill_clean (raw_country r)) (raw_rows raw))).
  { rewrite (run_top_countries _ _ R), (run_rows _ _ R).
    now rewrite cleaned_countries. }
  assert (T : explode_tokens (map (fun r => fill_clean (raw_country r)) (raw_rows raw))
              = country_tokens raw) by apply explode_tokens_map.
  assert (U : forall tokens',
             tokens_of_column (map raw_country (raw_rows raw)) tokens' <->
             tokens' = country_tokens raw).
  { intros tokens'. rewrite tokens_of_column_explode, map_map. now rewrite T. }
  rewrite E.
  split; [now apply U|]. split; [intros tokens' H; now apply U|].
  split; [|split; [|split; [|split; [|split]]]].
  - intros c k H. apply top_tokens_counts in H. now rewrite T in H.
  - apply top_tokens_keys.
  - now rewrite top_tokens_length, T.
  - intros c c' k' Hc Hne Hout' Hin. rewrite <- T.
    apply (top_tokens_dominate 10 _ c c' k'); [|exact Hout'|exact Hin].
    rewrite T. apply filter_In. split; [exact Hc | now apply ne_Unknown_true].
  - apply top_tokens_ascending.
  - now apply tokens_of_column_explode.
Qed.

Lemma top_countries_rule_witness :
  exists out : Output,
    main sample_frame = Ok out /\
    top_countries out = [("India", 1); ("Germany", 1); ("United States", 2)] /\
    StronglySorted by_count (top_countries out).
Proof.
  assert (A : Forall (fun r => cell_ascii (raw_country r) = true)
                     (raw_rows sample_frame)) by (repeat constructor).
  destruct (top_countries_rule sample_frame all_columns_distinct eq_refl A)
    as (out & tokens & Hout & _ & _ & _ & _ & _ & _ & Hsorted & _).
  exists out. split; [exact Hout|]. split; [|exact Hsorted].
  now run_sample Hout.
Defined.

(** ** Decades *)




(** ** The sentence about the dominant type *)

(** C7.  When some record has a type, the first sentence names a type with
    the greatest count and prints its share of the titles that have a type,
    times 100, with one decimal: [<Type> lead with ~<pct>% of total titles.]
    With two movies and one TV show it reads
    [Movie lead with ~66.7% of total titles.]  Printing with one decimal
    rounds the tenths to a nearest integer and writes one digit after the
    point. *)
Theorem dominant_type_sentence {DP : DateParser} {VS : ValueSort}
    (raw : RawFrame) :
  required (raw_columns raw) = true ->
  dropna (map raw_type (raw_rows raw)) <> [] ->
  exists (out : Output) (dominant : string) (rest : list string),
    main raw = Ok out /\
    type_counts out <> [] /\
    In dominant (dropna (map raw_type (raw_rows raw))) /\
    (forall t : string,
        count_occ string_dec (dropna (map raw_type (raw_rows raw))) t <=
        count_occ string_dec (dropna (map raw_type (raw_rows raw))) dominant) /\
    ins out =
    (dominant ++ " lead with ~" ++
     format_float 1
       (percent
          (count_occ string_dec (dropna (map raw_type (raw_rows raw))) dominant)
          (List.length (dropna (map raw_type (raw_rows raw))))) ++
     "% of total titles.")%string :: rest /\
    (count_occ string_dec (dropna (map raw_type (raw_rows raw))) "Movie" = 2 ->
     count_occ string_dec (dropna (map raw_type (raw_rows raw))) "TV Show" = 1 ->
     List.length (dropna (map raw_type (raw_rows raw))) = 3 ->
     ins out = "Movie lead with ~66.7% of total titles." :: rest) /\
    (forall (x : float) (s : bool) (m : positive) (e : Z),
        Prim2SF x = S754_finite s m e ->
        exists (n : Z) (d : ascii),
          nearest n (Zpos m * 10) e /\
          d = digit_char (n mod 10) /\ is_digit d = true /\
          format_float 1 x =
          (sign_str s ++ str_of_Z (n / 10) ++ "." ++ String d "")%string).
Proof.
  intros Hreq Hne. destruct (main_runs raw Hreq) as (out & Hout & R).
  destruct (run_ins _ _ R) as (i1 & i3 & H1 & _ & Hins).
  rewrite (run_type_counts _ _ R), (run_rows _ _ R), cleaned_types in H1.
  destruct (insight_type_sentence _ Hne) as (dominant & Hin & Hmax & Hsent).
  rewrite Hsent in H1. injection H1 as <-.
  exists out, dominant. eexists.
  split; [exact Hout|]. split.
  { rewrite (run_type_counts _ _ R), (run_rows _ _ R), cleaned_types.
    now rewrite type_counts_nil. }
  split; [exact Hin|]. split; [exact Hmax|]. split; [exact Hins|].
  split; [|apply format_float_one_decimal].
  intros Hmovie Htv Hlen. rewrite Hins. cbn [app]. f_equal.
  assert (Hdom : dominant = "Movie").
  { destruct (string_dec dominant "Movie") as [E|E]; [exact E|].
    pose proof (count_occ_two (dropna (map raw_type (raw_rows raw))) _ _ E) as H2.
    rewrite Hmovie, Hlen in H2.
    specialize (Hmax "Movie"). rewrite Hmovie in Hmax. lia. }
  rewrite Hdom, Hmovie, Hlen. reflexivity.
Qed.

Lemma dominant_type_sentence_witness :
  exists (out : Output) (rest : list string),
    main sample_frame = Ok out /\
    ins out = "Movie lead with ~66.7% of total titles." :: rest.
Proof.
  destruct (dominant_type_sentence sample_frame eq_refl)
    as (out & dominant & rest & Hout & _ & _ & _ & _ & H & _);
    [discriminate|].
  exists out, rest. split; [exact Hout|]. apply H; reflexivity.
Defined.

(** ** The seasons chart *)



(** ** Empty tokens *)

(** C10.  A field that ends with a comma splits into a last piece that is
    empty, and the empty piece is counted as a label of its own, in the
    country table and in the genre table alike: only "Unknown" is left out. *)
Theorem empty_token_counted {DP : DateParser} {VS : ValueSort} :
  exists out : Output,
    main trailing_comma_frame = Ok out /\
    map raw_country (raw_rows trailing_comma_frame) = [Some "India,"] /\
    map raw_listed_in (raw_rows trailing_comma_frame) = [Some "Dramas,"] /\
    country_tokens trailing_comma_frame = ["India"; ""] /\
    genre_tokens trailing_comma_frame = ["Dramas"; ""] /\
    In ("", 1) (top_countries out) /\ In ("India", 1) (top_countries out) /\
    In ("", 1) (top_genres out) /\ In ("Dramas", 1) (top_genres out) /\
    List.length (top_countries out) = 2 /\ List.length (top_genres out) = 2.
Proof.
  destruct (main_runs trailing_comma_frame eq_refl) as (out & Hout & R).
  exists out. split; [exact Hout|].
  assert (Hco : top_countries out = top_tokens 10 ["India,"]).
  { rewrite (run_top_countries _ _ R), (run_rows _ _ R).
    now rewrite cleaned_countries. }
  assert (Hge : top_genres out = top_tokens 15 ["Dramas,"]).
  { rewrite (run_top_genres _ _ R), (run_rows _ _ R).
    now rewrite cleaned_genres. }
  rewrite Hco, Hge. repeat split; try reflexivity.
  - apply top_tokens_all; [vm_compute; lia | vm_compute; tauto].
  - apply top_tokens_all; [vm_compute; lia | vm_compute; tauto].
  - apply top_tokens_all; [vm_compute; lia | vm_compute; tauto].
  - apply top_tokens_all; [vm_compute; lia | vm_compute; tauto].
  - now rewrite top_tokens_length.
  - now rewrite top_tokens_length.
Qed.

(** * Further properties of the sentences *)

Lemma insight_type_length (tc : Series string) (i1 : list string) :
  insight_type tc = Ok i1 -> List.length i1 <= 1.
Proof.
  unfold insight_type. destruct tc as [|x tc]; [intros [= <-]; simpl; lia|].
  destruct (idxmax (x :: tc)); cbn [bind]; [|discriminate].
  intros [= <-]. simpl. lia.
Qed.

Lemma insight_growth_length (is_float : bool) (yc : Series Z) (i3 : list string) :
  insight_growth is_float yc = Ok i3 -> List.length i3 <= 1.
Proof.
  unfold insight_growth. destruct (1 <? List.length yc)%nat;
    [|intros [= <-]; simpl; lia].
  destruct (iloc_last yc); cbn [bind]; [|discriminate].
  destruct (idxmax yc); cbn [bind]; [|discriminate].
  intros [= <-]. simpl. lia.
Qed.

(** X1.  A run produces at most four sentences, one per precondition that
    holds, in the order type, countries, growth, duration. *)
Theorem at_most_four_sentences {DP : DateParser} {VS : ValueSort} (raw : RawFrame) :
  required (raw_columns raw) = true ->
  exists (out : Output) (i1 i3 : list string),
    main raw = Ok out /\
    insight_type (type_counts out) = Ok i1 /\
    insight_growth (year_added_float (df out)) (year_counts out) = Ok i3 /\
    ins out = i1 ++ insight_countries (top_countries out) ++ i3 ++
              insight_duration (movies out) /\
    List.length i1 <= 1 /\
    List.length (insight_countries (top_countries out)) <= 1 /\
    List.length i3 <= 1 /\
    List.length (insight_duration (movies out)) <= 1 /\
    List.length (ins out) <= 4.
Proof.
  intros Hreq. destruct (main_runs raw Hreq) as (out & Hout & R).
  destruct (run_ins _ _ R) as (i1 & i3 & H1 & H3 & Hins).
  exists out, i1, i3. split; [exact Hout|]. split; [exact H1|].
  split; [exact H3|]. split; [exact Hins|].
  pose proof (insight_type_length _ _ H1) as L1.
  pose proof (insight_growth_length _ _ _ H3) as L3.
  assert (L2 : List.length (insight_countries (top_countries out)) <= 1).
  { unfold insight_countries. destruct (top_countries out); simpl; lia. }
  assert (L4 : List.length (insight_duration (movies out)) <= 1).
  { unfold insight_duration. destruct (existsb notna _); simpl; lia. }
  repeat split; try assumption.
  rewrite Hins, !length_app. lia.
Qed.

Lemma at_most_four_sentences_witness :
  exists out : Output,
    main sample_frame = Ok out /\ List.length (ins out) = 4.
Proof.
  destruct (at_most_four_sentences sample_frame eq_refl)
    as (out & i1 & i3 & Hout & _).
  exists out. split; [exact Hout|]. now run_sample Hout.
Defined.

(** ** Missing columns and failing charts *)

(** X2.  For a header of distinct names.  When the header lacks one of the
    five columns the script reads without a guard, the script does not
    complete: it raises what the first failing chart drawn before the read
    raises, and otherwise a [KeyError] for the first missing column in the
    order type, country, title, listed_in, duration, whose key is the name of
    the column, or the sentence [Column not found: title] for the title.  With
    the five columns present the script completes exactly when each of its
    charts is drawn and saved, and raises the error of the first that is not;
    so it does not always complete: when the table of the countries is empty
    it stops on the [IndexError] of line 60. *)
Theorem script_key_errors {DP : DateParser} {VS : ValueSort} {PL : Plotting}
    (raw : RawFrame) :
  NoDup (raw_columns raw) ->
  match first_missing (raw_columns raw) with
  | Some c =>
      In c read_order /\ has_column (raw_columns raw) c = false /\
      script raw =
      (_ <- in_turn (charts_before raw c) ;; Raise (KeyError (key_of c))) /\
      (Forall (fun call => call = Ok tt) (charts_before raw c) ->
       script raw = Raise (KeyError (key_of c))) /\
      (forall out : Output, script raw <> Ok out)
  | None =>
      exists out : Output,
        main raw = Ok out /\
        script raw = (_ <- in_turn (charts out) ;; Ok out) /\
        (Forall (fun call => call = Ok tt) (charts out) <-> script raw = Ok out) /\
        (forall out' : Output, script raw = Ok out' -> out' = out) /\
        (top_countries out = [] -> forall out' : Output, script raw <> Ok out') /\
        (top_countries out = [] ->
         barplot (type_counts out) = Ok tt ->
         savefig "01_movies_vs_tv.png" = Ok tt ->
         script raw =
         Raise (IndexError "index 0 is out of bounds for axis 0 with size 0"))
  end.
Proof.
  intros _. destruct (first_missing (raw_columns raw)) as [c|] eqn:E.
  - pose proof (script_stops raw c E) as S.
    pose proof E as F. unfold first_missing in F.
    apply find_some in F as [Hin Hc]. apply negb_true_iff in Hc.
    split; [exact Hin|]. split; [exact Hc|]. split; [exact S|]. split.
    + intros H. apply in_turn_ok in H. now rewrite S, H.
    + intros out. rewrite S. destruct (in_turn _) as [[]|e]; discriminate.
  - apply first_missing_none in E.
    destruct (main_runs raw E) as (out & Hout & _).
    pose proof (script_completes raw out Hout) as S.
    exists out. split; [exact Hout|]. split; [exact S|].
    assert (Hco : top_countries out = [] ->
                  script raw =
                  (_ <- barplot (type_counts out) ;;
                   _ <- savefig "01_movies_vs_tv.png" ;;
                   Raise (IndexError
                            "index 0 is out of bounds for axis 0 with size 0"))).
    { intros H. rewrite S. unfold charts. rewrite H.
      cbn [app in_turn fold_right].
      destruct (barplot _) as [[]|e]; cbn [bind]; [|reflexivity].
      destruct (savefig "01_movies_vs_tv.png") as [[]|e]; cbn [bind];
        [|reflexivity].
      now rewrite barh_empty. }
    split; [|split; [|split]].
    + rewrite S, <- in_turn_ok. destruct (in_turn _) as [[]|e]; cbn [bind].
      * tauto.
      * split; discriminate.
    + intros out'. rewrite S. destruct (in_turn _) as [[]|e]; cbn [bind];
        [|discriminate]. now intros [= ->].
    + intros H out'. rewrite (Hco H).
      destruct (barplot _) as [[]|e]; cbn [bind]; [|discriminate].
      destruct (savefig "01_movies_vs_tv.png") as [[]|e]; discriminate.
    + intros H H1 H2. now rewrite (Hco H), H1, H2.
Qed.

Lemma script_key_errors_witness :
  script {| raw_columns := ["type"; "country"; "duration"; "listed_in"];
            raw_rows := raw_rows sample_frame |} =
  Raise (KeyError "Column not found: title").
Proof.
  assert (D : NoDup ["type"; "country"; "duration"; "listed_in"]).
  { repeat constructor; simpl; intuition discriminate. }
  pose proof (script_key_errors
                {| raw_columns := ["type"; "country"; "duration"; "listed_in"];
                   raw_rows := raw_rows sample_frame |} D) as H.
  cbv beta in H.
  change (first_missing (raw_columns
            {| raw_columns := ["type"; "country"; "duration"; "listed_in"];
               raw_rows := raw_rows sample_frame |}))
    with (Some "title") in H.
  destruct H as (_ & _ & _ & H & _). apply H.
  vm_compute. repeat constructor.
Defined.

(** X3.  The cleaning section (lines 19 to 30) leaves [type] and [title] as
    they are.  In each of [country], [rating], [duration] and [listed_in] that
    the header has, a missing cell becomes "Unknown" and a cell of ASCII text
    loses the white space around it and nothing else, so that no cleaned value
    begins or ends with white space.  A cell of (ASCII) white space only
    becomes the empty string, not the sentinel.  Cleaning a cleaned value
    changes nothing.  The release year is kept, or has no value on any record
    when the column is absent. *)
Theorem cleaning_invariant {DP : DateParser} (raw : RawFrame) :
  (exists frame : DataFrame,
     load raw = Ok frame /\
     Forall2
       (fun (r : RawRow) (row : Row) =>
          type row = raw_type r /\ title row = raw_title r /\
          (has_column (raw_columns raw) "country" = true ->
           cell_ascii (raw_country r) = true ->
           cleaned_from (raw_country r) (country row)) /\
          (has_column (raw_columns raw) "rating" = true ->
           cell_ascii (raw_rating r) = true ->
           cleaned_from (raw_rating r) (rating row)) /\
          (has_column (raw_columns raw) "duration" = true ->
           cell_ascii (raw_duration r) = true ->
           cleaned_from (raw_duration r) (duration row)) /\
          (has_column (raw_columns raw) "listed_in" = true ->
           cell_ascii (raw_listed_in r) = true ->
           cleaned_from (raw_listed_in r) (listed_in row)) /\
          release_year row =
          (if has_column (raw_columns raw) "release_year"
           then raw_release_year r else None))
       (raw_rows raw) (rows frame)) /\
  (forall text : string,
      is_ascii text = true -> all_space text = true ->
      fill_clean (Some text) = "") /\
  (forall c : cell,
      cell_ascii c = true ->
      is_ascii (fill_clean c) = true /\
      fill_clean (Some (fill_clean c)) = fill_clean c).
Proof.
  split; [|split].
  - destruct (load_rows raw) as (frame & Hload & Hrows & _).
    exists frame. split; [exact Hload|]. rewrite Hrows.
    apply Forall2_map_r. intros r _. unfold cleaned_row, load_row.
    cbn [type title country rating duration listed_in release_year].
    unfold clean_if_present.
    split; [reflexivity|]. split; [reflexivity|].
    split; [intros -> _; apply fill_clean_spec|].
    split; [intros -> _; apply fill_clean_spec|].
    split; [intros -> _; apply fill_clean_spec|].
    split; [intros -> _; apply fill_clean_spec | reflexivity].
  - intros text _ H. unfold fill_clean. now apply all_space_strip.
  - intros c Hc. split.
    + unfold fill_clean. destruct c as [text|]; [|reflexivity].
      simpl in Hc. destruct (strip_split text) as (pre & post & E & _).
      rewrite E, !is_ascii_app in Hc.
      apply andb_true_iff in Hc as [_ Hc].
      now apply andb_true_iff in Hc as [Hc _].
    + unfold fill_clean at 1. apply strip_fixed; apply strip_clean.
Qed.

Lemma cleaning_invariant_witness :
  fill_clean (Some "  90 min ") = "90 min" /\
  fill_clean (Some (fill_clean (Some "  90 min "))) = "90 min".
Proof.
  split; [reflexivity|].
  rewrite (proj2 (proj2 (proj2 (cleaning_invariant sample_frame))
                    (Some "  90 min ") eq_refl)).
  reflexivity.
Defined.

(** X4.  Cutting a field at its commas loses nothing: the pieces joined by
    commas give the field back, there is one piece more than there are
    commas (so never none), no piece holds a comma, and pieces without a comma
    joined by commas are cut back into the same pieces.  Hence every record
    contributes at least one token to the exploded column, and every token is
    free of commas and of white space at its ends. *)
Theorem field_pieces :
  (forall s : string,
      String.concat "," (split comma s) = s /\
      List.length (split comma s) = S (count_char comma s) /\
      Forall (fun p => count_char comma p = 0) (split comma s)) /\
  (forall l : list string,
      l <> [] -> Forall (fun p => count_char comma p = 0) l ->
      split comma (String.concat "," l) = l) /\
  (forall col : list string,
      List.length (explode_tokens col) =
      list_sum (map (fun field => S (count_char comma field)) col) /\
      List.length col <= List.length (explode_tokens col) /\
      Forall (fun t => count_char comma t = 0 /\ starts_clean t /\ ends_clean t)
             (explode_tokens col)).
Proof.
  split; [|split].
  - intros s. split; [apply concat_split|].
    split; [apply split_length | apply split_no_separator].
  - apply split_concat.
  - intros col. split; [apply explode_tokens_length|]. split.
    + rewrite explode_tokens_length.
      induction col as [|field col IH]; simpl; lia.
    + unfold explode_tokens. apply Forall_forall. intros t Ht.
      apply in_map_iff in Ht as (p & <- & Hp).
      apply in_flat_map in Hp as (field & _ & Hp).
      pose proof (split_no_separator field) as H.
      rewrite Forall_forall in H. specialize (H _ Hp).
      split; [now apply strip_no_separator | apply strip_clean].
Qed.

Lemma field_pieces_witness :
  split comma (String.concat "," ["United States"; " India"; ""]) =
  ["United States"; " India"; ""].
Proof.
  apply (proj1 (proj2 field_pieces)); [discriminate|].
  repeat constructor.
Defined.

(** ** The type distribution *)

Lemma dropna_types_In (rs : list RawRow) (t : string) :
  In t (dropna (map raw_type rs)) <-> In (Some t) (map raw_type rs).
Proof.
  induction rs as [|r rs IH]; simpl; [tauto|].
  destruct (raw_type r) as [t'|]; simpl; rewrite IH; split.
  - intros [->|H]; auto.
  - intros [[= ->]|H]; auto.
  - auto.
  - intros [H|H]; [discriminate | exact H].
Qed.

Lemma dropna_types_count (rs : list RawRow) (t : string) :
  count_occ string_dec (dropna (map raw_type rs)) t =
  List.length (filter (fun r => eq_str (raw_type r) t) rs).
Proof.
  induction rs as [|r rs IH]; simpl; [reflexivity|].
  destruct (raw_type r) as [t'|]; simpl; [|exact IH].
  destruct (string_dec t' t) as [->|Hne].
  - rewrite String.eqb_refl. simpl. now rewrite IH.
  - assert (F : String.eqb t' t = false) by now apply String.eqb_neq.
    now rewrite F.
Qed.

(** X5.  The type distribution (line 39) lists each type that occurs exactly
    once, with the number of records of that type, in decreasing order of
    count; records without a type are not counted, and the distribution is
    empty exactly when no record has a type. *)
Theorem type_counts_rule {DP : DateParser} {VS : ValueSort} (raw : RawFrame) :
  required (raw_columns raw) = true ->
  exists out : Output,
    main raw = Ok out /\
    NoDup (map fst (type_counts out)) /\
    (forall (t : string) (n : nat),
        In (t, n) (type_counts out) <->
        In (Some t) (map raw_type (raw_rows raw)) /\
        n = List.length (filter (fun r => eq_str (raw_type r) t) (raw_rows raw))) /\
    StronglySorted (fun a b => snd b <= snd a) (type_counts out) /\
    (type_counts out = [] <->
     forall r, In r (raw_rows raw) -> raw_type r = None).
Proof.
  intros Hreq. destruct (main_runs raw Hreq) as (out & Hout & R).
  exists out. split; [exact Hout|].
  assert (E : type_counts out = type_counts_of (map raw_type (raw_rows raw))).
  { now rewrite (run_type_counts _ _ R), (run_rows _ _ R), cleaned_types. }
  rewrite E. clear E R Hout Hreq out.
  pose proof (dropna_types_In (raw_rows raw)) as Hin.
  pose proof (dropna_types_count (raw_rows raw)) as Hcount.
  split; [|split; [|split]].
  - eapply Permutation_NoDup; [|apply tally_NoDup].
    apply Permutation_map. unfold type_counts_of, value_counts.
    rewrite <- !sort_values_perm. reflexivity.
  - intros t n. rewrite type_counts_In, <- Hin, <- Hcount. split.
    + intros H. apply tally_In in H. tauto.
    + intros [H ->]. now apply tally_complete.
  - apply sort_values_descending.
  - rewrite type_counts_nil. split.
    + intros H r Hr. destruct (raw_type r) as [t|] eqn:T; [|reflexivity].
      assert (F : In t (dropna (map raw_type (raw_rows raw)))).
      { apply Hin. rewrite <- T. now apply in_map. }
      rewrite H in F. contradiction.
    + intros H. destruct (dropna (map raw_type (raw_rows raw))) as [|t l] eqn:D;
        [reflexivity|].
      assert (F : In (Some t) (map raw_type (raw_rows raw)))
        by (apply Hin; now left).
      apply in_map_iff in F as (r & Hr & Hin'). rewrite (H r Hin') in Hr.
      discriminate.
Qed.

Lemma type_counts_rule_witness :
  exists out : Output,
    main sample_frame = Ok out /\
    type_counts out = [("Movie", 2); ("TV Show", 1)].
Proof.
  destruct (type_counts_rule sample_frame eq_refl) as (out & Hout & _).
  exists out. split; [exact Hout|]. now run_sample Hout.
Defined.

(** ** The fifteen genres *)

(** X6.  On a table whose genre cells are ASCII text, the genre table
    (lines 79 to 87) is built like the country table, from the tokens of the
    column [listed_in] and with 15 labels: each label is a token other than
    "Unknown", free of commas and of white space at its ends, with its number
    of occurrences; min(15, distinct tokens) labels are kept, none of the
    dropped tokens has a greater count than a kept one, the table is in
    increasing order of count, and when at most 15 distinct tokens occur
    every one of them is a label. *)
Theorem top_genres_rule {DP : DateParser} {VS : ValueSort} (raw : RawFrame) :
  NoDup (raw_columns raw) ->
  required (raw_columns raw) = true ->
  Forall (fun r => cell_ascii (raw_listed_in r) = true) (raw_rows raw) ->
  exists (out : Output) (tokens : list string),
    main raw = Ok out /\
    tokens_of_column (map raw_listed_in (raw_rows raw)) tokens /\
    (forall tokens' : list string,
        tokens_of_column (map raw_listed_in (raw_rows raw)) tokens' ->
        tokens' = tokens) /\
    (forall (g : string) (k : nat),
        In (g, k) (top_genres out) ->
        g <> "Unknown" /\ In g tokens /\
        k = count_occ string_dec tokens g /\ 0 < k /\
        count_char comma g = 0 /\ starts_clean g /\ ends_clean g) /\
    NoDup (map fst (top_genres out)) /\
    List.length (top_genres out) =
    Nat.min 15 (List.length (nodup string_dec (filter ne_Unknown tokens))) /\
    (forall (g g' : string) (k' : nat),
        In g tokens -> g <> "Unknown" ->
        ~ In g (map fst (top_genres out)) ->
        In (g', k') (top_genres out) ->
        count_occ string_dec tokens g <= k') /\
    StronglySorted by_count (top_genres out) /\
    (List.length (nodup string_dec (filter ne_Unknown tokens)) <= 15 ->
     forall g : string,
       In g tokens -> g <> "Unknown" ->
       In (g, count_occ string_dec tokens g) (top_genres out)).
Proof.
  intros _ Hreq _. destruct (main_runs raw Hreq) as (out & Hout & R).
  destruct (required_columns _ Hreq) as (_ & _ & _ & Hgenre & _).
  exists out, (genre_tokens raw). split; [exact Hout|].
  assert (E : top_genres out =
              top_tokens 15 (map (fun r => fill_clean (raw_listed_in r)) (raw_rows raw))).
  { rewrite (run_top_genres _ _ R), (run_rows _ _ R).
    now rewrite cleaned_genres. }
  assert (T : explode_tokens (map (fun r => fill_clean (raw_listed_in r)) (raw_rows raw))
              = genre_tokens raw) by apply explode_tokens_map.
  assert (U : forall tokens',
             tokens_of_column (map raw_listed_in (raw_rows raw)) tokens' <->
             tokens' = genre_tokens raw).
  { intros tokens'. rewrite tokens_of_column_explode, map_map. now rewrite T. }
  rewrite E.
  split; [now apply U|]. split; [intros tokens' H; now apply U|].
  split; [|split; [|split; [|split; [|split]]]].
  - intros g k H. apply top_tokens_counts in H. rewrite T in H.
    destruct H as (Hne & Hin & Hk & Hpos).
    repeat (split; [assumption|]).
    unfold genre_tokens in Hin.
    apply in_flat_map in Hin as (r & _ & Hin).
    apply in_map_iff in Hin as (p & <- & Hp).
    pose proof (split_no_separator (fill_clean (raw_listed_in r))) as H.
    rewrite Forall_forall in H. specialize (H _ Hp).
    split; [now apply strip_no_separator | apply strip_clean].
  - apply top_tokens_keys.
  - now rewrite top_tokens_length, T.
  - intros g g' k' Hg Hne Hout' Hin. rewrite <- T.
    apply (top_tokens_dominate 15 _ g g' k'); [|exact Hout'|exact Hin].
    rewrite T. apply filter_In. split; [exact Hg | now apply ne_Unknown_true].
  - apply top_tokens_ascending.
  - intros Hfew g Hg Hne. apply top_tokens_all; [now rewrite T|]. rewrite T.
    assert (Hk : ne_Unknown g = true) by now apply ne_Unknown_true.
    rewrite <- (count_occ_filter ne_Unknown) by exact Hk.
    apply tally_complete, filter_In. now split.
Qed.

Lemma top_genres_rule_witness :
  exists out : Output,
    main sample_frame = Ok out /\
    NoDup (map fst (top_genres out)) /\
    StronglySorted by_count (top_genres out).
Proof.
  assert (A : Forall (fun r => cell_ascii (raw_listed_in r) = true)
                     (raw_rows sample_frame)) by (repeat constructor).
  destruct (top_genres_rule sample_frame all_columns_distinct eq_refl A)
    as (out & tokens & Hout & _ & _ & _ & Hkeys & _ & _ & Hsorted & _).
  exists out. now split.
Defined.

(** ** The order of the records *)

Lemma sorted_lt_unique (l1 l2 : list Z) :
  StronglySorted Z.lt l1 -> StronglySorted Z.lt l2 ->
  (forall k, In k l1 <-> In k l2) -> l1 = l2.
Proof.
  intros H1. revert l2.
  induction H1 as [|a l1 Hs1 IH Ha]; intros l2 H2 Hiff.
  - destruct l2 as [|b l2]; [reflexivity|].
    destruct (proj2 (Hiff b) (or_introl eq_refl)).
  - destruct H2 as [|b l2 Hs2 Hb].
    + destruct (proj1 (Hiff a) (or_introl eq_refl)).
    + rewrite Forall_forall in Ha, Hb.
      assert (E : a = b).
      { destruct (proj1 (Hiff a) (or_introl eq_refl)) as [E|Hin]; [now symmetry|].
        destruct (proj2 (Hiff b) (or_introl eq_refl)) as [E|Hin']; [exact E|].
        specialize (Ha _ Hin'). specialize (Hb _ Hin). lia. }
      subst b. f_equal. apply IH; [exact Hs2|].
      intros k. split; intros Hk.
      * destruct (proj1 (Hiff k) (or_intror Hk)) as [E|Hin]; [|exact Hin].
        specialize (Ha _ Hk). lia.
      * destruct (proj2 (Hiff k) (or_intror Hk)) as [E|Hin]; [|exact Hin].
        specialize (Hb _ Hk). lia.
Qed.

Lemma filter_length_perm {A : Type} (f : A -> bool) (l l' : list A) :
  Permutation l l' -> List.length (filter f l) = List.length (filter f l').
Proof.
  induction 1 as [|x l l' _ IH|x y l|l l' l'' _ IH1 _ IH2]; simpl.
  - reflexivity.
  - destruct (f x); simpl; now rewrite IH.
  - destruct (f x), (f y); reflexivity.
  - now rewrite IH1.
Qed.

Lemma dated_perm (rs rs' : list Row) :
  Permutation rs rs' -> Permutation (dated rs) (dated rs').
Proof.
  induction 1 as [|r l l' _ IH|r1 r2 l|l l' l'' _ IH1 _ IH2]; simpl.
  - constructor.
  - destruct (year_added r); [now constructor | exact IH].
  - destruct (year_added r1), (year_added r2);
      try apply Permutation_refl. apply perm_swap.
  - now transitivity (dated l').
Qed.

Lemma groupby_count_perm (obs obs' : list (Z * cell)) :
  Permutation obs obs' -> groupby_count obs = groupby_count obs'.
Proof.
  intros P. unfold groupby_count.
  assert (K : group_keys (map fst obs) = group_keys (map fst obs')).
  { apply sorted_lt_unique; try apply group_keys_sorted.
    intros k. rewrite !group_keys_In. split; apply Permutation_in.
    - now apply Permutation_map.
    - now apply Permutation_map, Permutation_sym. }
  rewrite K. apply map_ext. intros y. f_equal. now apply filter_length_perm.
Qed.

Lemma year_counts_perm (rs rs' : list Row) :
  Permutation rs rs' -> year_counts_of rs = year_counts_of rs'.
Proof.
  intros P. rewrite !year_counts_eq. now apply groupby_count_perm, dated_perm.
Qed.

Lemma titled_in_none (y : Z) (rs : list Row) :
  (forall r, In r rs -> year_added r = Some y -> title r = None) ->
  titled_in y rs = [].
Proof.
  induction rs as [|r rs IH]; intros H; [reflexivity|]. simpl.
  assert (T : titled_in y rs = []) by (apply IH; intros r' Hr'; apply H; now right).
  destruct (year_added r) as [y'|] eqn:Ey; [|exact T].
  destruct (Z.eqb_spec y' y) as [->|Hne]; simpl; [|exact T].
  now rewrite (H r (or_introl eq_refl) Ey).
Qed.

(** X7.  The yearly series (lines 67 to 71) is in strictly increasing order of
    the year, hence has one entry per year; a year whose records all lack a
    title has an entry with count 0; and the series does not depend on the
    order of the records of the frame. *)
Theorem yearly_series_order {DP : DateParser} {VS : ValueSort} (raw : RawFrame) :
  required (raw_columns raw) = true ->
  exists out : Output,
    main raw = Ok out /\
    StronglySorted by_index (year_counts out) /\
    NoDup (map fst (year_counts out)) /\
    (forall y : Z,
        (exists r, In r (rows (df out)) /\ year_added r = Some y) ->
        (forall r, In r (rows (df out)) -> year_added r = Some y ->
                   title r = None) ->
        In (y, 0) (year_counts out)) /\
    (forall rs' : list Row,
        Permutation (rows (df out)) rs' -> year_counts_of rs' = year_counts out).
Proof.
  intros Hreq. destruct (main_runs raw Hreq) as (out & Hout & R).
  exists out. split; [exact Hout|]. rewrite (run_year_counts _ _ R).
  split; [apply year_counts_sorted|]. split; [|split].
  - apply sorted_lt_NoDup.
    assert (S : StronglySorted by_index (year_counts_of (rows (df out))))
      by apply year_counts_sorted.
    induction S as [|p s Hs IH Hp]; simpl; constructor; [exact IH|].
    rewrite Forall_forall in *. intros k Hk.
    apply in_map_iff in Hk as (q & <- & Hq). exact (Hp _ Hq).
  - intros y Hex Hnone. apply year_counts_In. split; [exact Hex|].
    rewrite (titled_in_none y (rows (df out)) Hnone). reflexivity.
  - intros rs' P. symmetry. now apply year_counts_perm.
Qed.

Lemma yearly_series_order_witness :
  exists out : Output,
    main totals_frame = Ok out /\
    year_counts out = [(2020%Z, 0); (2021%Z, 2)] /\
    StronglySorted by_index (year_counts out).
Proof.
  destruct (yearly_series_order totals_frame eq_refl)
    as (out & Hout & Hsorted & _).
  exists out. split; [exact Hout|]. split; [|exact Hsorted].
  now run_sample Hout.
Defined.

(** ** The sentence about the countries *)

Lemma sorted_firstn {A : Type} (R : A -> A -> Prop) (n : nat) (l : list A) :
  StronglySorted R l -> StronglySorted R (firstn n l).
Proof.
  intros H. revert n. induction H as [|a l Hl IH Ha]; intros [|n]; simpl;
    try constructor; [apply IH|].
  rewrite Forall_forall in *. intros x Hx. apply Ha.
  rewrite <- (firstn_skipn n l). apply in_or_app. now left.
Qed.

Lemma insight_countries_top {VS : ValueSort} (tc : Series string) :
  tc <> [] -> NoDup (map fst tc) ->
  exists top : Series string,
    insight_countries tc =
    [("Top content countries: " ++ String.concat ", " (map fst top) ++ ".")%string] /\
    List.length top = Nat.min 3 (List.length tc) /\
    incl top tc /\
    NoDup (map fst top) /\
    StronglySorted (fun a b => snd b <= snd a) top /\
    (forall x y, In x top -> In y tc -> ~ In y top -> snd y <= snd x).
Proof.
  intros Hne Hkeys. exists (firstn 3 (sort_values false tc)).
  split; [|split; [|split; [|split; [|split]]]].
  - unfold insight_countries. destruct tc as [|p tc]; [contradiction|].
    now rewrite firstn_map.
  - now rewrite length_firstn, sort_values_length.
  - intros x Hx. apply (sort_values_In false). eapply In_head. exact Hx.
  - rewrite <- firstn_map. apply (NoDup_head 3).
    eapply Permutation_NoDup; [|exact Hkeys].
    apply Permutation_map, sort_values_perm.
  - apply sorted_firstn, sort_values_descending.
  - intros x y Hx Hy Hout. apply (sort_values_In false) in Hy.
    rewrite <- (firstn_skipn 3 (sort_values false tc)) in Hy.
    apply in_app_or in Hy as [Hy|Hy]; [contradiction|].
    exact (sorted_head_tail _ 3 _ (sort_values_descending tc) _ _ Hx Hy).
Qed.

Lemma only_Unknown (l : list string) :
  (forall c, In c l -> c = "Unknown") -> filter ne_Unknown l = [].
Proof.
  induction l as [|c l IH]; intros H; [reflexivity|]. simpl.
  rewrite (H c (or_introl eq_refl)). simpl.
  apply IH. intros c' Hc'. apply H. now right.
Qed.

Lemma script_empty_countries {DP : DateParser} {VS : ValueSort} {PL : Plotting}
    (raw : RawFrame) (out : Output) :
  main raw = Ok out -> top_countries out = [] ->
  forall out' : Output, script raw <> Ok out'.
Proof.
  intros Hout H out'. rewrite (script_completes raw out Hout).
  unfold charts. rewrite H. cbn [app in_turn fold_right].
  destruct (barplot _) as [[]|e]; cbn [bind]; [|discriminate].
  destruct (savefig "01_movies_vs_tv.png") as [[]|e]; cbn [bind];
    [|discriminate].
  rewrite barh_empty. discriminate.
Qed.

(** X8.  On a table whose country cells are ASCII text.  When no record has a
    country token other than "Unknown" the script does not complete (the chart
    of line 60 has no bar to draw), so that in a run that completes the guard
    of line 134 holds and the second sentence (lines 134 to 136) is always
    produced.  It names min(3, labels) labels of the country table, separated
    by ", ", from the greatest count down; no label left out has a greater
    count than a label named, and the labels named are distinct. *)
Theorem countries_sentence {DP : DateParser} {VS : ValueSort} {PL : Plotting}
    (raw : RawFrame) :
  NoDup (raw_columns raw) ->
  required (raw_columns raw) = true ->
  Forall (fun r => cell_ascii (raw_country r) = true) (raw_rows raw) ->
  exists tokens : list string,
    tokens_of_column (map raw_country (raw_rows raw)) tokens /\
    ((forall c, In c tokens -> c = "Unknown") ->
     forall out : Output, script raw <> Ok out) /\
    (forall out : Output,
        script raw = Ok out ->
        (exists c, In c tokens /\ c <> "Unknown") /\
        exists top : Series string,
          insight_countries (top_countries out) =
          [("Top content countries: " ++ String.concat ", " (map fst top) ++
            ".")%string] /\
          In ("Top content countries: " ++ String.concat ", " (map fst top) ++
              ".")%string (ins out) /\
          List.length top = Nat.min 3 (List.length (top_countries out)) /\
          incl top (top_countries out) /\
          NoDup (map fst top) /\
          StronglySorted (fun a b => snd b <= snd a) top /\
          (forall x y, In x top -> In y (top_countries out) -> ~ In y top ->
                       snd y <= snd x)).
Proof.
  intros _ Hreq _. destruct (main_runs raw Hreq) as (out & Hout & R).
  destruct (required_columns _ Hreq) as (_ & Hcountry & _).
  exists (country_tokens raw).
  assert (E : top_countries out =
              top_tokens 10 (map (fun r => fill_clean (raw_country r)) (raw_rows raw))).
  { rewrite (run_top_countries _ _ R), (run_rows _ _ R).
    now rewrite cleaned_countries. }
  assert (T : explode_tokens (map (fun r => fill_clean (raw_country r)) (raw_rows raw))
              = country_tokens raw) by apply explode_tokens_map.
  assert (L : List.length (top_countries out) =
              Nat.min 10 (List.length (nodup string_dec
                                         (filter ne_Unknown (country_tokens raw))))).
  { now rewrite E, top_tokens_length, T. }
  assert (Hall : (forall c, In c (country_tokens raw) -> c = "Unknown") ->
                 top_countries out = []).
  { intros H. rewrite (only_Unknown _ H) in L. simpl in L.
    destruct (top_countries out); [reflexivity | discriminate]. }
  split; [|split].
  - rewrite tokens_of_column_explode, map_map. now rewrite T.
  - intros H. apply (script_empty_countries raw out Hout). now apply Hall.
  - intros out' Hrun.
    assert (Eo : out' = out).
    { rewrite (script_completes raw out Hout) in Hrun.
      destruct (in_turn _) as [[]|e]; cbn [bind] in Hrun; [|discriminate].
      now injection Hrun as <-. }
    subst out'.
    assert (Hnil : top_countries out <> []).
    { intros N. exact (script_empty_countries raw out Hout N out Hrun). }
    split.
    + destruct (filter ne_Unknown (country_tokens raw)) as [|c l] eqn:F.
      * simpl in L.
        destruct (top_countries out); [now elim Hnil | discriminate].
      * assert (Hc : In c (filter ne_Unknown (country_tokens raw)))
          by (rewrite F; now left).
        apply filter_In in Hc as [Hc Hne]. exists c.
        split; [exact Hc | now apply ne_Unknown_true].
    + assert (K : NoDup (map fst (top_countries out)))
        by (rewrite E; apply top_tokens_keys).
      destruct (insight_countries_top _ Hnil K)
        as (top & Hs & Hlen & Hincl & Hk & Hsort & Hdom).
      exists top. split; [exact Hs|]. split.
      * destruct (run_ins _ _ R) as (i1 & i3 & _ & _ & ->).
        rewrite Hs. apply in_or_app. right. now left.
      * repeat (split; [assumption|]). exact Hdom.
Qed.

Lemma countries_sentence_witness :
  exists out : Output,
    script sample_frame = Ok out /\
    In "Top content countries: United States, India, Germany." (ins out).
Proof.
  assert (A : Forall (fun r => cell_ascii (raw_country r) = true)
                     (raw_rows sample_frame)) by (repeat constructor).
  destruct (countries_sentence sample_frame all_columns_distinct eq_refl A) as (tokens & _ & _ & H).
  destruct (main_runs sample_frame eq_refl) as (out & Hout & _).
  assert (S : script sample_frame = Ok out).
  { rewrite (script_completes _ _ Hout). run_sample Hout. reflexivity. }
  exists out. split; [exact S|].
  destruct (H out S) as (_ & top & Hs & Hin & _).
  run_sample Hout.
  match type of Hs with
  | ?l = _ =>
      assert (C : l = ["Top content countries: United States, India, Germany."])
        by (vm_compute; reflexivity)
  end.
  rewrite Hs in C. injection C as C. rewrite C in Hin. exact Hin.
Defined.

(** ** The sentence about the durations *)

Lemma cleaned_movie_minutes {DP : DateParser} (raw : RawFrame) :
  has_column (raw_columns raw) "duration" = true ->
  map duration_minutes
      (map movie_of (filter is_movie (map (cleaned_row raw) (raw_rows raw)))) =
  map (fun r => number_of (fill_clean (raw_duration r)))
      (filter (fun r => eq_str (raw_type r) "Movie") (raw_rows raw)).
Proof.
  intros H. induction (raw_rows raw) as [|r rs IH]; [reflexivity|]. simpl.
  unfold is_movie at 1. cbn [cleaned_row load_row type].
  destruct (eq_str (raw_type r) "Movie"); [|exact IH].
  simpl. rewrite IH. f_equal.
  unfold clean_if_present. now rewrite H.
Qed.

(** X9.  On a table whose durations are ASCII text, the fourth sentence
    (lines 142 to 144) is produced exactly when some record of type Movie has
    a digit in its cleaned duration.  The values
    averaged are the numbers found in the durations of the Movie records, in
    the order of the file; the records of any other type do not enter.  When
    the sentence is produced it is the last one. *)
Theorem duration_sentence {DP : DateParser} {VS : ValueSort} (raw : RawFrame) :
  NoDup (raw_columns raw) ->
  required (raw_columns raw) = true ->
  Forall (fun r => cell_ascii (raw_duration r) = true) (raw_rows raw) ->
  exists out : Output,
    main raw = Ok out /\
    map duration_minutes (movies out) =
    map (fun r => number_of (fill_clean (raw_duration r)))
        (filter (fun r => eq_str (raw_type r) "Movie") (raw_rows raw)) /\
    ((forall r, In r (raw_rows raw) -> raw_type r = Some "Movie" ->
                no_digit (fill_clean (raw_duration r)) = true) ->
     insight_duration (movies out) = []) /\
    ((exists r, In r (raw_rows raw) /\ raw_type r = Some "Movie" /\
                no_digit (fill_clean (raw_duration r)) = false) ->
     let sentence :=
       ("Avg movie duration ≈ " ++
        format_float 0 (mean (map duration_minutes (movies out))) ++
        " minutes.")%string in
     insight_duration (movies out) = [sentence] /\
     last (ins out) "" = sentence).
Proof.
  intros _ Hreq _. destruct (main_runs raw Hreq) as (out & Hout & R).
  destruct (required_columns _ Hreq) as (_ & _ & _ & _ & Hdur).
  exists out. split; [exact Hout|].
  assert (M : map duration_minutes (movies out) =
              map (fun r => number_of (fill_clean (raw_duration r)))
                  (filter (fun r => eq_str (raw_type r) "Movie") (raw_rows raw))).
  { rewrite (run_movies _ _ R), (run_rows _ _ R).
    now apply cleaned_movie_minutes. }
  split; [exact M|].
  assert (Hex : existsb notna (map duration_minutes (movies out)) = true <->
                exists r, In r (raw_rows raw) /\ raw_type r = Some "Movie" /\
                          no_digit (fill_clean (raw_duration r)) = false).
  { rewrite M, existsb_exists. split.
    - intros (m & Hm & Hn). apply in_map_iff in Hm as (r & <- & Hr).
      apply filter_In in Hr as [Hr Hty]. exists r. split; [exact Hr|].
      split; [now apply eq_str_true|].
      rewrite number_of_notna in Hn. now destruct (no_digit _).
    - intros (r & Hr & Hty & Hnd).
      exists (number_of (fill_clean (raw_duration r))). split.
      + apply in_map_iff. exists r. split; [reflexivity|].
        apply filter_In. split; [exact Hr | now apply eq_str_true].
      + rewrite number_of_notna, Hnd. reflexivity. }
  split.
  - intros Hall. unfold insight_duration.
    assert (E : existsb notna (map duration_minutes (movies out)) = false).
    { apply not_true_is_false. intros E.
      apply Hex in E as (r & Hr & Hty & Hnd). rewrite (Hall r Hr Hty) in Hnd.
      discriminate. }
    now rewrite E.
  - intros H. apply Hex in H. cbv zeta.
    assert (S : insight_duration (movies out) =
                [("Avg movie duration ≈ " ++
                  format_float 0 (mean (map duration_minutes (movies out))) ++
                  " minutes.")%string]).
    { unfold insight_duration. now rewrite H. }
    split; [exact S|].
    destruct (run_ins _ _ R) as (i1 & i3 & _ & _ & Hins).
    rewrite Hins, S, !app_assoc. apply last_last.
Qed.

Lemma duration_sentence_witness :
  exists out : Output,
    main sample_frame = Ok out /\
    map duration_minutes (movies out) = [Some 90%float; Some 120%float] /\
    last (ins out) "" = "Avg movie duration ≈ 105 minutes.".
Proof.
  assert (A : Forall (fun r => cell_ascii (raw_duration r) = true)
                     (raw_rows sample_frame)) by (repeat constructor).
  destruct (duration_sentence sample_frame all_columns_distinct eq_refl A) as (out & Hout & _).
  exists out. split; [exact Hout|]. now run_sample Hout.
Defined.

(** ** The names of the columns *)

Lemma lower_char_space (c : ascii) : is_space (lower_char c) = is_space c.
Proof. destruct c as [[] [] [] [] [] [] [] []]; reflexivity. Qed.

Lemma lower_char_upper (c : ascii) : is_upper (lower_char c) = false.
Proof. destruct c as [[] [] [] [] [] [] [] []]; reflexivity. Qed.

Lemma lower_char_fixed (c : ascii) : lower_char (lower_char c) = lower_char c.
Proof. destruct c as [[] [] [] [] [] [] [] []]; reflexivity. Qed.

Lemma lower_char_ascii (c : ascii) :
  (nat_of_ascii (lower_char c) <? 128)%nat = (nat_of_ascii c <? 128)%nat.
Proof. destruct c as [[] [] [] [] [] [] [] []]; reflexivity. Qed.

Lemma underscore_space (c : ascii) :
  is_space c = false -> is_space (if Ascii.eqb c " " then "_"%char else c) = false.
Proof. destruct (Ascii.eqb c " "); [reflexivity | tauto]. Qed.

Lemma lower_starts_clean (s : string) : starts_clean s -> starts_clean (lower s).
Proof. destruct s as [|c s]; simpl; [tauto|]. now rewrite lower_char_space. Qed.

Lemma lower_ends_clean (s : string) : ends_clean s -> ends_clean (lower s).
Proof.
  induction s as [|c s IH]; [tauto|].
  destruct s as [|d s]; [simpl; now rewrite lower_char_space|].
  exact IH.
Qed.

Lemma replace_starts_clean (s : string) :
  starts_clean s -> starts_clean (replace " " "_" s).
Proof. destruct s as [|c s]; simpl; [tauto|]. apply underscore_space. Qed.

Lemma replace_ends_clean (s : string) :
  ends_clean s -> ends_clean (replace " " "_" s).
Proof.
  induction s as [|c s IH]; [tauto|].
  destruct s as [|d s]; [apply underscore_space|].
  exact IH.
Qed.

Lemma lower_length (s : string) : String.length (lower s) = String.length s.
Proof. induction s as [|c s IH]; simpl; [reflexivity | now rewrite IH]. Qed.

Lemma replace_length (old new : ascii) (s : string) :
  String.length (replace old new s) = String.length s.
Proof. induction s as [|c s IH]; simpl; [reflexivity | now rewrite IH]. Qed.

Lemma append_length (s t : string) :
  String.length (s ++ t) = String.length s + String.length t.
Proof. induction s as [|c s IH]; simpl; [reflexivity | now rewrite IH]. Qed.

Lemma strip_length (s : string) : String.length (strip s) <= String.length s.
Proof.
  destruct (strip_split s) as (pre & post & Hs & _).
  rewrite Hs at 2. rewrite !append_length. lia.
Qed.

Lemma replace_none_left (s : string) : count_char " " (replace " " "_" s) = 0.
Proof.
  induction s as [|c s IH]; simpl; [reflexivity|]. rewrite IH.
  destruct (Ascii.eqb c " ") eqn:E; [reflexivity | now rewrite E].
Qed.

Lemma normalize_no_upper (s : string) (ch : ascii) :
  In ch (list_ascii_of_string (replace " " "_" (lower s))) -> is_upper ch = false.
Proof.
  induction s as [|c s IH]; simpl; [tauto|]. intros [<-|H]; [|now apply IH].
  destruct (Ascii.eqb (lower_char c) " "); [reflexivity | apply lower_char_upper].
Qed.

Lemma lower_replace_fixed (s : string) :
  replace " " "_" (lower (replace " " "_" (lower s))) = replace " " "_" (lower s).
Proof.
  induction s as [|c s IH]; simpl; [reflexivity|]. rewrite IH. f_equal.
  destruct (Ascii.eqb (lower_char c) " ") eqn:E; [reflexivity|].
  now rewrite lower_char_fixed, E.
Qed.

Lemma normalize_ascii (s : string) :
  is_ascii s = true -> is_ascii (replace " " "_" (lower s)) = true.
Proof.
  induction s as [|c s IH]; simpl; [reflexivity|]. intros H.
  apply andb_true_iff in H as [Hc Hs]. rewrite (IH Hs), andb_true_r.
  destruct (Ascii.eqb (lower_char c) " "); [reflexivity|].
  now rewrite lower_char_ascii.
Qed.

(** X10.  Line 16 gives every column a name without white space at its ends,
    without a space and without a capital letter, no longer than the name in
    the file; a name of that form is left as it is, so that normalising twice
    is normalising once.  (Names of ASCII characters, on which [lower] is
    [str.lower].) *)
Theorem column_names (c : string) :
  is_ascii c = true ->
  let name := normalize_column c in
  is_ascii name = true /\
  starts_clean name /\ ends_clean name /\
  count_char " " name = 0 /\
  (forall ch, In ch (list_ascii_of_string name) -> is_upper ch = false) /\
  String.length name <= String.length c /\
  normalize_column name = name.
Proof.
  intros Hc name. subst name. unfold normalize_column.
  destruct (strip_clean c) as [Hs He].
  assert (Hs' : starts_clean (replace " " "_" (lower (strip c))))
    by now apply replace_starts_clean, lower_starts_clean.
  assert (He' : ends_clean (replace " " "_" (lower (strip c))))
    by now apply replace_ends_clean, lower_ends_clean.
  split; [|split; [exact Hs'|split; [exact He'|split; [|split; [|split]]]]].
  - apply normalize_ascii.
    destruct (strip_split c) as (pre & post & E & _).
    rewrite E, !is_ascii_app in Hc.
    apply andb_true_iff in Hc as [_ Hc]. now apply andb_true_iff in Hc as [Hc _].
  - apply replace_none_left.
  - apply normalize_no_upper.
  - rewrite replace_length, lower_length. apply strip_length.
  - rewrite (strip_fixed _ Hs' He'). apply lower_replace_fixed.
Qed.

Lemma column_names_witness :
  normalize_column " Listed In" = "listed_in" /\
  normalize_column (normalize_column " Listed In") = "listed_in" /\
  required (normalize_columns
              ["Type"; " Title"; "COUNTRY"; "Listed In"; "duration "]) = true.
Proof.
  pose proof (column_names " Listed In" eq_refl) as H. cbv zeta in H.
  destruct H as (_ & _ & _ & _ & _ & _ & H).
  split; [reflexivity|]. split; [|reflexivity].
  rewrite H. reflexivity.
Defined.

(** ** The column that is cleaned and never read *)

Lemma through_sans_rating {B : Type} (p : Row -> bool) (h : Row -> B) :
  (forall r, p (sans_rating r) = p r) ->
  (forall r, h (sans_rating r) = h r) ->
  forall rs rs' : list Row,
    map sans_rating rs = map sans_rating rs' ->
    map h (filter p rs) = map h (filter p rs').
Proof.
  intros Hp Hh rs. induction rs as [|r rs IH]; intros [|r' rs'] E;
    try discriminate; [reflexivity|].
  cbn [map] in E.
  pose proof (f_equal (hd (sans_rating r)) E) as E1.
  pose proof (f_equal (@tl Row) E) as E2. cbn [hd tl] in E1, E2.
  cbn [map filter dated].
  assert (P : p r = p r') by now rewrite <- (Hp r), E1, Hp.
  assert (H : h r = h r') by now rewrite <- (Hh r), E1, Hh.
  rewrite <- P. destruct (p r); simpl; [rewrite H; f_equal|]; now apply IH.
Qed.

Lemma all_sans_rating {B : Type} (h : Row -> B) :
  (forall r, h (sans_rating r) = h r) ->
  forall rs rs' : list Row,
    map sans_rating rs = map sans_rating rs' -> map h rs = map h rs'.
Proof.
  intros Hh rs. induction rs as [|r rs IH]; intros [|r' rs'] E;
    try discriminate; [reflexivity|].
  cbn [map] in E.
  pose proof (f_equal (hd (sans_rating r)) E) as E1.
  pose proof (f_equal (@tl Row) E) as E2. cbn [hd tl] in E1, E2.
  cbn [map filter dated].
  rewrite <- (Hh r), E1, Hh. f_equal. now apply IH.
Qed.

Lemma dated_sans_rating (rs rs' : list Row) :
  map sans_rating rs = map sans_rating rs' -> dated rs = dated rs'.
Proof.
  revert rs'. induction rs as [|r rs IH]; intros [|r' rs'] E;
    try discriminate; [reflexivity|].
  cbn [map] in E.
  pose proof (f_equal (hd (sans_rating r)) E) as E1.
  pose proof (f_equal (@tl Row) E) as E2. cbn [hd tl] in E1, E2.
  cbn [map filter dated].
  assert (Y : year_added r = year_added r')
    by exact (f_equal year_added E1).
  assert (T : title r = title r') by exact (f_equal title E1).
  rewrite <- Y, <- T, (IH _ E2). reflexivity.
Qed.

Lemma filter_map_swap {A B : Type} (f : A -> B) (q : B -> bool) (l : list A) :
  filter q (map f l) = map f (filter (fun a => q (f a)) l).
Proof.
  induction l as [|a l IH]; simpl; [reflexivity|].
  destruct (q (f a)); simpl; now rewrite IH.
Qed.

Lemma filter_filter {A : Type} (p q : A -> bool) (l : list A) :
  filter q (filter p l) = filter (fun a => p a && q a) l.
Proof.
  induction l as [|a l IH]; simpl; [reflexivity|].
  destruct (p a); simpl; [destruct (q a)|]; now rewrite IH.
Qed.

Lemma existsb_through {A B : Type} (f : A -> B) (q : B -> bool) (l : list A) :
  existsb (fun a => q (f a)) l = existsb q (map f l).
Proof. induction l as [|a l IH]; simpl; [reflexivity | now rewrite IH]. Qed.

Lemma cleaned_sans_rating {DP : DateParser} (raw raw' : RawFrame) :
  raw_columns raw' = raw_columns raw ->
  Forall2 (fun r r' => r' = with_rating (raw_rating r') r)
          (raw_rows raw) (raw_rows raw') ->
  map sans_rating (map (cleaned_row raw') (raw_rows raw')) =
  map sans_rating (map (cleaned_row raw) (raw_rows raw)).
Proof.
  intros Hcols Hrows.
  assert (Hdates : map raw_date_added (raw_rows raw') =
                   map raw_date_added (raw_rows raw)).
  { induction Hrows as [|r r' rs rs' Hr _ IH]; [reflexivity|].
    simpl. rewrite IH, Hr. reflexivity. }
  unfold cleaned_row. rewrite Hcols, Hdates. clear Hdates.
  generalize (map raw_date_added (raw_rows raw)). intros col.
  induction Hrows as [|r r' rs rs' Hr _ IH]; [reflexivity|].
  simpl. rewrite IH. f_equal. rewrite Hr. reflexivity.
Qed.

(** X11.  The column [rating] is cleaned (lines 19 to 21) and never read
    again: two files with the same header whose records differ in their
    ratings only give the same error, or the same tables, derived columns,
    file names and sentences. *)
Theorem rating_never_read {DP : DateParser} {VS : ValueSort}
    (raw raw' : RawFrame) :
  raw_columns raw' = raw_columns raw ->
  Forall2 (fun r r' => r' = with_rating (raw_rating r') r)
          (raw_rows raw) (raw_rows raw') ->
  match main raw, main raw' with
  | Ok out, Ok out' => findings out = findings out'
  | Raise e, Raise e' => e = e'
  | _, _ => False
  end.
Proof.
  intros Hcols Hrows.
  destruct (first_missing (raw_columns raw)) as [c|] eqn:E.
  - rewrite (main_raises raw c E), (main_raises raw' c); [reflexivity|].
    now rewrite Hcols.
  - apply first_missing_none in E.
    destruct (main_runs raw E) as (out & Hout & R).
    assert (E' : required (raw_columns raw') = true) by now rewrite Hcols.
    destruct (main_runs raw' E') as (out' & Hout' & R').
    rewrite Hout, Hout'.
    pose proof (cleaned_sans_rating raw raw' Hcols Hrows) as S.
    rewrite <- (run_rows _ _ R), <- (run_rows _ _ R') in S. symmetry in S.
    assert (Hty : type_counts out = type_counts out').
    { rewrite (run_type_counts _ _ R), (run_type_counts _ _ R').
      f_equal. now apply all_sans_rating. }
    assert (Hco : top_countries out = top_countries out').
    { rewrite (run_top_countries _ _ R), (run_top_countries _ _ R').
      f_equal. now apply all_sans_rating. }
    assert (Hyc : year_counts out = year_counts out').
    { rewrite (run_year_counts _ _ R), (run_year_counts _ _ R').
      unfold year_counts_of. now rewrite (dated_sans_rating _ _ S). }
    assert (Hge : top_genres out = top_genres out').
    { rewrite (run_top_genres _ _ R), (run_top_genres _ _ R').
      f_equal. now apply all_sans_rating. }
    assert (Hmin : map duration_minutes (movies out) =
                   map duration_minutes (movies out')).
    { rewrite (run_movies _ _ R), (run_movies _ _ R'), !map_map.
      now apply through_sans_rating. }
    assert (Hdec : map decade (movies out) = map decade (movies out')).
    { rewrite (run_movies _ _ R), (run_movies _ _ R'), !map_map.
      now apply through_sans_rating. }
    assert (Hrmin : map duration_minutes (filter in_recent_decade (movies out)) =
                    map duration_minutes (filter in_recent_decade (movies out'))).
    { rewrite (run_movies _ _ R), (run_movies _ _ R').
      rewrite !filter_map_swap, !filter_filter, !map_map.
      now apply through_sans_rating. }
    assert (Hrdec : map decade (filter in_recent_decade (movies out)) =
                    map decade (filter in_recent_decade (movies out'))).
    { rewrite (run_movies _ _ R), (run_movies _ _ R').
      rewrite !filter_map_swap, !filter_filter, !map_map.
      now apply through_sans_rating. }
    assert (Htv : map seasons (tv out) = map seasons (tv out')).
    { rewrite (run_tv _ _ R), (run_tv _ _ R'), !map_map.
      now apply through_sans_rating. }
    assert (Hfl : year_added_float (df out) = year_added_float (df out')).
    { rewrite (load_year_dtype _ _ (run_load _ _ R)),
        (load_year_dtype _ _ (run_load _ _ R')), Hcols. f_equal.
      rewrite !(existsb_through year_added (fun y => negb (notna y))).
      f_equal. now apply all_sans_rating. }
    assert (Hfig : figures out = figures out').
    { now rewrite (run_figures _ _ R), (run_figures _ _ R'), Htv. }
    assert (Hins : ins out = ins out').
    { destruct (run_ins _ _ R) as (i1 & i3 & H1 & H3 & ->).
      destruct (run_ins _ _ R') as (i1' & i3' & H1' & H3' & ->).
      rewrite Hty, H1' in H1. rewrite Hfl, Hyc, H3' in H3.
      injection H1 as ->. injection H3 as ->. rewrite Hco.
      do 3 f_equal. unfold insight_duration. now rewrite Hmin. }
    unfold findings.
    rewrite (run_recent_decades _ _ R), (run_recent_decades _ _ R').
    unfold recent_decades_of.
    rewrite Hty, Hco, Hyc, Hge, Hfig, Hins, Htv,
      (run_text _ _ R), (run_text _ _ R'), Hins, Hmin, Hdec, Hrmin, Hrdec.
    reflexivity.
Qed.

Lemma rating_never_read_witness :
  exists out out' : Output,
    main sample_frame = Ok out /\
    main {| raw_columns := raw_columns sample_frame;
            raw_rows := map (with_rating (Some "TV-MA"))
                            (raw_rows sample_frame) |} = Ok out' /\
    findings out = findings out'.
Proof.
  pose proof (rating_never_read sample_frame
                {| raw_columns := raw_columns sample_frame;
                   raw_rows := map (with_rating (Some "TV-MA"))
                                   (raw_rows sample_frame) |}
                eq_refl) as H.
  cbv beta in H.
  assert (F : Forall2 (fun r r' => r' = with_rating (raw_rating r') r)
                      (raw_rows sample_frame)
                      (map (with_rating (Some "TV-MA")) (raw_rows sample_frame)))
    by (repeat constructor).
  specialize (H F).
  destruct (main_runs sample_frame eq_refl) as (out & Hout & _).
  destruct (main_runs {| raw_columns := raw_columns sample_frame;
                         raw_rows := map (with_rating (Some "TV-MA"))
                                         (raw_rows sample_frame) |} eq_refl)
    as (out' & Hout' & _).
  rewrite Hout, Hout' in H. exists out, out'. now repeat split.
Defined.

(** ** A file without release years *)

(** X12.  When the file has no column [release_year] (lines 29 and 30) the
    frame gets one without values: no movie has a decade and the decade table
    is empty, whatever the records hold. *)
Theorem no_release_year {DP : DateParser} {VS : ValueSort} (raw : RawFrame) :
  required (raw_columns raw) = true ->
  has_column (raw_columns raw) "release_year" = false ->
  exists out : Output,
    main raw = Ok out /\
    has_column (columns (df out)) "release_year" = true /\
    (forall row : Row, In row (rows (df out)) -> release_year row = None) /\
    (forall m : Movie, In m (movies out) -> decade m = None) /\
    recent_decades out = [].
Proof.
  intros Hreq Hno. destruct (main_runs raw Hreq) as (out & Hout & R).
  exists out. split; [exact Hout|].
  assert (Hrows : forall row, In row (rows (df out)) -> release_year row = None).
  { intros row Hrow. rewrite (run_rows _ _ R) in Hrow.
    apply in_map_iff in Hrow as (r & <- & _).
    unfold cleaned_row, load_row. cbn [release_year]. now rewrite Hno. }
  assert (Hdec : forall m, In m (movies out) -> decade m = None).
  { intros m Hm. rewrite (run_movies _ _ R) in Hm.
    apply in_map_iff in Hm as (row & <- & Hrow).
    apply filter_In in Hrow as [Hrow _].
    cbn [movie_of decade]. now rewrite (Hrows row Hrow). }
  split; [|split; [exact Hrows|split; [exact Hdec|]]].
  - pose proof (run_load _ _ R) as L. unfold load in L.
    destruct (if has_column (raw_columns raw) "date_added" then _ else _);
      [|discriminate].
    cbn [bind] in L. injection L as L. rewrite <- L. cbn [columns].
    rewrite Hno. unfold has_column. rewrite !existsb_app. simpl.
    now rewrite !orb_true_r.
  - rewrite (run_recent_decades _ _ R). unfold recent_decades_of.
    induction (movies out) as [|m ms IH]; [reflexivity|]. simpl.
    unfold in_recent_decade at 1. rewrite (Hdec m (or_introl eq_refl)).
    apply IH. intros m' Hm'. apply Hdec. now right.
Qed.

Lemma no_release_year_witness :
  exists out : Output,
    main {| raw_columns := ["type"; "title"; "country"; "listed_in"; "duration"];
            raw_rows := raw_rows sample_frame |} = Ok out /\
    recent_decades out = [].
Proof.
  destruct (no_release_year
              {| raw_columns := ["type"; "title"; "country"; "listed_in"; "duration"];
                 raw_rows := raw_rows sample_frame |} eq_refl eq_refl)
    as (out & Hout & _ & _ & _ & Hrec).
  exists out. now split.
Defined.

(** ** The text of the insights *)

Lemma append_assoc (s t u : string) :
  ((s ++ t) ++ u)%string = (s ++ t ++ u)%string.
Proof. induction s as [|c s IH]; simpl; [reflexivity | now rewrite IH]. Qed.

Lemma concat_length (sep : string) (l : list string) :
  String.length (String.concat sep l) =
  list_sum (map String.length l) + String.length sep * (List.length l - 1).
Proof.
  induction l as [|s l IH]; [simpl; lia|].
  destruct l as [|t l]; [simpl; lia|].
  change (String.concat sep (s :: t :: l))
    with (s ++ sep ++ String.concat sep (t :: l))%string.
  rewrite !append_length, IH. simpl. lia.
Qed.

Lemma concat_bullets (sep : string) (s : string) (l : list string) :
  (sep ++ String.concat sep (s :: l))%string =
  String.concat "" (map (fun t => (sep ++ t)%string) (s :: l)).
Proof.
  revert s. induction l as [|t l IH]; intros s.
  - simpl. reflexivity.
  - change (String.concat sep (s :: t :: l))
      with (s ++ sep ++ String.concat sep (t :: l))%string.
    rewrite IH.
    change (map (fun t0 => (sep ++ t0)%string) (s :: t :: l))
      with ((sep ++ s)%string :: map (fun t0 => (sep ++ t0)%string) (t :: l)).
    remember (map (fun t0 => (sep ++ t0)%string) (t :: l)) as tl eqn:Etl.
    destruct tl as [|u tl]; [discriminate|].
    change (String.concat "" ((sep ++ s)%string :: u :: tl))
      with ((sep ++ s) ++ "" ++ String.concat "" (u :: tl))%string.
    simpl. now rewrite append_assoc.
Qed.

(** X13.  The text written to insights.txt (lines 146 to 149) is the header
    followed, when there is a sentence, by one line per sentence, each made of
    a line feed, the mark ["- "] and the sentence, in the order of [ins]; it
    does not end with a line feed of its own.  Its length is that of the
    header and the first mark (16), of the sentences, and of three characters
    between two sentences. *)
Theorem insights_file {DP : DateParser} {VS : ValueSort} (raw : RawFrame) :
  required (raw_columns raw) = true ->
  exists out : Output,
    main raw = Ok out /\
    (ins out <> [] ->
     insights_txt out =
     ("Key Insights:" ++
      String.concat "" (map (fun s => nl ++ "- " ++ s) (ins out)))%string) /\
    String.length (insights_txt out) =
    16 + list_sum (map String.length (ins out)) + 3 * (List.length (ins out) - 1).
Proof.
  intros Hreq. destruct (main_runs raw Hreq) as (out & Hout & R).
  exists out. split; [exact Hout|]. rewrite (run_text _ _ R).
  unfold insights_text. split.
  - destruct (ins out) as [|s l]; [contradiction|]. intros _. f_equal.
    exact (concat_bullets (nl ++ "- ") s l).
  - rewrite !append_length, concat_length. simpl. lia.
Qed.

Lemma insights_file_witness :
  exists out : Output,
    main sample_frame = Ok out /\
    String.length (insights_txt out) = 219.
Proof.
  destruct (insights_file sample_frame eq_refl) as (out & Hout & _).
  exists out. split; [exact Hout|]. now run_sample Hout.
Defined.
